(** * n8n-nodes-influxdb: validation, formatting and the operations

    A shallow embedding of [InfluxDbValidator] (helpers/validators) and
    [InfluxDbFormatter] (helpers/formatters), with the part of the JavaScript
    runtime the two classes rely on, and of the operations of the node
    (operations/query, write, bucket and delete), as programs over the
    calls of the client library.

    Conventions of the embedding.
    - A JavaScript string is a [string]: a sequence of character codes
      0..255 (the Latin-1 part of the UTF-16 code units).
    - A number in general is a [JsNumber]: NaN, an infinity or a rational.
      [parseInt] and the product of two numbers round to the nearest
      double and overflow to infinity. A number that the code uses as an
      integer (epoch milliseconds, retention seconds, a row limit) is a
      [Z], the integer that the double is; remainders and quotients
      without remainder are exact on it, as they are on doubles, and
      [Number::toString] writes it as the runtime does: its digits up to
      2^53, the shortest decimal that reads back beyond, with an exponent
      from 10^21 on.
    - A call that can raise returns a [Completion]; [Thrown] is the
      exception channel.
    - The clock ([new Date()]) is an argument [now], in epoch milliseconds,
      read once per call.
    - [new Date(string)] is implementation-defined outside the ISO format;
      it is the parameter [dateParse]. *)

From Stdlib Require Import String Ascii List ZArith QArith Bool Lia.
Import ListNotations.
Local Open Scope string_scope.
Local Open Scope Z_scope.

Set Implicit Arguments.

(** ** Completions: normal return or a thrown error *)

Inductive JsError : Type :=
| TypeError (msg : string)
| RangeError (msg : string)
| Error (msg : string).

Inductive Completion (A : Type) : Type :=
| Returned (a : A)
| Thrown (e : JsError).

Arguments Returned {A} a.
Arguments Thrown {A} e.

Definition bind {A B : Type} (c : Completion A) (k : A -> Completion B)
  : Completion B :=
  match c with
  | Returned a => k a
  | Thrown e => Thrown e
  end.

Notation "x <- c ;; k" := (bind c (fun x => k))
  (at level 61, c at next level, right associativity).

Definition returns {A : Type} (c : Completion A) : Prop :=
  exists a, c = Returned a.

Definition throws {A : Type} (c : Completion A) : Prop :=
  exists e, c = Thrown e.

(** ** Numbers, dates and values *)

(** A number: NaN, the two infinities, or a finite value. Every finite
    double is a rational; signed zero is not distinguished (no code below
    can tell the two zeros apart). *)
Inductive JsNumber : Type :=
| NaN
| PosInfinity
| NegInfinity
| Finite (q : Q).

Definition num (z : Z) : JsNumber := Finite (inject_Z z).

Definition isFinite (n : JsNumber) : bool :=
  match n with Finite _ => true | _ => false end.

Definition isNaN (n : JsNumber) : bool :=
  match n with NaN => true | _ => false end.

(** [n < 0] *)
Definition ltZero (n : JsNumber) : bool :=
  match n with
  | NegInfinity => true
  | Finite q => Qnum q <? 0
  | _ => false
  end.

(** [Number.MAX_SAFE_INTEGER] *)
Definition maxSafeInteger : Z := 9007199254740991.

(** The integer nearest to [n / d], the even one of two that are equally
    near. *)
Definition roundHalfEven (n d : Z) : Z :=
  let q := n / d in
  let r := n mod d in
  if 2 * r <? d then q
  else if d <? 2 * r then q + 1
  else if Z.even q then q else q + 1.

(** The double nearest to a positive rational [a / d], as a mantissa [m]
    of at most 53 bits and an exponent [p] from -1074 on, for the value
    [m * 2 ^ p]; [None] when the nearest is beyond the largest double.
    [e] is the exponent of the leading bit of [a / d]. *)
Definition nearestDouble (a d : Z) : option (Z * Z) :=
  let e0 := Z.log2 a - Z.log2 d in
  let e :=
    if a * 2 ^ Z.max 0 (- e0) <? d * 2 ^ Z.max 0 e0 then e0 - 1 else e0 in
  let p := Z.max e (-1022) - 52 in
  let m := roundHalfEven (a * 2 ^ Z.max 0 (- p)) (d * 2 ^ Z.max 0 p) in
  if (1024 <=? e) || ((e =? 1023) && (m =? 2 ^ 53)) then None
  else Some (m, p).

(** The number that a rational is as a double: round to nearest, ties to
    even. An integer of at most 53 bits is a double. *)
Definition roundToDouble (q : Q) : JsNumber :=
  let a := Z.abs (Qnum q) in
  let d := Zpos (Qden q) in
  if (d =? 1) && (a <=? 2 ^ 53) then num (Qnum q)
  else if a =? 0 then num 0
  else
    match nearestDouble a d with
    | None => if Qnum q <? 0 then NegInfinity else PosInfinity
    | Some (m, p) =>
        let s := Z.sgn (Qnum q) in
        if 0 <=? p then num (s * (m * 2 ^ p))
        else Finite (Qred (s * m # Z.to_pos (2 ^ (- p))))
    end.

(** The number that an integer is as a double. *)
Definition toDouble (z : Z) : JsNumber := roundToDouble (inject_Z z).

(** [x === y] on numbers *)
Definition sameNumber (x y : JsNumber) : bool :=
  match x, y with
  | PosInfinity, PosInfinity | NegInfinity, NegInfinity => true
  | Finite a, Finite b => Qeq_bool a b
  | _, _ => false
  end.

(** [a * b] on numbers: the product of two finite numbers is rounded to
    a double and overflows to an infinity. *)
Definition mulNumber (a b : JsNumber) : JsNumber :=
  let sgn (x : JsNumber) : Z :=
    match x with
    | PosInfinity => 1
    | NegInfinity => -1
    | Finite q => Z.sgn (Qnum q)
    | NaN => 0
    end in
  match a, b with
  | NaN, _ | _, NaN => NaN
  | Finite x, Finite y => roundToDouble (x * y)
  | _, _ =>
      match sgn a * sgn b with
      | Z0 => NaN
      | Zpos _ => PosInfinity
      | Zneg _ => NegInfinity
      end
  end.

(** A [Date] object holds a time value: NaN (an invalid date) or an integer
    number of milliseconds since the epoch. *)
Inductive Date : Type :=
| InvalidDate
| ValidDate (ms : Z).

Definition getTime (d : Date) : JsNumber :=
  match d with
  | InvalidDate => NaN
  | ValidDate ms => num ms
  end.

Definition maxTimeValue : Z := 8640000000000000.

(** [new Date(n)]: TimeClip of the number. *)
Definition newDate (n : JsNumber) : Date :=
  match n with
  | Finite q =>
      if Z.abs (Qnum q) <=? maxTimeValue * Zpos (Qden q)
      then ValidDate (Z.quot (Qnum q) (Zpos (Qden q)))
      else InvalidDate
  | _ => InvalidDate
  end.

(** Data values: the primitives, [Date] instances, arrays, plain data
    objects (an object is its own enumerable properties, in the order of
    [Object.entries]) and the objects that inherit from [Date.prototype]
    without being a [Date], such as [Object.create(Date.prototype)]: they
    pass [instanceof Date] and hold no time value. An object whose
    internal methods run code of its own (a [Proxy]) is not a value of
    the model. *)
#[local] Unset Elimination Schemes.
Inductive JsValue : Type :=
| JsUndefined
| JsNull
| JsBoolean (b : bool)
| JsNum (n : JsNumber)
| JsBigInt (z : Z)
| JsString (s : string)
| JsSymbol (description : string)
| JsDate (d : Date)
| JsArray (elems : list JsValue)
| JsObject (props : list (string * JsValue))
| JsDateLike (props : list (string * JsValue)).
#[local] Set Elimination Schemes.

Definition typeof (v : JsValue) : string :=
  match v with
  | JsUndefined => "undefined"
  | JsNull => "object"
  | JsBoolean _ => "boolean"
  | JsNum _ => "number"
  | JsBigInt _ => "bigint"
  | JsString _ => "string"
  | JsSymbol _ => "symbol"
  | JsDate _ | JsArray _ | JsObject _ | JsDateLike _ => "object"
  end.

(** ToBoolean *)
Definition truthy (v : JsValue) : bool :=
  match v with
  | JsUndefined | JsNull => false
  | JsBoolean b => b
  | JsNum NaN => false
  | JsNum (Finite q) => negb (Qnum q =? 0)
  | JsNum _ => true
  | JsBigInt z => negb (z =? 0)
  | JsString s => negb (s =? EmptyString)%string
  | JsSymbol _ | JsDate _ | JsArray _ | JsObject _ | JsDateLike _ => true
  end.

(** [v instanceof Date]: [Date.prototype] is on the prototype chain. *)
Definition instanceofDate (v : JsValue) : bool :=
  match v with JsDate _ | JsDateLike _ => true | _ => false end.

(** Receivers. A string method, a [Date] method or a numeric builtin
    applied to a value of another type raises in the model. A [Date]
    method raises a [TypeError] on a receiver that is not a [Date], also
    when the receiver inherits the method. *)
Definition asString (v : JsValue) : Completion string :=
  match v with
  | JsString s => Returned s
  | _ => Thrown (TypeError "not a string")
  end.

Definition asNumber (v : JsValue) : Completion JsNumber :=
  match v with
  | JsNum n => Returned n
  | _ => Thrown (TypeError "not a number")
  end.

Definition asDate (v : JsValue) : Completion Date :=
  match v with
  | JsDate d => Returned d
  | JsDateLike _ => Thrown (TypeError "this is not a Date object.")
  | _ => Thrown (TypeError "not a Date")
  end.

(** ** Strings *)

Definition charCode (c : ascii) : N := N_of_ascii c.

(** WhiteSpace and LineTerminator code points below 256: TAB, LF, VT, FF,
    CR, SP and NBSP. *)
Definition isWhiteSpace (c : ascii) : bool :=
  let n := charCode c in
  ((9 <=? n) && (n <=? 13) || (n =? 32) || (n =? 160))%N.

Fixpoint trimStart (s : string) : string :=
  match s with
  | EmptyString => EmptyString
  | String c s' => if isWhiteSpace c then trimStart s' else s
  end.

Fixpoint trimEnd (s : string) : string :=
  match s with
  | EmptyString => EmptyString
  | String c s' =>
      match trimEnd s' with
      | EmptyString => if isWhiteSpace c then EmptyString
                       else String c EmptyString
      | t => String c t
      end
  end.

(** [s.trim()] *)
Definition trim (s : string) : string := trimEnd (trimStart s).

Definition toLowerChar (c : ascii) : ascii :=
  let n := charCode c in
  if ((65 <=? n) && (n <=? 90)
      || (192 <=? n) && (n <=? 222) && negb (n =? 215))%N
  then ascii_of_N (n + 32) else c.

(** [s.toLowerCase()] *)
Fixpoint toLowerCase (s : string) : string :=
  match s with
  | EmptyString => EmptyString
  | String c s' => String (toLowerChar c) (toLowerCase s')
  end.

(** [s.startsWith(p)] *)
Definition startsWith (s p : string) : bool := prefix p s.

(** [s.includes(t)] *)
Fixpoint includes (s t : string) : bool :=
  prefix t s ||
  match s with
  | EmptyString => false
  | String _ s' => includes s' t
  end.

Fixpoint filterChars (p : ascii -> bool) (s : string) : list ascii :=
  match s with
  | EmptyString => []
  | String c s' => if p c then c :: filterChars p s' else filterChars p s'
  end.

Fixpoint allChars (p : ascii -> bool) (s : string) : bool :=
  match s with
  | EmptyString => true
  | String c s' => p c && allChars p s'
  end.

(** The quotation mark, for error messages that quote their input. *)
Definition dq : string := String (ascii_of_N 34) EmptyString.

(** ** Number to string, string to number *)

Definition isDigit (c : ascii) : bool :=
  ((48 <=? charCode c) && (charCode c <=? 57))%N.

Definition digitChar (d : Z) : ascii := ascii_of_N (48 + Z.to_N d).

Definition digitValue (c : ascii) : Z := Z.of_N (charCode c) - 48.

Fixpoint digitsOf (fuel : nat) (n : Z) (acc : string) : string :=
  match fuel with
  | O => acc
  | S f =>
      let acc' := String (digitChar (n mod 10)) acc in
      if n <? 10 then acc' else digitsOf f (n / 10) acc'
  end.

(** The decimal digits of an integer that is not negative. *)
Definition decimal (n : Z) : string :=
  digitsOf (S (Z.to_nat (Z.log2 n))) n EmptyString.

(** The decimal with the fewest significant digits, [k] or more, that
    reads back as the double [v], an integer of [n] digits: of the two
    multiples of [10 ^ (n - k)] around [v], the nearer one that does, the
    even one of two equally near. *)
Fixpoint shortestDecimal (fuel : nat) (k n v : Z) : Z :=
  match fuel with
  | O => v
  | S f =>
      let u := 10 ^ (n - k) in
      let lo := v / u * u in
      let hi := lo + u in
      let okLo := sameNumber (toDouble lo) (num v) in
      let okHi := sameNumber (toDouble hi) (num v) in
      if okLo && okHi then
        if v - lo <? hi - v then lo
        else if hi - v <? v - lo then hi
        else if Z.even (lo / u) then lo else hi
      else if okLo then lo
      else if okHi then hi
      else shortestDecimal f (k + 1) n v
  end.

(** An integer without its trailing zeros. *)
Fixpoint dropZeros (fuel : nat) (n : Z) : Z :=
  match fuel with
  | O => n
  | S f => if n mod 10 =? 0 then dropZeros f (n / 10) else n
  end.

(** Number::toString of a double that is an integer and not negative:
    its digits up to [maxSafeInteger]; above, the shortest decimal that
    reads back as it, written out up to 21 digits and with an exponent
    beyond. *)
Definition integerToString (v : Z) : string :=
  if v <=? maxSafeInteger then decimal v
  else
    let n := Z.of_nat (String.length (decimal v)) in
    let w := shortestDecimal (Z.to_nat n) 1 n v in
    let digits := decimal w in
    let n := Z.of_nat (String.length digits) in
    if n <=? 21 then digits
    else
      match decimal (dropZeros (String.length digits) w) with
      | String c EmptyString => String c ("e+" ++ decimal (n - 1))
      | String c s => String c ("." ++ s ++ "e+" ++ decimal (n - 1))
      | EmptyString => EmptyString
      end.

(** Number::toString of the number that an integer is as a double, with
    a minus sign below zero. *)
Definition numberToString (z : Z) : string :=
  match toDouble (Z.abs z) with
  | Finite q =>
      if z <? 0 then String "-" (integerToString (Qnum q))
      else integerToString (Qnum q)
  | _ => if z <? 0 then "-Infinity" else "Infinity"
  end.

Fixpoint parseDigits (acc : Z) (s : string) : Z :=
  match s with
  | EmptyString => acc
  | String c s' => parseDigits (acc * 10 + digitValue c) s'
  end.

Fixpoint takeDigits (s : string) : string :=
  match s with
  | EmptyString => EmptyString
  | String c s' => if isDigit c then String c (takeDigits s') else EmptyString
  end.

(** [parseInt(s, 10)]: leading white space, an optional sign, then the
    longest run of decimal digits, read as an integer and rounded to a
    double; NaN when there is no digit. Beyond 20 significant digits a
    runtime may round the digits before it rounds to a double; the model
    rounds once. *)
Definition parseInt10 (s : string) : JsNumber :=
  let t := trimStart s in
  let '(neg, body) :=
    match t with
    | String c r =>
        if (c =? "-")%char then (true, r)
        else if (c =? "+")%char then (false, r)
        else (false, t)
    | EmptyString => (false, t)
    end in
  match takeDigits body with
  | EmptyString => NaN
  | ds => toDouble (if neg then - parseDigits 0 ds else parseDigits 0 ds)
  end.

(** ** Regular expressions *)

(** A character class is a list of ranges [lo-hi]. *)
Definition CharSet : Type := list (ascii * ascii).

Inductive Regex : Type :=
| Void
| Epsilon
| Class (cs : CharSet)
| Seq (r1 r2 : Regex)
| Alt (r1 r2 : Regex)
| Star (r : Regex).

(** [r+] *)
Definition Plus (r : Regex) : Regex := Seq r (Star r).

Definition Char (c : ascii) : Regex := Class [(c, c)].

(** A literal word. *)
Fixpoint Lit (s : string) : Regex :=
  match s with
  | EmptyString => Epsilon
  | String c s' => Seq (Char c) (Lit s')
  end.

Definition inRange (c : ascii) (r : ascii * ascii) : bool :=
  ((charCode (fst r) <=? charCode c) && (charCode c <=? charCode (snd r)))%N.

Definition inSet (cs : CharSet) (c : ascii) : bool := existsb (inRange c) cs.

(** Canonicalize of a pattern without the [u] flag: the upper-case form
    when it is a single code unit, and never an ASCII form of a character
    that is not ASCII. The upper-case forms of U+00B5 and U+00FF lie above
    255 and belong to no other character of the model: they stay put. *)
Definition Canonicalize (c : ascii) : ascii :=
  let n := charCode c in
  if ((97 <=? n) && (n <=? 122)
      || (224 <=? n) && (n <=? 254) && negb (n =? 247))%N
  then ascii_of_N (n - 32) else c.

Definition everyChar : list ascii := map ascii_of_nat (seq 0 256).

(** Does class [cs] accept [c]? With [ignoreCase], when some member of the
    class has the canonical form of [c]. *)
Definition classAccepts (ignoreCase : bool) (cs : CharSet) (c : ascii) : bool :=
  if ignoreCase
  then existsb (fun a => inSet cs a && (Canonicalize a =? Canonicalize c)%char)
               everyChar
  else inSet cs c.

Fixpoint nullable (r : Regex) : bool :=
  match r with
  | Void => false
  | Epsilon => true
  | Class _ => false
  | Seq r1 r2 => nullable r1 && nullable r2
  | Alt r1 r2 => nullable r1 || nullable r2
  | Star _ => true
  end.

(** The derivative of [r] by the character [c]. *)
Fixpoint deriv (i : bool) (c : ascii) (r : Regex) : Regex :=
  match r with
  | Void => Void
  | Epsilon => Void
  | Class cs => if classAccepts i cs c then Epsilon else Void
  | Seq r1 r2 =>
      if nullable r1
      then Alt (Seq (deriv i c r1) r2) (deriv i c r2)
      else Seq (deriv i c r1) r2
  | Alt r1 r2 => Alt (deriv i c r1) (deriv i c r2)
  | Star r1 => Seq (deriv i c r1) (Star r1)
  end.

(** Whole-string match. *)
Fixpoint matches (i : bool) (r : Regex) (s : string) : bool :=
  match s with
  | EmptyString => nullable r
  | String c s' => matches i (deriv i c r) s'
  end.

(** A pattern [/^body$/] or [/^body$/i]. Every tested pattern of the source
    is anchored at both ends and has no [m] flag, so [$] is the end of the
    input and a test is a whole-string match. *)
Record RegExp : Type := mkRegExp { body : Regex; ignoreCase : bool }.

(** [re.test(s)] *)
Definition RegExp_test (re : RegExp) (s : string) : bool :=
  matches (ignoreCase re) (body re) s.

(** The language of a pattern. *)
Inductive Lang (i : bool) : Regex -> string -> Prop :=
| LEpsilon : Lang i Epsilon EmptyString
| LClass cs c : classAccepts i cs c = true ->
    Lang i (Class cs) (String c EmptyString)
| LSeq r1 r2 s1 s2 : Lang i r1 s1 -> Lang i r2 s2 -> Lang i (Seq r1 r2) (s1 ++ s2)
| LAltL r1 r2 s : Lang i r1 s -> Lang i (Alt r1 r2) s
| LAltR r1 r2 s : Lang i r2 s -> Lang i (Alt r1 r2) s
| LStarNil r : Lang i (Star r) EmptyString
| LStarApp r s1 s2 : Lang i r s1 -> Lang i (Star r) s2 -> Lang i (Star r) (s1 ++ s2).

(** The ways to cut [s] in two, the longest first part first. *)
Fixpoint splits (s : string) : list (string * string) :=
  match s with
  | EmptyString => [(EmptyString, EmptyString)]
  | String c s' =>
      map (fun p => (String c (fst p), snd p)) (splits s') ++ [(EmptyString, s)]
  end.

(** [s.match(/^(g1)(g2)$/)] for a first group that is a greedy repetition:
    [None] is [null]; otherwise the two captures, the first one as long as
    the match allows. *)
Definition matchGroups2 (i : bool) (g1 g2 : Regex) (s : string)
  : option (string * string) :=
  find (fun p => matches i g1 (fst p) && matches i g2 (snd p)) (splits s).

(** [(s.match(/c/g) || []).length] for a one-character pattern. *)
Definition matchAllChar (c : ascii) (s : string) : option (list ascii) :=
  match filterChars (Ascii.eqb c) s with
  | [] => None
  | l => Some l
  end.

Definition orEmpty (m : option (list ascii)) : list ascii :=
  match m with Some l => l | None => [] end.

(** ** Calendar: [Date.prototype.toISOString] *)

Definition msPerDay : Z := 86400000.

(** Year, month and day of a day number counted from 1970-01-01
    (proleptic Gregorian calendar). *)
Definition civilFromDays (days : Z) : Z * Z * Z :=
  let z := days + 719468 in
  let era := z / 146097 in
  let doe := z - era * 146097 in
  let yoe := (doe - doe / 1460 + doe / 36524 - doe / 146096) / 365 in
  let doy := doe - (365 * yoe + yoe / 4 - yoe / 100) in
  let mp := (5 * doy + 2) / 153 in
  let d := doy - (153 * mp + 2) / 5 + 1 in
  let m := if mp <? 10 then mp + 3 else mp - 9 in
  let y := yoe + era * 400 in
  (if m <=? 2 then y + 1 else y, m, d).

(** The day number of a calendar date. *)
Definition daysFromCivil (y m d : Z) : Z :=
  let y' := if m <=? 2 then y - 1 else y in
  let era := y' / 400 in
  let yoe := y' - era * 400 in
  let mp := if m >? 2 then m - 3 else m + 9 in
  let doy := (153 * mp + 2) / 5 + d - 1 in
  let doe := yoe * 365 + yoe / 4 - yoe / 100 + doy in
  era * 146097 + doe - 719468.

Fixpoint padZeros (fuel width : nat) (s : string) : string :=
  match fuel with
  | O => s
  | S f =>
      if (String.length s <? width)%nat then padZeros f width (String "0" s)
      else s
  end.

(** [s.padStart(width, '0')] *)
Definition padStart (width : nat) (s : string) : string :=
  padZeros width width s.

Definition isoYear (y : Z) : string :=
  if (0 <=? y) && (y <=? 9999) then padStart 4 (numberToString y)
  else if y <? 0 then String "-" (padStart 6 (numberToString (- y)))
  else String "+" (padStart 6 (numberToString y)).

(** The ISO-8601 rendering of a time value: [YYYY-MM-DDTHH:mm:ss.sssZ]. *)
Definition isoString (t : Z) : string :=
  let '(y, m, d) := civilFromDays (t / msPerDay) in
  let r := t mod msPerDay in
  isoYear y ++ "-" ++ padStart 2 (numberToString m)
    ++ "-" ++ padStart 2 (numberToString d)
    ++ "T" ++ padStart 2 (numberToString (r / 3600000))
    ++ ":" ++ padStart 2 (numberToString (r / 60000 mod 60))
    ++ ":" ++ padStart 2 (numberToString (r / 1000 mod 60))
    ++ "." ++ padStart 3 (numberToString (r mod 1000)) ++ "Z".

(** [d.toISOString()]: a RangeError on an invalid date. *)
Definition toISOString (d : Date) : Completion string :=
  match d with
  | InvalidDate => Thrown (RangeError "Invalid time value")
  | ValidDate t => Returned (isoString t)
  end.

(** ** Objects as property lists

    A row is the list of its entries in the order of [Object.entries]; the
    model keeps the order in which properties are added and gives
    integer-like keys no precedence. *)

Definition Row : Type := list (string * JsValue).

Fixpoint getProp (k : string) (o : Row) : option JsValue :=
  match o with
  | [] => None
  | (k', v) :: o' => if (k' =? k)%string then Some v else getProp k o'
  end.

(** An own property is overwritten in place, or added at the end. *)
Fixpoint defineProp (k : string) (v : JsValue) (o : Row) : Row :=
  match o with
  | [] => [(k, v)]
  | (k', v') :: o' =>
      if (k' =? k)%string then (k, v) :: o' else (k', v') :: defineProp k v o'
  end.

(** [o[k] = v] on an object made by an object literal. The key
    [__proto__] names the accessor of [Object.prototype]: the assignment
    calls its setter and makes no property of the object. Every other key
    is not on the prototype chain or is a writable data property there,
    and becomes a property of the object. *)
Definition setProp (k : string) (v : JsValue) (o : Row) : Row :=
  if (k =? "__proto__")%string then o else defineProp k v o.

(** The keys of an object are distinct. *)
Definition wfRow (o : Row) : Prop := NoDup (map fst o).

(** A loop body or callback that can raise, run over a list from left to
    right. *)
Fixpoint foldM {A B : Type} (f : B -> A -> Completion B) (l : list A) (b : B)
  : Completion B :=
  match l with
  | [] => Returned b
  | a :: l' => b' <- f b a ;; foldM f l' b'
  end.

Fixpoint mapM {A B : Type} (f : A -> Completion B) (l : list A)
  : Completion (list B) :=
  match l with
  | [] => Returned []
  | a :: l' => b <- f a ;; bs <- mapM f l' ;; Returned (b :: bs)
  end.

(** ** Result and option records (types.ts) *)

Record IValidationResult : Type := mkValidationResult {
  valid : bool;
  error : option string
}.

Inductive TimestampFormat : Type := iso | unix | relative.

Record IFormatOptions : Type := mkFormatOptions {
  timestampFormat : option TimestampFormat;
  flattenTables : option bool;
  limit : option Z
}.

Definition failWith (msg : string) : IValidationResult :=
  {| valid := false; error := Some msg |}.

Definition pass : IValidationResult := {| valid := true; error := None |}.

(** The invariant of a validation result: an error exactly on failure, and
    then a non-empty one. *)
Definition wfResult (r : IValidationResult) : Prop :=
  (valid r = true -> error r = None) /\
  (valid r = false -> exists e, error r = Some e /\ e <> EmptyString).

(** ** The classes shared by the retention patterns *)

(** [\d] *)
Definition digit : Regex := Class [("0", "9")]%char.

(** [[dhms]] *)
Definition unitChars : CharSet :=
  [("d", "d"); ("h", "h"); ("m", "m"); ("s", "s")]%char.

(** ** InfluxDbValidator *)

Module InfluxDbValidator.

(** [[a-zA-Z0-9_-]] *)
Definition nameChars : CharSet :=
  [("a", "z"); ("A", "Z"); ("0", "9"); ("_", "_"); ("-", "-")]%char.

(** [/^[a-zA-Z0-9_-]+$/] *)
Definition MEASUREMENT_NAME_REGEX : RegExp := mkRegExp (Plus (Class nameChars)) false.
Definition KEY_NAME_REGEX : RegExp := mkRegExp (Plus (Class nameChars)) false.
Definition BUCKET_NAME_REGEX : RegExp := mkRegExp (Plus (Class nameChars)) false.

(** [/^(\d+[dhms]|infinite)$/i] *)
Definition RETENTION_PERIOD_REGEX : RegExp :=
  mkRegExp (Alt (Seq (Plus digit) (Class unitChars)) (Lit "infinite")) true.

Definition onlyNameChars : string :=
  ". Must contain only alphanumeric characters, hyphens, and underscores.".

Definition validateMeasurementName (name : JsValue)
  : Completion IValidationResult :=
  if negb (truthy name) || negb (typeof name =? "string")%string then
    Returned (failWith "Measurement name is required and must be a string")
  else
    s <- asString name ;;
    if negb (RegExp_test MEASUREMENT_NAME_REGEX s) then
      Returned (failWith
        ("Invalid measurement name " ++ dq ++ s ++ dq ++ onlyNameChars))
    else Returned pass.

Definition validateKeyName (key : JsValue) : Completion IValidationResult :=
  if negb (truthy key) || negb (typeof key =? "string")%string then
    Returned (failWith "Key name is required and must be a string")
  else
    s <- asString key ;;
    if startsWith s "_" then
      Returned (failWith
        ("Key " ++ dq ++ s ++ dq
         ++ " cannot start with underscore (reserved for system use)"))
    else if negb (RegExp_test KEY_NAME_REGEX s) then
      Returned (failWith ("Invalid key name " ++ dq ++ s ++ dq ++ onlyNameChars))
    else Returned pass.

Definition validateBucketName (name : JsValue) : Completion IValidationResult :=
  if negb (truthy name) || negb (typeof name =? "string")%string then
    Returned (failWith "Bucket name is required and must be a string")
  else
    s <- asString name ;;
    if (255 <? String.length s)%nat then
      Returned (failWith "Bucket name must be 255 characters or less")
    else if negb (RegExp_test BUCKET_NAME_REGEX s) then
      Returned (failWith
        ("Invalid bucket name " ++ dq ++ s ++ dq ++ onlyNameChars))
    else Returned pass.

Definition formatLike : string :=
  dq ++ "30d" ++ dq ++ ", " ++ dq ++ "1y" ++ dq ++ ", " ++ dq ++ "12h" ++ dq
     ++ ", or " ++ dq ++ "infinite" ++ dq ++ ".".

Definition validateRetentionPeriod (period : JsValue)
  : Completion IValidationResult :=
  if negb (truthy period) || negb (typeof period =? "string")%string then
    Returned (failWith "Retention period is required and must be a string")
  else
    s <- asString period ;;
    if negb (RegExp_test RETENTION_PERIOD_REGEX s) then
      Returned (failWith
        ("Invalid retention period " ++ dq ++ s ++ dq
         ++ ". Must be in format like " ++ formatLike))
    else Returned pass.

Definition validateFluxQuery (query : JsValue) : Completion IValidationResult :=
  if negb (truthy query) || negb (typeof query =? "string")%string then
    Returned (failWith "Flux query is required and must be a string")
  else
    q <- asString query ;;
    let trimmedQuery := trim q in
    if (String.length trimmedQuery =? 0)%nat then
      Returned (failWith "Flux query cannot be empty")
    else
      let openParens := List.length (orEmpty (matchAllChar "(" trimmedQuery)) in
      let closeParens := List.length (orEmpty (matchAllChar ")" trimmedQuery)) in
      if negb (openParens =? closeParens)%nat then
        Returned (failWith "Unbalanced parentheses in Flux query")
      else
        let openBrackets :=
          List.length (orEmpty (matchAllChar "[" trimmedQuery)) in
        let closeBrackets :=
          List.length (orEmpty (matchAllChar "]" trimmedQuery)) in
        if negb (openBrackets =? closeBrackets)%nat then
          Returned (failWith "Unbalanced brackets in Flux query")
        else Returned pass.

Section Host.

(** [new Date(s)] for a string [s]. *)
Variable dateParse : string -> Date.

Definition validateTimestamp (timestamp : JsValue)
  : Completion IValidationResult :=
  if instanceofDate timestamp then
    d <- asDate timestamp ;;
    if isNaN (getTime d) then Returned (failWith "Invalid Date object")
    else Returned pass
  else if (typeof timestamp =? "number")%string then
    n <- asNumber timestamp ;;
    if negb (isFinite n) || ltZero n then
      Returned (failWith "Timestamp must be a positive finite number")
    else Returned pass
  else if (typeof timestamp =? "string")%string then
    s <- asString timestamp ;;
    let parsed := dateParse s in
    if isNaN (getTime parsed) then
      Returned (failWith ("Invalid timestamp string " ++ dq ++ s ++ dq))
    else Returned pass
  else
    Returned (failWith "Timestamp must be a Date, number, or string").

End Host.

Definition validateFieldValue (value : JsValue) : Completion IValidationResult :=
  let valueType := typeof value in
  if negb (valueType =? "string")%string
     && negb (valueType =? "number")%string
     && negb (valueType =? "boolean")%string then
    Returned (failWith
      ("Invalid field value type " ++ dq ++ valueType ++ dq
       ++ ". Must be string, number, or boolean."))
  else
    notFinite <-
      (if (valueType =? "number")%string
       then n <- asNumber value ;; Returned (negb (isFinite n))
       else Returned false) ;;
    if notFinite then Returned (failWith "Numeric field values must be finite")
    else Returned pass.

End InfluxDbValidator.

Import InfluxDbValidator.

(** ** The API objects (influxdb-client-apis)

    An optional property is an [option]. The non-null assertion [x!] of
    the source checks nothing at run time, so an [id] the server left out
    stays absent. A retention rule carries a number of seconds: a number
    of the runtime in a request, a whole number in a response. *)

Record RetentionRule (N : Type) : Type := mkRetentionRule { everySeconds : N }.

Module Bucket.
Record t : Type := make {
  id : option string;
  name : string;
  orgID : option string;
  retentionRules : option (list (RetentionRule Z));
  description : option string;
  createdAt : option string;
  updatedAt : option string
}.
End Bucket.

Module Organization.
Record t : Type := make {
  id : option string;
  name : string;
  description : option string;
  createdAt : option string;
  updatedAt : option string
}.
End Organization.

(** [x ?? d] *)
Definition orElse {A : Type} (x : option A) (d : A) : A :=
  match x with Some a => a | None => d end.

(** An optional string as a value: the string, or [undefined]. *)
Definition orUndefined (x : option string) : JsValue :=
  match x with Some s => JsString s | None => JsUndefined end.

(** [n > 0] *)
Definition gtZero (n : JsNumber) : bool :=
  match n with
  | PosInfinity => true
  | Finite q => 0 <? Qnum q
  | _ => false
  end.

(** ** InfluxDbFormatter *)

Module InfluxDbFormatter.

Definition plural (n : Z) : string := if n >? 1 then "s" else EmptyString.

(** [getRelativeTime(date)], with the reading [now] of the clock. On an
    invalid date every difference is NaN, every comparison is false and
    the last [return] is reached. [Math.floor] of a quotient is [Z.div]. *)
Definition getRelativeTime (now : Z) (date : Date) : string :=
  match date with
  | InvalidDate => "just now"
  | ValidDate t =>
      let diffMs := now - t in
      let diffSec := diffMs / 1000 in
      let diffMin := diffSec / 60 in
      let diffHour := diffMin / 60 in
      let diffDay := diffHour / 24 in
      if diffMs <? 0 then
        let absDiffSec := Z.abs diffSec in
        let absDiffMin := Z.abs diffMin in
        let absDiffHour := Z.abs diffHour in
        let absDiffDay := Z.abs diffDay in
        if absDiffDay >? 0 then
          "in " ++ numberToString absDiffDay ++ " day" ++ plural absDiffDay
        else if absDiffHour >? 0 then
          "in " ++ numberToString absDiffHour ++ " hour" ++ plural absDiffHour
        else if absDiffMin >? 0 then
          "in " ++ numberToString absDiffMin ++ " minute" ++ plural absDiffMin
        else
          "in " ++ numberToString absDiffSec ++ " second" ++ plural absDiffSec
      else if diffDay >? 0 then
        numberToString diffDay ++ " day" ++ plural diffDay ++ " ago"
      else if diffHour >? 0 then
        numberToString diffHour ++ " hour" ++ plural diffHour ++ " ago"
      else if diffMin >? 0 then
        numberToString diffMin ++ " minute" ++ plural diffMin ++ " ago"
      else if diffSec >? 0 then
        numberToString diffSec ++ " second" ++ plural diffSec ++ " ago"
      else "just now"
  end.

(** [options?.timestampFormat ?? 'iso'] *)
Definition timestampFormatOf (options : option IFormatOptions)
  : TimestampFormat :=
  match options with
  | Some o => match timestampFormat o with Some f => f | None => iso end
  | None => iso
  end.

(** [options?.limit ?? 0]; 0 means no limit. *)
Definition limitOf (options : option IFormatOptions) : Z :=
  match options with
  | Some o => match limit o with Some n => n | None => 0 end
  | None => 0
  end.

Section Formatter.

Variable dateParse : string -> Date.

(** [formatTimestamp(timestamp, format)]. The [default] arm of the switch
    is unreachable at the three formats of the type. *)
Definition formatTimestamp (now : Z) (timestamp : JsValue)
  (format : TimestampFormat) : Completion JsValue :=
  let date :=
    match timestamp with
    | JsString s => JsDate (dateParse s)
    | _ => timestamp
    end in
  match format with
  | iso => d <- asDate date ;; s <- toISOString d ;; Returned (JsString s)
  | unix => d <- asDate date ;; Returned (JsNum (getTime d))
  | relative => d <- asDate date ;; Returned (JsString (getRelativeTime now d))
  end.

(** The body of the loop over [Object.entries(row)]. *)
Definition formatEntry (now : Z) (timestampFormat : TimestampFormat)
  (formattedRow : Row) (entry : string * JsValue) : Completion Row :=
  let '(key, value) := entry in
  if (key =? "_time")%string && truthy value then
    formatted <- formatTimestamp now value timestampFormat ;;
    Returned (setProp "_time"
                (match formatted with
                 | JsNum n => JsDate (newDate n)
                 | _ => formatted
                 end) formattedRow)
  else if (key =? "_measurement")%string || (key =? "_field")%string then
    Returned (setProp key value formattedRow)
  else if (key =? "_value")%string then
    Returned (setProp key value formattedRow)
  else if negb (key =? "table")%string && negb (key =? "result")%string then
    Returned (setProp key value formattedRow)
  else Returned formattedRow.

(** The callback of [results.map]. *)
Definition formatRow (now : Z) (timestampFormat : TimestampFormat) (row : Row)
  : Completion Row :=
  foldM (formatEntry now timestampFormat) row [].

(** [a.slice(0, n)] for an integer [n > 0]. *)
Definition sliceTo {A : Type} (n : Z) (a : list A) : list A :=
  firstn (Z.to_nat n) a.

Definition formatFluxResults (now : Z) (results : list Row)
  (options : option IFormatOptions) : Completion (list Row) :=
  let timestampFormat := timestampFormatOf options in
  let limit := limitOf options in
  formattedRows <- mapM (formatRow now timestampFormat) results ;;
  if limit >? 0 then Returned (sliceTo limit formattedRows)
  else Returned formattedRows.

End Formatter.

Definition multipliers : list (string * JsNumber) :=
  [("s", num 1); ("m", num 60); ("h", num 3600); ("d", num 86400)].

(** [multipliers[unit]] as a factor: an absent key is [undefined], NaN as a
    number. *)
Fixpoint lookupFactor (table : list (string * JsNumber)) (unit : string)
  : JsNumber :=
  match table with
  | [] => NaN
  | (k, n) :: table' => if (k =? unit)%string then n else lookupFactor table' unit
  end.

(** [parseRetentionPeriod(period)]; the pattern is [/^(\d+)([dhms])$/]. *)
Definition parseRetentionPeriod (period : string) : Completion JsNumber :=
  let trimmed := toLowerCase (trim period) in
  if (trimmed =? "infinite")%string then Returned (num 0)
  else
    match matchGroups2 false (Plus digit) (Class unitChars) trimmed with
    | None =>
        Thrown (Error ("Invalid retention period format: " ++ dq ++ period ++ dq
                       ++ ". Must be like " ++ formatLike))
    | Some (g1, g2) =>
        let value := parseInt10 g1 in
        let unit := g2 in
        Returned (mulNumber value (lookupFactor multipliers unit))
    end.

(** [formatRetentionPeriod(seconds)] for an integer number of seconds;
    [%] is the remainder of the truncated division. *)
Definition formatRetentionPeriod (seconds : Z) : string :=
  if seconds =? 0 then "infinite"
  else if Z.rem seconds 86400 =? 0 then
    numberToString (Z.quot seconds 86400) ++ "d"
  else if Z.rem seconds 3600 =? 0 then
    numberToString (Z.quot seconds 3600) ++ "h"
  else if Z.rem seconds 60 =? 0 then
    numberToString (Z.quot seconds 60) ++ "m"
  else numberToString seconds ++ "s".

(** [bucket.retentionRules?.[0]?.everySeconds ?? 0] *)
Definition firstRuleSeconds (bucket : Bucket.t) : Z :=
  match Bucket.retentionRules bucket with
  | Some (rule :: _) => everySeconds rule
  | _ => 0
  end.

Definition formatBucketInfo (bucket : Bucket.t) : Row :=
  let retentionSeconds := firstRuleSeconds bucket in
  let retention := formatRetentionPeriod retentionSeconds in
  [("id", orUndefined (Bucket.id bucket));
   ("name", JsString (Bucket.name bucket));
   ("organizationId", orUndefined (Bucket.orgID bucket));
   ("retention", JsString retention);
   ("description", JsString (orElse (Bucket.description bucket) EmptyString));
   ("createdAt", JsString (orElse (Bucket.createdAt bucket) EmptyString));
   ("updatedAt", JsString (orElse (Bucket.updatedAt bucket) EmptyString))].

Definition formatOrganizationInfo (org : Organization.t) : Row :=
  [("id", orUndefined (Organization.id org));
   ("name", JsString (Organization.name org));
   ("description",
    JsString (orElse (Organization.description org) EmptyString));
   ("createdAt", JsString (orElse (Organization.createdAt org) EmptyString));
   ("updatedAt", JsString (orElse (Organization.updatedAt org) EmptyString))].

End InfluxDbFormatter.

Import InfluxDbFormatter.

(** ** Credentials (helpers/client) *)

Record IInfluxDbCredentials : Type := mkCredentials {
  url : string;
  token : string;
  organization : string;
  defaultBucket : option string;
  timeout : option Z
}.

Definition getOrganization (credentials : IInfluxDbCredentials) : string :=
  organization credentials.

Definition getDefaultBucket (credentials : IInfluxDbCredentials)
  : option string :=
  defaultBucket credentials.

(** ** The operations

    An operation is a program that calls the client library and continues
    with what the call gives: a result, or an error that the call or its
    [await] raises. The parameters of the node are read before anything
    else and have their declared types, so they are the arguments of an
    operation; the node itself is left out of [NodeOperationError].
    Creating a handle ([new BucketsAPI(client)], [client.getQueryApi(org)],
    [client.getWriteApi(...)]) sends nothing and is taken to give the
    handle: the arguments of a handle are carried by the calls made
    through it, and a run in which the creation itself raises, before the
    [try] of an operation, is not a run of the model. The construction of
    a [Point] and the calls that add to it are calls of the library like
    the others: the library checks a field value as it is added and
    raises on one it refuses. *)

Module Operations.

(** [new NodeOperationError(node, message, { itemIndex })] is known by
    the message and the index it is made with. *)
Inductive Exception : Type :=
| Js (e : JsError)
| NodeOperationError (message : string) (itemIndex : Z).

(** [error instanceof Error ? error.message : String(error)]: every
    exception here is an [Error]. The [try] blocks whose [catch] reads a
    message this way make no [NodeOperationError]; the one that does, in
    [executeWriteBatch], is read by [caughtMessage]. *)
Definition messageOf (e : Exception) : string :=
  match e with
  | Js (TypeError msg) | Js (RangeError msg) | Js (Error msg) => msg
  | NodeOperationError msg _ => msg
  end.

(** [Number.isInteger(n)] *)
Definition isInteger (n : JsNumber) : bool :=
  match n with
  | Finite q => Z.rem (Qnum q) (Zpos (Qden q)) =? 0
  | _ => false
  end.

(** The handle [client.getWriteApi(org, bucket, precision, { batchSize })]. *)
Record WriteApi : Type := getWriteApi {
  writeOrg : string;
  writeBucket : string;
  writePrecision : string;
  writeOptions : option Z
}.

(** A [Point] of the client library, known by the identity its
    constructor gave it. *)
Inductive Point : Type := pointRef (identity : nat).

(** A row of a query result as the client hands it to [next]: the values,
    and the labels of the columns of its table. *)
Definition QueryRow : Type := (list string * list string)%type.

(** The calls into the client library, with the properties of the request
    object as arguments. *)
Inductive Request : Type :=
| getOrgs (org : string)
| getBuckets (name : option string) (orgID : option string)
| postBuckets (name : string) (orgID : option string) (description : string)
    (retentionRules : list (RetentionRule JsNumber))
| patchBucketsID (bucketID : option string) (description : option string)
    (retentionRules : option (list (RetentionRule JsNumber)))
| deleteBucketsID (bucketID : option string)
| postDelete (org bucket start stop : string) (predicate : option string)
| postOrgs (name description : string)
| patchOrgsID (orgID : option string) (name description : option string)
| deleteOrgsID (orgID : option string)
| queryRows (org query : string)
| newPoint (measurement : string)
| tag (point : Point) (key : string) (value : JsValue)
| intField (point : Point) (key : string) (value : JsNumber)
| floatField (point : Point) (key : string) (value : JsNumber)
| stringField (point : Point) (key : string) (value : string)
| booleanField (point : Point) (key : string) (value : bool)
| timestamp (point : Point) (value : JsValue)
| writePoint (api : WriteApi) (point : Point)
| writeRecord (api : WriteApi) (record : string)
| close (api : WriteApi).

Definition Response (r : Request) : Type :=
  match r with
  | getOrgs _ => option (list Organization.t)
  | getBuckets _ _ => option (list Bucket.t)
  | postBuckets _ _ _ _ => Bucket.t
  | patchBucketsID _ _ _ => Bucket.t
  | deleteBucketsID _ => unit
  | postDelete _ _ _ _ _ => unit
  | postOrgs _ _ => Organization.t
  | patchOrgsID _ _ _ => Organization.t
  | deleteOrgsID _ => unit
  | queryRows _ _ => list QueryRow
  | newPoint _ => Point
  | tag _ _ _ => unit
  | intField _ _ _ => unit
  | floatField _ _ _ => unit
  | stringField _ _ _ => unit
  | booleanField _ _ _ => unit
  | timestamp _ _ => unit
  | writePoint _ _ => unit
  | writeRecord _ _ => unit
  | close _ => unit
  end.

Inductive Program (A : Type) : Type :=
| Return (a : A)
| Throw (e : Exception)
| Await (r : Request) (k : Completion (Response r) -> Program A).

Arguments Return {A} a.
Arguments Throw {A} e.
Arguments Await {A} r k.

Fixpoint bindP {A B : Type} (p : Program A) (f : A -> Program B)
  : Program B :=
  match p with
  | Return a => f a
  | Throw e => Throw e
  | Await r k => Await r (fun x => bindP (k x) f)
  end.

Notation "x <-- p ;; k" := (bindP p (fun x => k))
  (at level 61, p at next level, right associativity).

(** [await api.call(request)] *)
Definition await (r : Request) : Program (Response r) :=
  Await r (fun x =>
    match x with
    | Returned a => Return a
    | Thrown e => Throw (Js e)
    end).

(** A call of the validation and formatting layer. *)
Definition lift {A : Type} (c : Completion A) : Program A :=
  match c with
  | Returned a => Return a
  | Thrown e => Throw (Js e)
  end.

(** [try { p } catch (error) { h }] *)
Fixpoint tryCatch {A : Type} (p : Program A) (h : Exception -> Program A)
  : Program A :=
  match p with
  | Return a => Return a
  | Throw e => h e
  | Await r k => Await r (fun x => tryCatch (k x) h)
  end.

Record INodeExecutionData : Type := mkItem {
  json : Row;
  pairedItem : Z
}.

Definition notFound (what name : string) : Exception :=
  Js (Error (what ++ " " ++ dq ++ name ++ dq ++ " not found")).

(** [retentionSeconds > 0 ? [{ everySeconds: retentionSeconds }] : []] *)
Definition rulesOf (retentionSeconds : JsNumber)
  : list (RetentionRule JsNumber) :=
  if gtZero retentionSeconds then [mkRetentionRule retentionSeconds] else [].

Definition executeListBuckets (credentials : IInfluxDbCredentials)
  (itemIndex : Z) : Program (list INodeExecutionData) :=
  let orgName := getOrganization credentials in
  tryCatch
    (orgs <-- await (getOrgs orgName) ;;
     match orgs with
     | None | Some [] => Throw (notFound "Organization" orgName)
     | Some (org :: _) =>
         let orgID := Organization.id org in
         response <-- await (getBuckets None orgID) ;;
         match response with
         | None | Some [] =>
             Return [mkItem [("buckets", JsArray []); ("count", JsNum (num 0))]
                       itemIndex]
         | Some buckets =>
             let formattedBuckets :=
               map formatBucketInfo
                 (filter (fun bucket =>
                            match Bucket.id bucket with
                            | Some _ => true
                            | None => false
                            end) buckets) in
             Return (map (fun bucket => mkItem bucket itemIndex)
                       formattedBuckets)
         end
     end)
    (fun error =>
       Throw (NodeOperationError
                ("Failed to list buckets: " ++ messageOf error) itemIndex)).

Definition executeGetBucket (bucketName : string) (itemIndex : Z)
  : Program (list INodeExecutionData) :=
  bucketValidation <-- lift (validateBucketName (JsString bucketName)) ;;
  if negb (valid bucketValidation) then
    Throw (NodeOperationError
             (orElse (error bucketValidation) "Invalid bucket name") itemIndex)
  else
    tryCatch
      (response <-- await (getBuckets (Some bucketName) None) ;;
       match response with
       | None | Some [] => Throw (notFound "Bucket" bucketName)
       | Some (bucket :: _) =>
           let formattedBucket := formatBucketInfo bucket in
           Return [mkItem formattedBucket itemIndex]
       end)
      (fun error =>
         Throw (NodeOperationError
                  ("Failed to get bucket: " ++ messageOf error) itemIndex)).

Definition executeCreateBucket (credentials : IInfluxDbCredentials)
  (name retentionPeriod description : string) (itemIndex : Z)
  : Program (list INodeExecutionData) :=
  bucketValidation <-- lift (validateBucketName (JsString name)) ;;
  if negb (valid bucketValidation) then
    Throw (NodeOperationError
             (orElse (error bucketValidation) "Invalid bucket name") itemIndex)
  else
    retentionValidation <--
      lift (validateRetentionPeriod (JsString retentionPeriod)) ;;
    if negb (valid retentionValidation) then
      Throw (NodeOperationError
               (orElse (error retentionValidation) "Invalid retention period")
               itemIndex)
    else
      let orgName := getOrganization credentials in
      tryCatch
        (orgs <-- await (getOrgs orgName) ;;
         match orgs with
         | None | Some [] => Throw (notFound "Organization" orgName)
         | Some (org :: _) =>
             let orgID := Organization.id org in
             retentionSeconds <-- lift (parseRetentionPeriod retentionPeriod) ;;
             bucket <-- await (postBuckets name orgID description
                                 (rulesOf retentionSeconds)) ;;
             let formattedBucket := formatBucketInfo bucket in
             Return [mkItem (setProp "created" (JsBoolean true) formattedBucket)
                       itemIndex]
         end)
        (fun error =>
           Throw (NodeOperationError
                    ("Failed to create bucket: " ++ messageOf error)
                    itemIndex)).

Definition executeUpdateBucket (bucketName retentionPeriod description : string)
  (itemIndex : Z) : Program (list INodeExecutionData) :=
  bucketValidation <-- lift (validateBucketName (JsString bucketName)) ;;
  if negb (valid bucketValidation) then
    Throw (NodeOperationError
             (orElse (error bucketValidation) "Invalid bucket name") itemIndex)
  else
    _ <-- (if truthy (JsString retentionPeriod) then
             retentionValidation <--
               lift (validateRetentionPeriod (JsString retentionPeriod)) ;;
             if negb (valid retentionValidation) then
               Throw (NodeOperationError
                        (orElse (error retentionValidation)
                           "Invalid retention period") itemIndex)
             else Return tt
           else Return tt) ;;
    tryCatch
      (response <-- await (getBuckets (Some bucketName) None) ;;
       match response with
       | None | Some [] => Throw (notFound "Bucket" bucketName)
       | Some (existingBucket :: _) =>
           let bucketID := Bucket.id existingBucket in
           let updateDescription :=
             if truthy (JsString description) then Some description
             else None in
           updateRetentionRules <--
             (if truthy (JsString retentionPeriod) then
                retentionSeconds <--
                  lift (parseRetentionPeriod retentionPeriod) ;;
                Return (Some (rulesOf retentionSeconds))
              else Return None) ;;
           updatedBucket <--
             await (patchBucketsID bucketID updateDescription
                      updateRetentionRules) ;;
           let formattedBucket := formatBucketInfo updatedBucket in
           Return [mkItem (setProp "updated" (JsBoolean true) formattedBucket)
                     itemIndex]
       end)
      (fun error =>
         Throw (NodeOperationError
                  ("Failed to update bucket: " ++ messageOf error) itemIndex)).

Definition executeDeleteBucket (bucketName : string) (confirm : bool)
  (itemIndex : Z) : Program (list INodeExecutionData) :=
  if negb confirm then
    Throw (NodeOperationError
             ("Delete bucket operation requires confirmation. "
              ++ "Please check the confirm checkbox.") itemIndex)
  else
    bucketValidation <-- lift (validateBucketName (JsString bucketName)) ;;
    if negb (valid bucketValidation) then
      Throw (NodeOperationError
               (orElse (error bucketValidation) "Invalid bucket name")
               itemIndex)
    else
      tryCatch
        (response <-- await (getBuckets (Some bucketName) None) ;;
         match response with
         | None | Some [] => Throw (notFound "Bucket" bucketName)
         | Some (bucket :: _) =>
             let bucketID := Bucket.id bucket in
             _ <-- await (deleteBucketsID bucketID) ;;
             Return [mkItem [("success", JsBoolean true);
                             ("deleted", JsBoolean true);
                             ("bucketName", JsString bucketName);
                             ("bucketID", orUndefined bucketID)]
                       itemIndex]
         end)
        (fun error =>
           Throw (NodeOperationError
                    ("Failed to delete bucket: " ++ messageOf error)
                    itemIndex)).

Definition executeDeleteByPredicate (credentials : IInfluxDbCredentials)
  (bucket start stop predicate : string) (itemIndex : Z)
  : Program (list INodeExecutionData) :=
  bucketValidation <-- lift (validateBucketName (JsString bucket)) ;;
  if negb (valid bucketValidation) then
    Throw (NodeOperationError
             (orElse (error bucketValidation) "Invalid bucket name") itemIndex)
  else if negb (truthy (JsString start)) || negb (truthy (JsString stop)) then
    Throw (NodeOperationError "Both start and stop times are required"
             itemIndex)
  else if negb (truthy (JsString predicate))
          || negb (typeof (JsString predicate) =? "string")%string
          || (String.length (trim predicate) =? 0)%nat then
    Throw (NodeOperationError
             "Predicate is required and must be a non-empty string" itemIndex)
  else
    let org := getOrganization credentials in
    tryCatch
      (_ <-- await (postDelete org bucket start stop (Some predicate)) ;;
       Return [mkItem [("success", JsBoolean true);
                       ("bucket", JsString bucket);
                       ("start", JsString start);
                       ("stop", JsString stop);
                       ("predicate", JsString predicate)]
                 itemIndex])
      (fun error =>
         Throw (NodeOperationError
                  ("Failed to delete data from InfluxDB: " ++ messageOf error)
                  itemIndex)).

Definition executeDeleteAll (credentials : IInfluxDbCredentials)
  (bucket start stop : string) (confirm : bool) (itemIndex : Z)
  : Program (list INodeExecutionData) :=
  if negb confirm then
    Throw (NodeOperationError
             ("Delete all operation requires confirmation. "
              ++ "Please check the confirm checkbox.") itemIndex)
  else
    bucketValidation <-- lift (validateBucketName (JsString bucket)) ;;
    if negb (valid bucketValidation) then
      Throw (NodeOperationError
               (orElse (error bucketValidation) "Invalid bucket name")
               itemIndex)
    else if negb (truthy (JsString start)) || negb (truthy (JsString stop))
    then
      Throw (NodeOperationError "Both start and stop times are required"
               itemIndex)
    else
      let org := getOrganization credentials in
      tryCatch
        (_ <-- await (postDelete org bucket start stop None) ;;
         Return [mkItem [("success", JsBoolean true);
                         ("bucket", JsString bucket);
                         ("start", JsString start);
                         ("stop", JsString stop);
                         ("deletedAll", JsBoolean true)]
                   itemIndex])
        (fun error =>
           Throw (NodeOperationError
                    ("Failed to delete all data from InfluxDB: "
                     ++ messageOf error) itemIndex)).

(** *** The organization operations *)

Definition organizationRequired : string :=
  "Organization name is required and must be a string".

Definition executeGetOrganization (orgName : string) (itemIndex : Z)
  : Program (list INodeExecutionData) :=
  if negb (truthy (JsString orgName))
     || negb (typeof (JsString orgName) =? "string")%string then
    Throw (NodeOperationError organizationRequired itemIndex)
  else
    tryCatch
      (response <-- await (getOrgs orgName) ;;
       match response with
       | None | Some [] => Throw (notFound "Organization" orgName)
       | Some (org :: _) =>
           let formattedOrg := formatOrganizationInfo org in
           Return [mkItem formattedOrg itemIndex]
       end)
      (fun error =>
         Throw (NodeOperationError
                  ("Failed to get organization: " ++ messageOf error)
                  itemIndex)).

Definition executeCreateOrganization (name description : string)
  (itemIndex : Z) : Program (list INodeExecutionData) :=
  if negb (truthy (JsString name))
     || negb (typeof (JsString name) =? "string")%string then
    Throw (NodeOperationError organizationRequired itemIndex)
  else
    tryCatch
      (org <-- await (postOrgs name description) ;;
       let formattedOrg := formatOrganizationInfo org in
       Return [mkItem (setProp "created" (JsBoolean true) formattedOrg)
                 itemIndex])
      (fun error =>
         Throw (NodeOperationError
                  ("Failed to create organization: " ++ messageOf error)
                  itemIndex)).

Definition executeUpdateOrganization (orgName newName description : string)
  (itemIndex : Z) : Program (list INodeExecutionData) :=
  if negb (truthy (JsString orgName))
     || negb (typeof (JsString orgName) =? "string")%string then
    Throw (NodeOperationError organizationRequired itemIndex)
  else
    tryCatch
      (response <-- await (getOrgs orgName) ;;
       match response with
       | None | Some [] => Throw (notFound "Organization" orgName)
       | Some (existingOrg :: _) =>
           let orgID := Organization.id existingOrg in
           let updateName :=
             if truthy (JsString newName) then Some newName else None in
           let updateDescription :=
             if truthy (JsString description) then Some description
             else None in
           updatedOrg <--
             await (patchOrgsID orgID updateName updateDescription) ;;
           let formattedOrg := formatOrganizationInfo updatedOrg in
           Return [mkItem (setProp "updated" (JsBoolean true) formattedOrg)
                     itemIndex]
       end)
      (fun error =>
         Throw (NodeOperationError
                  ("Failed to update organization: " ++ messageOf error)
                  itemIndex)).

Definition executeDeleteOrganization (orgName : string) (confirm : bool)
  (itemIndex : Z) : Program (list INodeExecutionData) :=
  if negb confirm then
    Throw (NodeOperationError
             ("Delete organization operation requires confirmation. "
              ++ "Please check the confirm checkbox.") itemIndex)
  else if negb (truthy (JsString orgName))
          || negb (typeof (JsString orgName) =? "string")%string then
    Throw (NodeOperationError organizationRequired itemIndex)
  else
    tryCatch
      (response <-- await (getOrgs orgName) ;;
       match response with
       | None | Some [] => Throw (notFound "Organization" orgName)
       | Some (org :: _) =>
           let orgID := Organization.id org in
           _ <-- await (deleteOrgsID orgID) ;;
           Return [mkItem [("success", JsBoolean true);
                           ("deleted", JsBoolean true);
                           ("organizationName", JsString orgName);
                           ("organizationID", orUndefined orgID)]
                     itemIndex]
       end)
      (fun error =>
         Throw (NodeOperationError
                  ("Failed to delete organization: " ++ messageOf error)
                  itemIndex)).

(** *** The query operations *)

Definition nl : string := String (ascii_of_N 10) EmptyString.

(** The object a row becomes:
    [columns.forEach((col, index) => { rowObject[col.label] = row[index] })]. *)
Fixpoint rowObjectFrom (index : nat) (row columns : list string)
  (rowObject : Row) : Row :=
  match columns with
  | [] => rowObject
  | label :: columns' =>
      rowObjectFrom (S index) row columns'
        (setProp label (orUndefined (nth_error row index)) rowObject)
  end.

Definition rowObject (r : QueryRow) : Row :=
  rowObjectFrom 0 (fst r) (snd r) [].

(** [{ timestampFormat, limit: limit > 0 ? limit : undefined }] *)
Definition formatOptionsOf (timestampFormat : TimestampFormat) (limit : Z)
  : IFormatOptions :=
  mkFormatOptions (Some timestampFormat) None
    (if 0 <? limit then Some limit else None).

(** The query [executeSimpleQuery] builds. *)
Definition simpleQuery (bucket measurement start stop field : string)
  (limit : Z) : string :=
  let query := "from(bucket: " ++ dq ++ bucket ++ dq ++ ")" ++ nl in
  let query :=
    query ++ "  |> range(start: " ++ start ++ ", stop: " ++ stop ++ ")" ++ nl in
  let query :=
    query ++ "  |> filter(fn: (r) => r._measurement == " ++ dq ++ measurement
      ++ dq ++ ")" in
  let query :=
    if truthy (JsString field) then
      query ++ nl ++ "  |> filter(fn: (r) => r._field == " ++ dq ++ field
        ++ dq ++ ")"
    else query in
  let query :=
    if 0 <? limit then
      query ++ nl ++ "  |> limit(n: " ++ numberToString limit ++ ")"
    else query in
  query.

Section Host.

(** [new Date(s)] for a string [s], and the clock. *)
Variable dateParse : string -> Date.
Variable now : Z.

(** The part the two query operations share: the query is run, the rows
    are collected, formatted and turned into items. *)
Definition runQuery (org query : string) (timestampFormat : TimestampFormat)
  (limit itemIndex : Z) : Program (list INodeExecutionData) :=
  rows <-- await (queryRows org query) ;;
  let results := map rowObject rows in
  let formatOptions := formatOptionsOf timestampFormat limit in
  formattedResults <--
    lift (formatFluxResults dateParse now results (Some formatOptions)) ;;
  Return (map (fun row => mkItem row itemIndex) formattedResults).

Definition executeFluxQuery (credentials : IInfluxDbCredentials)
  (query : string) (timestampFormat : TimestampFormat) (limit itemIndex : Z)
  : Program (list INodeExecutionData) :=
  queryValidation <-- lift (validateFluxQuery (JsString query)) ;;
  if negb (valid queryValidation) then
    Throw (NodeOperationError
             (orElse (error queryValidation) "Invalid Flux query") itemIndex)
  else
    let org := getOrganization credentials in
    tryCatch (runQuery org query timestampFormat limit itemIndex)
      (fun error =>
         Throw (NodeOperationError
                  ("Failed to execute Flux query: " ++ messageOf error)
                  itemIndex)).

Definition executeSimpleQuery (credentials : IInfluxDbCredentials)
  (bucket measurement start stop field : string)
  (timestampFormat : TimestampFormat) (limit itemIndex : Z)
  : Program (list INodeExecutionData) :=
  bucketValidation <-- lift (validateBucketName (JsString bucket)) ;;
  if negb (valid bucketValidation) then
    Throw (NodeOperationError
             (orElse (error bucketValidation) "Invalid bucket name") itemIndex)
  else
    measurementValidation <--
      lift (validateMeasurementName (JsString measurement)) ;;
    if negb (valid measurementValidation) then
      Throw (NodeOperationError
               (orElse (error measurementValidation) "Invalid measurement name")
               itemIndex)
    else
      let query := simpleQuery bucket measurement start stop field limit in
      let org := getOrganization credentials in
      tryCatch (runQuery org query timestampFormat limit itemIndex)
        (fun error =>
           Throw (NodeOperationError
                    ("Failed to execute simple query: " ++ messageOf error)
                    itemIndex)).

(** *** The write operations *)

(** [param || getDefaultBucket(credentials) || ''] *)
Definition bucketOrDefault (bucketParam : string)
  (credentials : IInfluxDbCredentials) : string :=
  if truthy (JsString bucketParam) then bucketParam
  else
    match getDefaultBucket credentials with
    | Some bucket => if truthy (JsString bucket) then bucket else EmptyString
    | None => EmptyString
    end.

Definition bucketRequired : string :=
  "Bucket name is required. Provide it as a parameter or set a default "
  ++ "bucket in credentials.".

Fixpoint forEach {A : Type} (body : A -> Program unit) (l : list A)
  : Program unit :=
  match l with
  | [] => Return tt
  | a :: l' => _ <-- body a ;; forEach body l'
  end.

(** [`${error}`] for an optional message. *)
Definition shown (error : option string) : string :=
  orElse error "undefined".

Definition validateTag (itemIndex : Z) (entry : string * JsValue)
  : Program unit :=
  let (key, value) := entry in
  keyValidation <-- lift (validateKeyName (JsString key)) ;;
  if negb (valid keyValidation) then
    Throw (NodeOperationError
             ("Invalid tag key: " ++ shown (error keyValidation)) itemIndex)
  else if negb (typeof value =? "string")%string then
    Throw (NodeOperationError
             ("Tag value for " ++ dq ++ key ++ dq ++ " must be a string, got "
              ++ typeof value) itemIndex)
  else Return tt.

Definition validateField (itemIndex : Z) (entry : string * JsValue)
  : Program unit :=
  let (key, value) := entry in
  keyValidation <-- lift (validateKeyName (JsString key)) ;;
  if negb (valid keyValidation) then
    Throw (NodeOperationError
             ("Invalid field key: " ++ shown (error keyValidation)) itemIndex)
  else
    valueValidation <-- lift (validateFieldValue value) ;;
    if negb (valid valueValidation) then
      Throw (NodeOperationError
               ("Invalid field value for " ++ dq ++ key ++ dq ++ ": "
                ++ shown (error valueValidation)) itemIndex)
    else Return tt.

(** The body of the loop that adds the tags to a point. *)
Definition addTag (point : Point) (entry : string * JsValue) : Program unit :=
  let (key, value) := entry in
  await (tag point key value).

(** The body of the loop that adds the fields: a number as an integer or
    a float field, a string, a boolean; a value of another type is
    skipped. *)
Definition addField (point : Point) (entry : string * JsValue)
  : Program unit :=
  let (key, value) := entry in
  match value with
  | JsNum n =>
      if isInteger n then await (intField point key n)
      else await (floatField point key n)
  | JsString s => await (stringField point key s)
  | JsBoolean b => await (booleanField point key b)
  | _ => Return tt
  end.

(** [typeof t === 'number' || typeof t === 'string' ? new Date(t) : t] *)
Definition timestampDate (t : JsValue) : JsValue :=
  match t with
  | JsNum n => JsDate (newDate n)
  | JsString s => JsDate (dateParse s)
  | _ => t
  end.

(** The [catch] block of a write: the handle is closed, an error of the
    closing is ignored, and the error is raised again with a prefix. *)
Definition closeAndRaise {A : Type} (writeApi : WriteApi) (prefix : string)
  (itemIndex : Z) (error : Exception) : Program A :=
  _ <-- tryCatch (await (close writeApi)) (fun _ => Return tt) ;;
  Throw (NodeOperationError (prefix ++ messageOf error) itemIndex).

Definition executeWritePoint (credentials : IInfluxDbCredentials)
  (measurement : string) (tags fields : Row) (timestampParam : JsValue)
  (bucketParam : string) (itemIndex : Z) : Program (list INodeExecutionData) :=
  let bucket := bucketOrDefault bucketParam credentials in
  if negb (truthy (JsString bucket)) then
    Throw (NodeOperationError bucketRequired itemIndex)
  else
    bucketValidation <-- lift (validateBucketName (JsString bucket)) ;;
    if negb (valid bucketValidation) then
      Throw (NodeOperationError
               (orElse (error bucketValidation) "Invalid bucket name")
               itemIndex)
    else
      measurementValidation <--
        lift (validateMeasurementName (JsString measurement)) ;;
      if negb (valid measurementValidation) then
        Throw (NodeOperationError
                 (orElse (error measurementValidation)
                    "Invalid measurement name") itemIndex)
      else
        _ <-- forEach (validateTag itemIndex) tags ;;
        if (List.length fields =? 0)%nat then
          Throw (NodeOperationError "At least one field is required" itemIndex)
        else
          _ <-- forEach (validateField itemIndex) fields ;;
          _ <-- (match timestampParam with
                 | JsUndefined => Return tt
                 | _ =>
                     timestampValidation <--
                       lift (validateTimestamp dateParse timestampParam) ;;
                     if negb (valid timestampValidation) then
                       Throw (NodeOperationError
                                (orElse (error timestampValidation)
                                   "Invalid timestamp") itemIndex)
                     else Return tt
                 end) ;;
          let org := getOrganization credentials in
          let writeApi := getWriteApi org bucket "ns" None in
          tryCatch
            (point <-- await (newPoint measurement) ;;
             _ <-- forEach (addTag point) tags ;;
             _ <-- forEach (addField point) fields ;;
             _ <-- (match timestampParam with
                    | JsUndefined => Return tt
                    | _ =>
                        await (timestamp point (timestampDate timestampParam))
                    end) ;;
             _ <-- await (writePoint writeApi point) ;;
             _ <-- await (close writeApi) ;;
             Return [mkItem
                       [("success", JsBoolean true);
                        ("pointsWritten", JsNum (num 1));
                        ("measurement", JsString measurement);
                        ("bucket", JsString bucket);
                        ("timestamp",
                         match timestampParam with
                         | JsUndefined | JsNull => JsString (isoString now)
                         | _ => timestampParam
                         end)]
                       itemIndex])
            (closeAndRaise writeApi "Failed to write point to InfluxDB: "
               itemIndex).

Record IWritePointOptions : Type := mkWritePointOptions {
  measurement : string;
  tags : option Row;
  fields : option Row;
  timestampOf : JsValue
}.

(** The body of the loop of [executeWriteBatch] for one point, given the
    number of points written so far; it gives the number after it. *)
Definition writeBatchPoint (writeApi : WriteApi) (itemIndex : Z)
  (pointsWritten : Z) (pointData : IWritePointOptions) : Program Z :=
  measurementValidation <--
    lift (validateMeasurementName (JsString (measurement pointData))) ;;
  if negb (valid measurementValidation) then
    Throw (NodeOperationError
             ("Point " ++ numberToString pointsWritten ++ ": "
              ++ shown (error measurementValidation)) itemIndex)
  else
    point <-- await (newPoint (measurement pointData)) ;;
    _ <-- (match tags pointData with
           | Some tags => forEach (addTag point) tags
           | None => Return tt
           end) ;;
    match fields pointData with
    | None | Some [] =>
        Throw (NodeOperationError
                 ("Point " ++ numberToString pointsWritten
                  ++ ": At least one field is required") itemIndex)
    | Some fields =>
        _ <-- forEach (addField point) fields ;;
        _ <-- (if truthy (timestampOf pointData) then
                 await (timestamp point (timestampDate (timestampOf pointData)))
               else Return tt) ;;
        _ <-- await (writePoint writeApi point) ;;
        Return (pointsWritten + 1)
    end.

Fixpoint foldP {A B : Type} (body : B -> A -> Program B) (l : list A) (b : B)
  : Program B :=
  match l with
  | [] => Return b
  | a :: l' => b' <-- body b a ;; foldP body l' b'
  end.

(** The [message] of a [NodeOperationError] made with a message: the
    class keeps the message or, when it names a common error code, puts a
    description in its place. *)
Variable descriptive : string -> string.

(** [error instanceof Error ? error.message : String(error)] in the
    [catch] of [executeWriteBatch], which also catches the errors its
    [try] block makes. *)
Definition caughtMessage (error : Exception) : string :=
  match error with
  | NodeOperationError message _ => descriptive message
  | Js _ => messageOf error
  end.

Definition executeWriteBatch (credentials : IInfluxDbCredentials)
  (pointsData : list IWritePointOptions) (batchSize : Z)
  (bucketParam : string) (itemIndex : Z) : Program (list INodeExecutionData) :=
  let bucket := bucketOrDefault bucketParam credentials in
  if negb (truthy (JsString bucket)) then
    Throw (NodeOperationError bucketRequired itemIndex)
  else
    bucketValidation <-- lift (validateBucketName (JsString bucket)) ;;
    if negb (valid bucketValidation) then
      Throw (NodeOperationError
               (orElse (error bucketValidation) "Invalid bucket name")
               itemIndex)
    else if (List.length pointsData =? 0)%nat then
      Throw (NodeOperationError
               "Points array is required and must contain at least one point"
               itemIndex)
    else
      let org := getOrganization credentials in
      let writeApi := getWriteApi org bucket "ns" (Some batchSize) in
      tryCatch
        (pointsWritten <-- foldP (writeBatchPoint writeApi itemIndex)
                             pointsData 0 ;;
         _ <-- await (close writeApi) ;;
         Return [mkItem
                   [("success", JsBoolean true);
                    ("pointsWritten", JsNum (num pointsWritten));
                    ("bucket", JsString bucket);
                    ("batchSize", JsNum (num batchSize))]
                   itemIndex])
        (fun error =>
           _ <-- tryCatch (await (close writeApi)) (fun _ => Return tt) ;;
           Throw (NodeOperationError
                    ("Failed to write batch to InfluxDB: "
                     ++ caughtMessage error) itemIndex)).

End Host.

(** [s.split(sep)] for a separator of one character. *)
Fixpoint split (sep : ascii) (s : string) : list string :=
  match s with
  | EmptyString => [EmptyString]
  | String c s' =>
      if (c =? sep)%char then EmptyString :: split sep s'
      else
        match split sep s' with
        | [] => [String c EmptyString]
        | line :: lines => String c line :: lines
        end
  end.

(** The lines [executeWriteLineProtocol] counts:
    [trimmedProtocol.split('\n').filter((line) => line.trim())]. *)
Definition linesOf (trimmedProtocol : string) : list string :=
  filter (fun line => truthy (JsString (trim line)))
    (split (ascii_of_N 10) trimmedProtocol).

Definition executeWriteLineProtocol (credentials : IInfluxDbCredentials)
  (lineProtocol bucketParam precision : string) (itemIndex : Z)
  : Program (list INodeExecutionData) :=
  let bucket := bucketOrDefault bucketParam credentials in
  if negb (truthy (JsString bucket)) then
    Throw (NodeOperationError bucketRequired itemIndex)
  else
    bucketValidation <-- lift (validateBucketName (JsString bucket)) ;;
    if negb (valid bucketValidation) then
      Throw (NodeOperationError
               (orElse (error bucketValidation) "Invalid bucket name")
               itemIndex)
    else if negb (truthy (JsString lineProtocol))
            || negb (typeof (JsString lineProtocol) =? "string")%string then
      Throw (NodeOperationError
               "Line protocol is required and must be a string" itemIndex)
    else
      let trimmedProtocol := trim lineProtocol in
      if (String.length trimmedProtocol =? 0)%nat then
        Throw (NodeOperationError "Line protocol cannot be empty" itemIndex)
      else
        let lines := linesOf trimmedProtocol in
        let lineCount := Z.of_nat (List.length lines) in
        let org := getOrganization credentials in
        let writeApi := getWriteApi org bucket precision None in
        tryCatch
          (_ <-- await (writeRecord writeApi trimmedProtocol) ;;
           _ <-- await (close writeApi) ;;
           Return [mkItem
                     [("success", JsBoolean true);
                      ("linesWritten", JsNum (num lineCount));
                      ("bucket", JsString bucket);
                      ("precision", JsString precision)]
                     itemIndex])
          (closeAndRaise writeApi
             "Failed to write line protocol to InfluxDB: " itemIndex).

(** *** Runs of an operation

    A run pairs each request with what the server did with it, in order,
    and ends in what the operation returned or raised. *)

Inductive Event : Type :=
| event (r : Request) (x : Completion (Response r)).

Definition request (e : Event) : Request :=
  match e with event r _ => r end.

Inductive Outcome (A : Type) : Type :=
| Completed (a : A)
| Failed (e : Exception).

Arguments Completed {A} a.
Arguments Failed {A} e.

Fixpoint runs {A : Type} (p : Program A) (t : list Event) (o : Outcome A)
  : Prop :=
  match p with
  | Return a => t = [] /\ o = Completed a
  | Throw e => t = [] /\ o = Failed e
  | Await r k => exists x t', t = event r x :: t' /\ runs (k x) t' o
  end.

(** The run against a server: a state and, for every request, an answer
    and the next state. *)
Fixpoint run {S A : Type}
  (server : forall r : Request, S -> Completion (Response r) * S)
  (p : Program A) (s : S) : list Event * Outcome A * S :=
  match p with
  | Return a => ([], Completed a, s)
  | Throw e => ([], Failed e, s)
  | Await r k =>
      let (x, s') := server r s in
      let '(t, o, s'') := run server (k x) s' in
      (event r x :: t, o, s'')
  end.

End Operations.

Import Operations.

(** ** A host parser for the examples

    The date-time string format every host accepts,
    [YYYY-MM-DDTHH:mm:ssZ] with an optional [.sss], and the date-only form
    [YYYY-MM-DD]; anything else is an invalid date here. *)

Definition digitsAt (s : string) (pos len : nat) : option Z :=
  let t := substring pos len s in
  if (String.length t =? len)%nat && allChars isDigit t
  then Some (parseDigits 0 t) else None.

Definition charAt (s : string) (pos : nat) : string := substring pos 1 s.

Definition daysInMonth (y m : Z) : Z :=
  daysFromCivil (if m =? 12 then y + 1 else y) (if m =? 12 then 1 else m + 1) 1
  - daysFromCivil y m 1.

Definition isoDate (s : string) : option Z :=
  match digitsAt s 0 4, digitsAt s 5 2, digitsAt s 8 2 with
  | Some y, Some m, Some d =>
      if (charAt s 4 =? "-")%string && (charAt s 7 =? "-")%string
         && (1 <=? m) && (m <=? 12) && (1 <=? d) && (d <=? daysInMonth y m)
      then Some (daysFromCivil y m d * msPerDay) else None
  | _, _, _ => None
  end.

Definition isoTime (s : string) : option Z :=
  match digitsAt s 11 2, digitsAt s 14 2, digitsAt s 17 2 with
  | Some h, Some mi, Some sec =>
      if (charAt s 10 =? "T")%string && (charAt s 13 =? ":")%string
         && (charAt s 16 =? ":")%string
         && (h <=? 23) && (mi <=? 59) && (sec <=? 59)
      then
        let base := h * 3600000 + mi * 60000 + sec * 1000 in
        if (substring 19 (String.length s) s =? "Z")%string then Some base
        else
          match digitsAt s 20 3 with
          | Some ms =>
              if (charAt s 19 =? ".")%string
                 && (substring 23 (String.length s) s =? "Z")%string
              then Some (base + ms) else None
          | None => None
          end
      else None
  | _, _, _ => None
  end.

Definition isoDateParse (s : string) : Date :=
  match isoDate s with
  | None => InvalidDate
  | Some day =>
      if (String.length s =? 10)%nat then ValidDate day
      else match isoTime s with
           | Some t => ValidDate (day + t)
           | None => InvalidDate
           end
  end.

(** ** Vocabulary of the statements *)

Definition notWhiteSpace (c : ascii) : bool := negb (isWhiteSpace c).

Definition isLowerLetter (c : ascii) : bool :=
  ((97 <=? charCode c) && (charCode c <=? 122))%N.

(** The seconds in a unit: the table [{d: 86400, h: 3600, m: 60, s: 1}]. *)
Definition unitSeconds (u : ascii) : Z :=
  if (u =? "d")%char then 86400
  else if (u =? "h")%char then 3600
  else if (u =? "m")%char then 60
  else if (u =? "s")%char then 1
  else 0.

(** A number of seconds as the parser gives it: a whole number that is
    not negative, or infinity. *)
Definition isSeconds (n : JsNumber) : Prop :=
  n = PosInfinity \/ exists v, 0 <= v /\ n = num v.

(** The characters of a number as a string: digits, a sign, a point, the
    exponent mark and the letters of [Infinity]. *)
Definition isNumberChar (c : ascii) : bool :=
  isDigit c
  || existsb (Ascii.eqb c) (list_ascii_of_string "-+.eInfinity").

(** The keys that [formatEntry] leaves out, or that make no property. *)
Definition dropped (key : string) : bool :=
  ((key =? "table") || (key =? "result") || (key =? "__proto__"))%string.

(** The number of occurrences of a character. *)
Definition countChar (c : ascii) (s : string) : nat :=
  List.length (filterChars (Ascii.eqb c) s).

(** A validator returned a well-formed result. *)
Definition returnsWf (c : Completion IValidationResult) : Prop :=
  exists r, c = Returned r /\ wfResult r.

(** The date a [_time] value denotes: a [Date] object, or a string through
    [new Date]. *)
Definition dateOf (dateParse : string -> Date) (v : JsValue) : option Date :=
  match v with
  | JsString s => Some (dateParse s)
  | JsDate d => Some d
  | _ => None
  end.

(** [formatTimestamp] has a result on this value: it denotes a date, and a
    valid one when the format is [iso]. *)
Definition timeFormats (dateParse : string -> Date) (f : TimestampFormat)
  (v : JsValue) : bool :=
  match dateOf dateParse v, f with
  | None, _ => false
  | Some InvalidDate, iso => false
  | Some _, _ => true
  end.

Definition entryFormats (dateParse : string -> Date) (f : TimestampFormat)
  (e : string * JsValue) : bool :=
  negb ((fst e =? "_time")%string && truthy (snd e))
  || timeFormats dateParse f (snd e).

(** Every [_time] of the row that is re-encoded can be. *)
Definition rowFormats (dateParse : string -> Date) (f : TimestampFormat)
  (row : Row) : bool :=
  forallb (entryFormats dateParse f) row.

(** Two rows, the second with an invalid [Date] as its [_time]. *)
Definition rowsWithInvalidDate : list Row :=
  [[("_value", JsNum (num 1))]; [("_time", JsDate InvalidDate)]].

(** The three rows of the test fixture and the options [{limit: 2}]. *)
Definition fixtureRow (time : string) (value : Q) : Row :=
  [("_time", JsString time); ("_measurement", JsString "temperature");
   ("_field", JsString "value"); ("_value", JsNum (Finite value));
   ("location", JsString "office"); ("sensor_id", JsString "sensor-001")].

Definition threeRows : list Row :=
  [fixtureRow "2024-01-01T00:00:00Z" (47 # 2);
   fixtureRow "2024-01-01T00:01:00Z" (237 # 10);
   fixtureRow "2024-01-01T00:02:00Z" (118 # 5)].

Definition limitTwo : option IFormatOptions :=
  Some (mkFormatOptions None None (Some 2)).

(** 2024-01-01T12:00:00.000Z *)
Definition noon2024 : Z := 1704110400000.

(** A validator accepted its input; a validator rejected it, with an
    error. *)
Definition accepts (c : Completion IValidationResult) : Prop :=
  c = Returned pass.

Definition rejects (c : Completion IValidationResult) : Prop :=
  exists e, c = Returned (failWith e) /\ e <> EmptyString.

(** A query with an opening parenthesis that is never closed. *)
Definition unbalancedQuery : string := "from(bucket: " ++ dq ++ "x" ++ dq.

(** A string, a boolean or a finite number. *)
Definition fieldTyped (v : JsValue) : Prop :=
  match v with
  | JsString _ | JsBoolean _ | JsNum (Finite _) => True
  | _ => False
  end.

(** ** Vocabulary of the further properties *)

Definition isLetter (c : ascii) : bool :=
  ((65 <=? charCode c) && (charCode c <=? 90)
   || (97 <=? charCode c) && (charCode c <=? 122))%N.

(** A letter, a digit, an underscore or a hyphen. *)
Definition isNameChar (c : ascii) : bool :=
  isLetter c || isDigit c || (c =? "_")%char || (c =? "-")%char.

(** A non-empty string of name characters. *)
Definition isName (s : string) : bool :=
  negb (s =? EmptyString)%string && allChars isNameChar s.

(** One of d, h, m, s, in either case. *)
Definition isUnitLetter (u : ascii) : bool :=
  existsb (Ascii.eqb (toLowerChar u)) ["d"; "h"; "m"; "s"]%char.

(** Digits followed by a unit letter, or the word infinite, in any case. *)
Definition isPeriod (s : string) : Prop :=
  toLowerCase s = "infinite"
  \/ exists ds u, s = ds ++ String u EmptyString /\ ds <> EmptyString
                  /\ allChars isDigit ds = true /\ isUnitLetter u = true.



(** The requests of a run, in order. *)
Definition requests (t : list Event) : list Request := map request t.

(** Whatever the server does, the operation fails only with a
    [NodeOperationError] for the item. *)
Definition raisesNodeOperationError {A : Type} (itemIndex : Z)
  (p : Program A) : Prop :=
  forall t e, runs p t (Failed e) ->
  exists message, e = NodeOperationError message itemIndex.

(** Whatever the server does, the operation sends a request only when
    [P] holds. *)
Definition requestsOnlyWhen {A : Type} (P : Prop) (p : Program A) : Prop :=
  forall t o, runs p t o -> t <> [] -> P.

(** A bucket with an id and a name only, and a run of the delete operation
    in which the server reports two buckets of one name. *)
Definition bucketNamed (id name : string) : Bucket.t :=
  Bucket.make (Some id) name None None None None None.

Definition deleteSensors : list Event :=
  [event (getBuckets (Some "sensors") None)
     (Returned (Some [bucketNamed "b1" "sensors"; bucketNamed "b2" "sensors"]));
   event (deleteBucketsID (Some "b1")) (Returned tt)].

(** Credentials for the organization [my-org]. *)
Definition myOrg : IInfluxDbCredentials :=
  mkCredentials "http://localhost:8086" "my-token" "my-org" None None.

(** The server did not answer a lookup with a first entry: it rejected the
    request, or the list is absent or empty. *)
Definition nothingFound {A : Type} (x : Completion (option (list A))) : Prop :=
  match x with
  | Returned (Some (_ :: _)) => False
  | _ => True
  end.

(** The retention rules a number of seconds is sent as: none for 0, one
    rule of that many seconds otherwise. *)
Definition rulesFor (seconds : JsNumber) : list (RetentionRule JsNumber) :=
  if sameNumber seconds (num 0) then [] else [mkRetentionRule seconds].

(** A run of a query: one request, and when the operation completes, one
    item per row of the answer up to the limit, each paired with the
    item. *)
Definition queryRun (org query : string) (limit itemIndex : Z)
  (t : list Event) (o : Outcome (list INodeExecutionData)) : Prop :=
  exists x,
    t = [event (queryRows org query) x]
    /\ forall items, o = Completed items ->
       exists rows,
         x = Returned rows
         /\ List.length items
            = (if 0 <? limit
               then Nat.min (Z.to_nat limit) (List.length rows)
               else List.length rows)
         /\ Forall (fun item => pairedItem item = itemIndex) items.

(** Some row of the answer has a [_time] that is a non-empty string that
    [new Date] does not parse. *)
Definition unreadableTime (dateParse : string -> Date) (rows : list QueryRow)
  : Prop :=
  exists row s,
    In row rows /\ In ("_time", JsString s) (rowObject row)
    /\ s <> EmptyString /\ dateParse s = InvalidDate.

(** Why a query operation failed: its checks did not pass and nothing was
    sent; or the one request was rejected; or the format is [iso] and the
    answer has a time that cannot be read. *)
Definition queryFailure (dateParse : string -> Date)
  (timestampFormat : TimestampFormat) (org query : string) (t : list Event)
  : Prop :=
  t = []
  \/ (exists e, t = [event (queryRows org query) (Thrown e)])
  \/ (timestampFormat = iso
      /\ exists rows,
           t = [event (queryRows org query) (Returned rows)]
           /\ unreadableTime dateParse rows).

(** A server that answers every query with the same rows and rejects any
    other request. *)
Definition answering (rows : list QueryRow) (r : Request) (s : unit)
  : Completion (Response r) * unit :=
  (match r return Completion (Response r) with
   | queryRows _ _ => Returned rows
   | _ => Thrown (Error "unexpected request")
   end, s).

(** Two rows of one table, the second with a time that is no date. *)
Definition twoQueryRows : list QueryRow :=
  [(["2024-01-01T00:00:00Z"; "23.5"], ["_time"; "_value"]);
   (["yesterday"; "23.7"], ["_time"; "_value"])].

Definition rangeQuery : string :=
  "from(bucket: " ++ dq ++ "sensors" ++ dq ++ ") |> range(start: -1h)".

(** The handle is closed: one request or more, each a [close] of it. *)
Definition closes (writeApi : WriteApi) (t : list Event) : Prop :=
  t <> [] /\ Forall (fun e => request e = close writeApi) t.

(** The line feed. *)
Definition LF : ascii := ascii_of_N 10.

(** The call returned. *)
Definition returned (e : Event) : bool :=
  match e with
  | event _ (Returned _) => true
  | event _ (Thrown _) => false
  end.

(** Every call of the run returned. *)
Definition accepted (t : list Event) : Prop := forallb returned t = true.

(** The call that adds a field of a key and a value to a point: a number
    that is an integer as an integer field, any other number as a float
    field, a string as a string field, a boolean as a boolean field. *)
Definition addedAs (point : Point) (key : string) (value : JsValue)
  (r : Request) : Prop :=
  match value with
  | JsNum n =>
      r = if isInteger n then intField point key n
          else floatField point key n
  | JsString s => r = stringField point key s
  | JsBoolean b => r = booleanField point key b
  | _ => False
  end.

(** The calls that add a field to a point: one, or none for a value that
    is no number, string or boolean. *)
Definition fieldRequests (point : Point) (entry : string * JsValue)
  : list Request :=
  match snd entry with
  | JsNum n =>
      [if isInteger n then intField point (fst entry) n
       else floatField point (fst entry) n]
  | JsString s => [stringField point (fst entry) s]
  | JsBoolean b => [booleanField point (fst entry) b]
  | _ => []
  end.

(** The calls that fill a point and hand it over: the tags and the fields
    in their order, the timestamp when there is one, and the write. *)
Definition fillRequests (writeApi : WriteApi) (point : Point)
  (tags fields : Row) (time : option JsValue) : list Request :=
  (map (fun entry => tag point (fst entry) (snd entry)) tags
   ++ flat_map (fieldRequests point) fields
   ++ match time with
      | Some value => [timestamp point value]
      | None => []
      end
   ++ [writePoint writeApi point])%list.

(** The timestamp [executeWritePoint] gives a point: none when the
    parameter is undefined, the [Date] of a number or a string, the value
    itself otherwise. *)
Definition timeOf (dateParse : string -> Date) (timestampParam : JsValue)
  : option JsValue :=
  match timestampParam with
  | JsUndefined => None
  | JsNum n => Some (JsDate (newDate n))
  | JsString s => Some (JsDate (dateParse s))
  | other => Some other
  end.

(** The timestamp [executeWriteBatch] gives a point: none when the value
    is falsy. *)
Definition batchTimeOf (dateParse : string -> Date) (value : JsValue)
  : option JsValue :=
  if truthy value then timeOf dateParse value else None.

(** The calls of one element of a batch all returned: the point is made
    with the measurement, filled and handed over. *)
Definition handedOver (dateParse : string -> Date) (writeApi : WriteApi)
  (pointData : IWritePointOptions) (block : list Event) : Prop :=
  accepted block
  /\ exists point,
       map request block
       = newPoint (measurement pointData)
         :: fillRequests writeApi point (orElse (tags pointData) [])
              (orElse (fields pointData) [])
              (batchTimeOf dateParse (timestampOf pointData)).

(** What [executeWriteBatch] checks of an element: its measurement is a
    valid name and it has a field. *)
Definition batchValid (pointData : IWritePointOptions) : Prop :=
  accepts (validateMeasurementName (JsString (measurement pointData)))
  /\ exists f fs, fields pointData = Some (f :: fs).

(** The server rejected a call of the run. *)
Definition rejected (t : list Event) : Prop :=
  exists r e, In (event r (Thrown e)) t.

(** The checks of the client library on a field as it is added: an
    integer field is within the 64-bit range, a float field is finite. *)
Definition fieldRefused (r : Request) : bool :=
  match r with
  | intField _ _ (Finite q) =>
      9223372036854776000 * Zpos (Qden q) <=? Z.abs (Qnum q)
  | intField _ _ _ => true
  | floatField _ _ n => negb (isFinite n)
  | _ => false
  end.

(** A client library that makes points, known by their number, takes
    every field it does not refuse, and lets every write and every
    closing go through; it rejects any other request. *)
Definition library (r : Request) (made : nat)
  : Completion (Response r) * nat :=
  match r return Completion (Response r) * nat with
  | newPoint _ => (Returned (pointRef made), S made)
  | tag _ _ _ => (Returned tt, made)
  | intField _ _ _ as r' | floatField _ _ _ as r' =>
      (if fieldRefused r' then Thrown (Error "invalid value for field")
       else Returned tt, made)
  | stringField _ _ _ => (Returned tt, made)
  | booleanField _ _ _ => (Returned tt, made)
  | timestamp _ _ => (Returned tt, made)
  | writePoint _ _ => (Returned tt, made)
  | writeRecord _ _ => (Returned tt, made)
  | close _ => (Returned tt, made)
  | _ => (Thrown (Error "unexpected request"), made)
  end.

(** A client through which every write and every closing goes through and
    that rejects any other request. *)
Definition writing (r : Request) (s : unit) : Completion (Response r) * unit :=
  (match r return Completion (Response r) with
   | writePoint _ _ => Returned tt
   | writeRecord _ _ => Returned tt
   | close _ => Returned tt
   | _ => Thrown (Error "unexpected request")
   end, s).

(** The requests and the outcome of the run against a server without
    state. *)
Definition traceOf {A : Type}
  (server : forall r : Request, unit -> Completion (Response r) * unit)
  (p : Program A) : list Event :=
  fst (fst (run server p tt)).

Definition outcomeOf {A : Type}
  (server : forall r : Request, unit -> Completion (Response r) * unit)
  (p : Program A) : Outcome A :=
  snd (fst (run server p tt)).

(** The requests and the outcome of the run against [library], from no
    point made. *)
Definition libraryTrace {A : Type} (p : Program A) : list Event :=
  fst (fst (run library p 0%nat)).

Definition libraryOutcome {A : Type} (p : Program A) : Outcome A :=
  snd (fst (run library p 0%nat)).

(** The message that [NodeOperationError] keeps as it is. *)
Definition kept (message : string) : string := message.

(** A run makes the calls [rs] in order: all of them, each of which
    returned, when it completes, with a result that satisfies [Q]; a first
    part of them, one of which was rejected, when it fails. *)
Definition follows {A : Type} (rs : list Request) (Q : A -> Prop)
  (t : list Event) (o : Outcome A) : Prop :=
  match o with
  | Completed a => Q a /\ map request t = rs /\ accepted t
  | Failed _ => (exists rest, rs = (map request t ++ rest)%list) /\ rejected t
  end.

(** Every run of the program makes the calls [rs]. *)
Definition performs {A : Type} (p : Program A) (rs : list Request)
  (Q : A -> Prop) : Prop :=
  forall t o, runs p t o -> follows rs Q t o.

(** Credentials for the organization [my-org] with the default bucket
    [sensors]. *)
Definition sensorsOrg : IInfluxDbCredentials :=
  mkCredentials "http://localhost:8086" "my-token" "my-org" (Some "sensors")
    None.

(** The write of a point with an integer field beyond the 64-bit range,
    which passes [validateFieldValue]. *)
Definition writeHuge : Program (list INodeExecutionData) :=
  executeWritePoint isoDateParse 0 myOrg "temperature"
    [("location", JsString "office")] [("count", JsNum (num (2 ^ 70)))]
    JsUndefined "sensors" 0.

(** A batch of two points, the second without a field. *)
Definition twoPoints : list IWritePointOptions :=
  [mkWritePointOptions "temperature" (Some [("_room", JsString "office")])
     (Some [("_value", JsNum (Finite (47 # 2)))]) JsUndefined;
   mkWritePointOptions "humidity" None (Some []) JsUndefined].

(** A run of the deletion of an organization in which the server reports
    one organization of the name. *)
Definition deleteAcme : list Event :=
  [event (getOrgs "acme")
     (Returned (Some [Organization.make (Some "o1") "acme" None None None]));
   event (deleteOrgsID (Some "o1")) (Returned tt)].

(** * Properties *)

(** ** Strings *)

Lemma append_nil_r (s : string) : s ++ EmptyString = s.
Proof. induction s as [|c s IH]; simpl; [reflexivity | now rewrite IH]. Qed.

Lemma append_assoc (s t u : string) : (s ++ t) ++ u = s ++ (t ++ u).
Proof. induction s as [|c s IH]; simpl; [reflexivity | now rewrite IH]. Qed.

Lemma append_eq_nil (s t : string) :
  s ++ t = EmptyString -> s = EmptyString /\ t = EmptyString.
Proof. destruct s; simpl; [auto | discriminate]. Qed.

Lemma allChars_app (p : ascii -> bool) (s t : string) :
  allChars p (s ++ t) = allChars p s && allChars p t.
Proof.
  induction s as [|c s IH]; simpl; [reflexivity|].
  now rewrite IH, andb_assoc.
Qed.

Lemma filterChars_app (p : ascii -> bool) (s t : string) :
  filterChars p (s ++ t) = (filterChars p s ++ filterChars p t)%list.
Proof.
  induction s as [|c s IH]; simpl; [reflexivity|].
  destruct (p c); simpl; now rewrite IH.
Qed.

(** A property of characters that holds on the 256 of them holds of all. *)
Lemma every_ascii (P : ascii -> bool) :
  forallb P everyChar = true -> forall c, P c = true.
Proof.
  intros H c. rewrite forallb_forall in H. apply H.
  unfold everyChar. apply in_map_iff. exists (nat_of_ascii c). split.
  - apply ascii_nat_embedding.
  - apply in_seq. pose proof (nat_ascii_bounded c). lia.
Qed.

Ltac by_every_ascii c :=
  clear; revert c; apply every_ascii; vm_compute; reflexivity.

(** ** The matcher decides the language of the pattern *)

Section Matcher.

Variable i : bool.

Lemma nullable_Lang (r : Regex) : nullable r = true <-> Lang i r EmptyString.
Proof.
  split.
  - induction r; simpl; intros H; try discriminate.
    + constructor.
    + apply andb_true_iff in H as [H1 H2].
      change EmptyString with (EmptyString ++ EmptyString). constructor; auto.
    + apply orb_true_iff in H as [H|H]; [apply LAltL | apply LAltR]; auto.
    + constructor.
  - intros H. remember EmptyString as w eqn:Hw.
    induction H; simpl; try reflexivity; try discriminate.
    + apply append_eq_nil in Hw as [-> ->]. now rewrite IHLang1, IHLang2.
    + rewrite IHLang; auto.
    + rewrite IHLang; auto using orb_true_r.
Qed.

Lemma Lang_deriv_sound (c : ascii) (r : Regex) :
  forall s, Lang i (deriv i c r) s -> Lang i r (String c s).
Proof.
  induction r; simpl; intros s H.
  - inversion H.
  - inversion H.
  - destruct (classAccepts i cs c) eqn:E; inversion H; subst.
    now constructor.
  - destruct (nullable r1) eqn:N.
    + inversion H; subst.
      * match goal with X : Lang _ (Seq _ _) _ |- _ => inversion X; subst end.
        change (Lang i (Seq r1 r2) (String c s1 ++ s2)). constructor; auto.
      * change (Lang i (Seq r1 r2) (EmptyString ++ String c s)).
        constructor; auto. now apply nullable_Lang.
    + inversion H; subst.
      change (Lang i (Seq r1 r2) (String c s1 ++ s2)). constructor; auto.
  - inversion H; subst; [apply LAltL | apply LAltR]; auto.
  - inversion H; subst.
    change (Lang i (Star r) (String c s1 ++ s2)). constructor; auto.
Qed.

Lemma Lang_deriv_complete (c : ascii) (r : Regex) (s : string) :
  Lang i r (String c s) -> Lang i (deriv i c r) s.
Proof.
  intros H. remember (String c s) as w eqn:Hw. revert s Hw.
  induction H; intros x Hw; simpl; try discriminate.
  - injection Hw as -> <-. rewrite H. constructor.
  - destruct s1 as [|c1 s1]; simpl in Hw.
    + subst s2. apply nullable_Lang in H. rewrite H.
      apply LAltR. now apply IHLang2.
    + injection Hw as -> <-.
      destruct (nullable r1); [apply LAltL|]; constructor; auto.
  - apply LAltL. auto.
  - apply LAltR. auto.
  - destruct s1 as [|c1 s1]; simpl in Hw.
    + subst s2. now apply IHLang2.
    + injection Hw as -> <-. constructor; auto.
Qed.

Theorem matches_Lang (r : Regex) (s : string) :
  matches i r s = true <-> Lang i r s.
Proof.
  revert r. induction s as [|c s IH]; intros r; simpl.
  - apply nullable_Lang.
  - rewrite IH. split; [apply Lang_deriv_sound | apply Lang_deriv_complete].
Qed.

(** [cs+]: one or more characters of the class. *)
Lemma Lang_Star_Class (cs : CharSet) (s : string) :
  Lang i (Star (Class cs)) s <-> allChars (classAccepts i cs) s = true.
Proof.
  split.
  - intros H. remember (Star (Class cs)) as r eqn:Hr.
    induction H; try discriminate; [reflexivity|].
    injection Hr as ->. inversion H; subst. simpl.
    match goal with X : classAccepts _ _ _ = true |- _ => rewrite X end.
    simpl. auto.
  - induction s as [|c s IH]; simpl; intros H; [constructor|].
    apply andb_true_iff in H as [Hc Hs].
    change (String c s) with (String c EmptyString ++ s).
    constructor; [now constructor | auto].
Qed.

Lemma Lang_Plus_Class (cs : CharSet) (s : string) :
  Lang i (Plus (Class cs)) s <->
  s <> EmptyString /\ allChars (classAccepts i cs) s = true.
Proof.
  unfold Plus. split.
  - intros H. inversion H; subst.
    match goal with X : Lang _ (Class _) _ |- _ => inversion X; subst end.
    split; [discriminate|]. simpl.
    match goal with X : classAccepts _ _ _ = true |- _ => rewrite X end.
    now apply Lang_Star_Class.
  - intros [Hne H]. destruct s as [|c s]; [congruence|].
    simpl in H. apply andb_true_iff in H as [Hc Hs].
    change (String c s) with (String c EmptyString ++ s).
    constructor; [now constructor | now apply Lang_Star_Class].
Qed.

Lemma Lang_Class_inv (cs : CharSet) (s : string) :
  Lang i (Class cs) s <->
  exists c, s = String c EmptyString /\ classAccepts i cs c = true.
Proof.
  split.
  - intros H. inversion H; subst. eauto.
  - intros (c & -> & H). now constructor.
Qed.

Lemma Lang_Alt_inv (r1 r2 : Regex) (s : string) :
  Lang i (Alt r1 r2) s <-> Lang i r1 s \/ Lang i r2 s.
Proof.
  split.
  - intros H. inversion H; subst; auto.
  - intros [H|H]; [apply LAltL | apply LAltR]; assumption.
Qed.

Lemma Lang_Seq_inv (r1 r2 : Regex) (s : string) :
  Lang i (Seq r1 r2) s <->
  exists s1 s2, s = s1 ++ s2 /\ Lang i r1 s1 /\ Lang i r2 s2.
Proof.
  split.
  - intros H. inversion H; subst. eauto.
  - intros (s1 & s2 & -> & H1 & H2). now constructor.
Qed.

End Matcher.

(** ** Captures *)

Lemma splits_spec (s a b : string) : In (a, b) (splits s) <-> a ++ b = s.
Proof.
  revert a b. induction s as [|c s IH]; intros a b; simpl.
  - split.
    + intros [H|[]]. now inversion H.
    + intros H. apply append_eq_nil in H as [-> ->]. now left.
  - rewrite in_app_iff, in_map_iff. split.
    + intros [([a' b'] & E & Hin) | [E|[]]].
      * inversion E; subst. apply IH in Hin. simpl. now rewrite Hin.
      * now inversion E.
    + intros H. destruct a as [|c' a]; simpl in H.
      * right. left. now subst.
      * left. injection H as -> H. exists (a, b). split; [reflexivity|].
        now apply IH.
Qed.

Lemma matchGroups2_Some (i : bool) (g1 g2 : Regex) (s a b : string) :
  matchGroups2 i g1 g2 s = Some (a, b) ->
  s = a ++ b /\ Lang i g1 a /\ Lang i g2 b.
Proof.
  unfold matchGroups2. intros H. apply find_some in H as [Hin Hm].
  apply splits_spec in Hin. simpl in Hm.
  apply andb_true_iff in Hm as [H1 H2].
  repeat split; [auto | now apply matches_Lang | now apply matches_Lang].
Qed.

Lemma matchGroups2_None (i : bool) (g1 g2 : Regex) (s : string) :
  matchGroups2 i g1 g2 s = None <-> ~ Lang i (Seq g1 g2) s.
Proof.
  unfold matchGroups2. split.
  - intros H L. inversion L; subst.
    pose proof (find_none _ _ H (s1, s2)
                  (proj2 (splits_spec _ _ _) eq_refl)) as N. simpl in N.
    rewrite (proj2 (matches_Lang i g1 s1)), (proj2 (matches_Lang i g2 s2)) in N
      by assumption.
    discriminate.
  - intros N.
    destruct (find _ (splits s)) as [[a b]|] eqn:F; [|reflexivity].
    exfalso. apply N. apply matchGroups2_Some in F as (-> & H1 & H2).
    now constructor.
Qed.

Lemma append_last_inj (a b : string) (c d : ascii) :
  a ++ String c EmptyString = b ++ String d EmptyString -> a = b /\ c = d.
Proof.
  revert b. induction a as [|x a IH]; intros [|y b]; simpl; intros H.
  - now inversion H.
  - inversion H. destruct b; discriminate.
  - inversion H. destruct a; discriminate.
  - inversion H; subst. apply IH in H2 as [-> ->]. auto.
Qed.

(** When the second group is a single character, the captures are the
    last character and what precedes it. *)
Lemma matchGroups2_last (i : bool) (g1 : Regex) (cs : CharSet)
  (a : string) (c : ascii) :
  Lang i g1 a -> classAccepts i cs c = true ->
  matchGroups2 i g1 (Class cs) (a ++ String c EmptyString)
  = Some (a, String c EmptyString).
Proof.
  intros H1 H2.
  destruct (matchGroups2 i g1 (Class cs) (a ++ String c EmptyString))
    as [[a' b']|] eqn:M.
  - apply matchGroups2_Some in M as (E & _ & Hb).
    apply Lang_Class_inv in Hb as (d & -> & _).
    apply append_last_inj in E as [-> ->]. reflexivity.
  - exfalso. apply matchGroups2_None in M. apply M.
    constructor; [assumption | now constructor].
Qed.

(** ** Decimal digits *)

Lemma digitValue_digitChar (d : Z) :
  0 <= d < 10 -> digitValue (digitChar d) = d.
Proof.
  intros H. unfold digitValue, digitChar, charCode.
  rewrite N_ascii_embedding by lia. lia.
Qed.

Lemma isDigit_digitChar (d : Z) : 0 <= d < 10 -> isDigit (digitChar d) = true.
Proof.
  intros H. unfold isDigit, digitChar, charCode.
  rewrite N_ascii_embedding by lia.
  apply andb_true_iff. split; apply N.leb_le; lia.
Qed.

Lemma digitsOf_parse (fuel : nat) :
  forall n acc, 0 <= n < 2 ^ Z.of_nat fuel ->
  parseDigits 0 (digitsOf fuel n acc) = parseDigits n acc.
Proof.
  induction fuel as [|f IH]; intros n acc Hn.
  - simpl in *. now replace n with 0 by lia.
  - rewrite Nat2Z.inj_succ, Z.pow_succ_r in Hn by lia. simpl.
    destruct (Z.ltb_spec n 10).
    + simpl. rewrite digitValue_digitChar by (apply Z.mod_pos_bound; lia).
      rewrite Z.mod_small by lia. reflexivity.
    + rewrite IH.
      * simpl. rewrite digitValue_digitChar by (apply Z.mod_pos_bound; lia).
        f_equal. pose proof (Z.div_mod n 10). lia.
      * split; [apply Z.div_pos; lia|].
        apply Z.div_lt_upper_bound; lia.
Qed.

Lemma digitsOf_digits (fuel : nat) :
  forall n acc, allChars isDigit acc = true ->
  allChars isDigit (digitsOf fuel n acc) = true.
Proof.
  induction fuel as [|f IH]; intros n acc Hacc; simpl; [assumption|].
  assert (allChars isDigit (String (digitChar (n mod 10)) acc) = true) as H.
  { cbn [allChars]. rewrite isDigit_digitChar by (apply Z.mod_pos_bound; lia).
    assumption. }
  destruct (n <? 10); [assumption|].
  apply IH; assumption.
Qed.

Lemma digitsOf_nonempty (fuel : nat) :
  forall n acc, digitsOf (S fuel) n acc <> EmptyString.
Proof.
  induction fuel as [|f IH]; intros n acc.
  - simpl. destruct (n <? 10); discriminate.
  - change (digitsOf (S (S f)) n acc)
      with (if n <? 10 then String (digitChar (n mod 10)) acc
            else digitsOf (S f) (n / 10) (String (digitChar (n mod 10)) acc)).
    destruct (n <? 10); [discriminate | apply IH].
Qed.

Lemma decimal_digits (n : Z) : allChars isDigit (decimal n) = true.
Proof. unfold decimal. now apply digitsOf_digits. Qed.

Lemma decimal_nonempty (n : Z) : decimal n <> EmptyString.
Proof. unfold decimal. apply digitsOf_nonempty. Qed.

Lemma decimal_parse (n : Z) : 0 <= n -> parseDigits 0 (decimal n) = n.
Proof.
  intros Hn. unfold decimal. rewrite digitsOf_parse; [reflexivity|].
  rewrite Nat2Z.inj_succ, Z2Nat.id by apply Z.log2_nonneg.
  destruct (Z.eq_dec n 0) as [->|]; [simpl; lia|].
  pose proof (Z.log2_spec n). lia.
Qed.

(** ** Doubles *)

(** An integer of at most 53 bits is the double it is rounded to. *)
Lemma toDouble_safe (z : Z) : Z.abs z <= 2 ^ 53 -> toDouble z = num z.
Proof.
  intros H. unfold toDouble, roundToDouble. cbn [Qnum Qden inject_Z].
  apply Z.leb_le in H. now rewrite H.
Qed.

Lemma roundHalfEven_bounds (n d : Z) :
  n / d <= roundHalfEven n d <= n / d + 1.
Proof.
  unfold roundHalfEven.
  destruct (2 * (n mod d) <? d); [lia|].
  destruct (d <? 2 * (n mod d)); [lia|].
  destruct (Z.even (n / d)); lia.
Qed.

(** Above 53 bits an integer is rounded to an integer above zero, or to
    infinity. *)
Lemma toDouble_large (z : Z) :
  2 ^ 53 < z ->
  toDouble z = PosInfinity \/ exists v, 0 < v /\ toDouble z = num v.
Proof.
  intros H.
  assert (0 < z) as Hz by (change (2 ^ 53) with 9007199254740992 in H; lia).
  assert (53 <= Z.log2 z) as L
    by (apply Z.log2_le_pow2; [assumption | lia]).
  pose proof (Z.log2_spec z Hz) as [Lo _].
  unfold toDouble, roundToDouble. cbn [Qnum Qden inject_Z].
  rewrite Z.abs_eq by lia.
  destruct (Z.leb_spec z (2 ^ 53)) as [|_]; [lia|].
  cbn [Z.eqb Pos.eqb andb].
  destruct (Z.eqb_spec z 0) as [|_]; [lia|].
  unfold nearestDouble. change (Z.log2 1) with 0. rewrite Z.sub_0_r.
  rewrite (Z.max_l 0 (- Z.log2 z)), (Z.max_r 0 (Z.log2 z)) by lia.
  rewrite Z.pow_0_r, Z.mul_1_r, Z.mul_1_l.
  destruct (Z.ltb_spec z (2 ^ Z.log2 z)) as [|_]; [lia|].
  rewrite (Z.max_l (Z.log2 z) (-1022)) by lia.
  set (p := Z.log2 z - 52).
  rewrite (Z.max_l 0 (- p)), (Z.max_r 0 p) by (unfold p; lia).
  rewrite Z.pow_0_r, Z.mul_1_r, Z.mul_1_l.
  set (m := roundHalfEven z (2 ^ p)).
  destruct (_ || _).
  - destruct (Z.ltb_spec z 0); [lia | now left].
  - right. destruct (Z.leb_spec 0 p) as [_|]; [|unfold p in *; lia].
    rewrite Z.sgn_pos, Z.mul_1_l by assumption.
    exists (m * 2 ^ p). split; [|reflexivity].
    assert (0 < 2 ^ p) as P by (apply Z.pow_pos_nonneg; unfold p; lia).
    assert (1 <= z / 2 ^ p) as D.
    { apply Z.div_le_lower_bound; [assumption|].
      rewrite Z.mul_1_r. transitivity (2 ^ Z.log2 z); [|assumption].
      apply Z.pow_le_mono_r; unfold p; lia. }
    pose proof (roundHalfEven_bounds z (2 ^ p)). fold m in H0. nia.
Qed.

(** An integer that is not negative is rounded to 0 when it is 0, to an
    integer above zero or to infinity otherwise. *)
Lemma toDouble_nonneg (z : Z) :
  0 <= z ->
  toDouble z = PosInfinity
  \/ exists v, toDouble z = num v /\ 0 <= v /\ (v = 0 <-> z = 0).
Proof.
  intros H. destruct (Z.le_gt_cases z (2 ^ 53)) as [S|L].
  - right. exists z. rewrite toDouble_safe by (rewrite Z.abs_eq; lia).
    repeat split; auto.
  - destruct (toDouble_large L) as [I|(v & Hv & E)]; [now left|].
    right. exists v. split; [exact E|]. split; [lia|].
    change (2 ^ 53) with 9007199254740992 in L. lia.
Qed.

Lemma mulNumber_num (a b : Z) : mulNumber (num a) (num b) = toDouble (a * b).
Proof. reflexivity. Qed.

(** ** Number to string *)

Lemma numberToString_safe (n : Z) :
  0 <= n <= maxSafeInteger -> numberToString n = decimal n.
Proof.
  intros [Hn Hs]. unfold numberToString.
  rewrite Z.abs_eq, toDouble_safe by
    (try rewrite Z.abs_eq; unfold maxSafeInteger in Hs;
     change (2 ^ 53) with 9007199254740992; lia).
  cbn [num inject_Z Qnum].
  destruct (Z.ltb_spec n 0); [lia|].
  unfold integerToString. apply Z.leb_le in Hs. now rewrite Hs.
Qed.

Lemma numberToString_nonneg (n : Z) :
  0 <= n <= maxSafeInteger ->
  numberToString n <> EmptyString
  /\ allChars isDigit (numberToString n) = true
  /\ parseDigits 0 (numberToString n) = n.
Proof.
  intros Hn. rewrite (numberToString_safe Hn). repeat split.
  - apply decimal_nonempty.
  - apply decimal_digits.
  - apply decimal_parse. lia.
Qed.

Lemma allChars_imp (p q : ascii -> bool) (s : string) :
  (forall c, p c = true -> q c = true) ->
  allChars p s = true -> allChars q s = true.
Proof.
  intros I. induction s as [|c s IH]; simpl; [reflexivity|].
  intros H. apply andb_true_iff in H as [Hc Hs].
  now rewrite (I _ Hc), IH.
Qed.

Lemma allChars_append (p : ascii -> bool) (s t : string) :
  allChars p s = true -> allChars p t = true -> allChars p (s ++ t) = true.
Proof.
  intros Hs Ht. induction s as [|c s IH]; simpl in *; [assumption|].
  apply andb_true_iff in Hs as [Hc Hs]. now rewrite Hc, IH.
Qed.

Lemma decimal_chars (n : Z) : allChars isNumberChar (decimal n) = true.
Proof.
  apply (allChars_imp isDigit); [|apply decimal_digits].
  intros c H. unfold isNumberChar. now rewrite H.
Qed.

Lemma integerToString_chars (v : Z) :
  allChars isNumberChar (integerToString v) = true.
Proof.
  unfold integerToString.
  destruct (v <=? maxSafeInteger); [apply decimal_chars|]. cbv zeta.
  destruct (_ <=? 21); [apply decimal_chars|].
  set (e := decimal (_ - 1)).
  assert (allChars isNumberChar ("e+" ++ e) = true) as E
    by (apply allChars_append; [reflexivity | apply decimal_chars]).
  pose proof (decimal_chars
    (dropZeros (String.length
                  (decimal (shortestDecimal
                              (Z.to_nat (Z.of_nat (String.length (decimal v))))
                              1 (Z.of_nat (String.length (decimal v))) v)))
       (shortestDecimal (Z.to_nat (Z.of_nat (String.length (decimal v)))) 1
          (Z.of_nat (String.length (decimal v))) v))) as D.
  destruct (decimal (dropZeros _ _)) as [|c [|c' s]]; [reflexivity| |].
  - cbn [allChars] in *. apply andb_true_iff in D as [-> _]. exact E.
  - cbn [allChars] in D. apply andb_true_iff in D as [Hc Hs].
    cbn [allChars]. rewrite Hc. cbn [andb].
    apply (allChars_append _ "."); [reflexivity|].
    apply allChars_append; [exact Hs | exact E].
Qed.

Lemma numberToString_chars (z : Z) :
  allChars isNumberChar (numberToString z) = true.
Proof.
  unfold numberToString.
  destruct (toDouble (Z.abs z)) as [| | |q]; destruct (z <? 0);
    try reflexivity; apply integerToString_chars.
Qed.

Lemma parseDigits_nonneg (s : string) :
  forall acc, 0 <= acc -> allChars isDigit s = true -> 0 <= parseDigits acc s.
Proof.
  induction s as [|c s IH]; intros acc Hacc H; simpl in *; [assumption|].
  apply andb_true_iff in H as [Hc Hs]. apply IH; [|assumption].
  unfold isDigit in Hc. apply andb_true_iff in Hc as [H1 _].
  apply N.leb_le in H1. unfold digitValue. lia.
Qed.

Lemma takeDigits_all (s : string) :
  allChars isDigit s = true -> takeDigits s = s.
Proof.
  induction s as [|c s IH]; simpl; [reflexivity|]. intros H.
  apply andb_true_iff in H as [-> Hs]. now rewrite IH.
Qed.

(** ** Trimming and lower case *)

Lemma trimEnd_noWS (s : string) :
  allChars notWhiteSpace s = true -> trimEnd s = s.
Proof.
  induction s as [|c s IH]; simpl; [reflexivity|]. intros H.
  apply andb_true_iff in H as [Hc Hs]. rewrite IH by assumption.
  unfold notWhiteSpace in Hc. apply negb_true_iff in Hc. rewrite Hc.
  destruct s; reflexivity.
Qed.

Lemma trim_noWS (s : string) : allChars notWhiteSpace s = true -> trim s = s.
Proof.
  intros H. unfold trim.
  assert (trimStart s = s) as ->; [|now apply trimEnd_noWS].
  destruct s as [|c s]; [reflexivity|]. simpl in *.
  apply andb_true_iff in H as [Hc _].
  unfold notWhiteSpace in Hc. apply negb_true_iff in Hc. now rewrite Hc.
Qed.

Lemma trimStart_empty (s : string) :
  trimStart s = EmptyString <-> allChars isWhiteSpace s = true.
Proof.
  induction s as [|c s IH]; simpl; [tauto|].
  destruct (isWhiteSpace c); simpl; [assumption|].
  split; discriminate.
Qed.

Lemma trimEnd_empty (s : string) :
  trimEnd s = EmptyString <-> allChars isWhiteSpace s = true.
Proof.
  induction s as [|c s IH]; simpl; [tauto|].
  destruct (trimEnd s) eqn:E.
  - destruct (isWhiteSpace c); simpl.
    + split; [intros _; now apply IH | reflexivity].
    + split; discriminate.
  - split; [discriminate|]. intros H. apply andb_true_iff in H as [_ H].
    apply IH in H. discriminate.
Qed.

Lemma trimStart_allWS (s : string) :
  allChars isWhiteSpace (trimStart s) = allChars isWhiteSpace s.
Proof.
  induction s as [|c s IH]; simpl; [reflexivity|].
  destruct (isWhiteSpace c) eqn:E; simpl; [assumption | now rewrite E].
Qed.

Lemma trim_empty (s : string) :
  trim s = EmptyString <-> allChars isWhiteSpace s = true.
Proof.
  unfold trim. rewrite trimEnd_empty, trimStart_allWS. reflexivity.
Qed.

Section TrimKeeps.

(** Trimming removes white space only. *)
Variable p : ascii -> bool.
Hypothesis p_notWS : forall c, p c = true -> isWhiteSpace c = false.

Lemma filterChars_WS (s : string) :
  allChars isWhiteSpace s = true -> filterChars p s = [].
Proof.
  induction s as [|c s IH]; simpl; [reflexivity|]. intros H.
  apply andb_true_iff in H as [Hc Hs].
  destruct (p c) eqn:E; [|auto].
  apply p_notWS in E. congruence.
Qed.

Lemma filterChars_trimStart (s : string) :
  filterChars p (trimStart s) = filterChars p s.
Proof.
  induction s as [|c s IH]; simpl; [reflexivity|].
  destruct (isWhiteSpace c) eqn:E; [|reflexivity].
  destruct (p c) eqn:F; [|assumption].
  apply p_notWS in F. congruence.
Qed.

Lemma filterChars_trimEnd (s : string) :
  filterChars p (trimEnd s) = filterChars p s.
Proof.
  induction s as [|c s IH]; simpl; [reflexivity|].
  destruct (trimEnd s) eqn:E.
  - assert (filterChars p s = []) as Hs.
    { apply filterChars_WS. now apply trimEnd_empty. }
    rewrite Hs. destruct (isWhiteSpace c) eqn:W; simpl.
    + destruct (p c) eqn:F; [|reflexivity]. apply p_notWS in F. congruence.
    + destruct (p c); reflexivity.
  - simpl. simpl in IH. destruct (p c); now rewrite IH.
Qed.

Lemma filterChars_trim (s : string) :
  filterChars p (trim s) = filterChars p s.
Proof.
  unfold trim. now rewrite filterChars_trimEnd, filterChars_trimStart.
Qed.

End TrimKeeps.

Lemma toLowerCase_app (s t : string) :
  toLowerCase (s ++ t) = toLowerCase s ++ toLowerCase t.
Proof. induction s as [|c s IH]; simpl; [reflexivity | now rewrite IH]. Qed.

Lemma toLowerCase_fixed (s : string) :
  allChars (fun c => (toLowerChar c =? c)%char) s = true -> toLowerCase s = s.
Proof.
  induction s as [|c s IH]; simpl; [reflexivity|]. intros H.
  apply andb_true_iff in H as [Hc Hs]. apply Ascii.eqb_eq in Hc.
  now rewrite Hc, IH.
Qed.

Lemma allChars_impl (p q : ascii -> bool) (s : string) :
  (forall c, p c = true -> q c = true) ->
  allChars p s = true -> allChars q s = true.
Proof.
  intros Hpq. induction s as [|c s IH]; simpl; [reflexivity|]. intros H.
  apply andb_true_iff in H as [Hc Hs]. now rewrite (Hpq _ Hc), IH.
Qed.

(** ** Character classes *)

Lemma charCode_inj (a b : ascii) : charCode a = charCode b -> a = b.
Proof.
  unfold charCode. intros H.
  rewrite <- (ascii_N_embedding a), <- (ascii_N_embedding b). now rewrite H.
Qed.

Lemma inSet_single (a c : ascii) : inSet [(a, a)] c = true <-> c = a.
Proof.
  unfold inSet, inRange. simpl. rewrite orb_false_r, andb_true_iff.
  rewrite !N.leb_le. split.
  - intros [H1 H2]. apply charCode_inj. lia.
  - intros ->. lia.
Qed.

Lemma classAccepts_single_i (a c : ascii) :
  classAccepts true [(a, a)] c = true <-> Canonicalize a = Canonicalize c.
Proof.
  unfold classAccepts. rewrite existsb_exists. split.
  - intros (x & _ & H). apply andb_true_iff in H as [H1 H2].
    apply inSet_single in H1. subst x. now apply Ascii.eqb_eq.
  - intros H. exists a. split.
    + unfold everyChar. apply in_map_iff. exists (nat_of_ascii a). split.
      * apply ascii_nat_embedding.
      * apply in_seq. pose proof (nat_ascii_bounded a). lia.
    + apply andb_true_iff. split; [now apply inSet_single|].
      now apply Ascii.eqb_eq.
Qed.

Lemma same_canonical (a c : ascii) :
  isLowerLetter a = true -> Canonicalize a = Canonicalize c ->
  toLowerChar c = a /\ notWhiteSpace c = true.
Proof.
  assert (forallb (fun a => forallb (fun c =>
            implb (isLowerLetter a && (Canonicalize a =? Canonicalize c)%char)
                  ((toLowerChar c =? a)%char && notWhiteSpace c)) everyChar)
          everyChar = true) as H by (vm_compute; reflexivity).
  pose proof (every_ascii _ (every_ascii _ H a) c) as F. simpl in F.
  intros Ha Hc. apply Ascii.eqb_eq in Hc. rewrite Ha, Hc in F. simpl in F.
  apply andb_true_iff in F as [F1 F2]. apply Ascii.eqb_eq in F1. auto.
Qed.

Lemma digit_i (c : ascii) :
  classAccepts true [("0", "9")%char] c = true -> isDigit c = true.
Proof.
  intros H.
  assert (implb (classAccepts true [("0", "9")%char] c) (isDigit c) = true) as F
    by by_every_ascii c.
  now rewrite H in F.
Qed.

Lemma digit_plain (c : ascii) :
  isDigit c = true ->
  classAccepts false [("0", "9")%char] c = true
  /\ notWhiteSpace c = true /\ toLowerChar c = c
  /\ c <> "-"%char /\ c <> "+"%char /\ c <> "i"%char.
Proof.
  intros H.
  assert (implb (isDigit c)
            (classAccepts false [("0", "9")%char] c && notWhiteSpace c
             && (toLowerChar c =? c)%char && negb (c =? "-")%char
             && negb (c =? "+")%char && negb (c =? "i")%char) = true) as F
    by by_every_ascii c.
  rewrite H in F. cbn [implb] in F.
  apply andb_true_iff in F as [F F6]. apply andb_true_iff in F as [F F5].
  apply andb_true_iff in F as [F F4]. apply andb_true_iff in F as [F F3].
  apply andb_true_iff in F as [F1 F2].
  apply Ascii.eqb_eq in F3. apply negb_true_iff in F4, F5, F6.
  apply Ascii.eqb_neq in F4, F5, F6. auto 10.
Qed.

Lemma unit_i (c : ascii) :
  classAccepts true unitChars c = true ->
  notWhiteSpace c = true /\ classAccepts false unitChars (toLowerChar c) = true.
Proof.
  intros H.
  assert (implb (classAccepts true unitChars c)
            (notWhiteSpace c && classAccepts false unitChars (toLowerChar c))
          = true) as F by by_every_ascii c.
  rewrite H in F. cbn [implb] in F. now apply andb_true_iff in F.
Qed.

Lemma unit_plain (c : ascii) :
  classAccepts false unitChars c = true ->
  (c = "d" \/ c = "h" \/ c = "m" \/ c = "s")%char.
Proof.
  intros H.
  assert (implb (classAccepts false unitChars c)
            ((c =? "d") || (c =? "h") || (c =? "m") || (c =? "s"))%char
          = true) as F by by_every_ascii c.
  rewrite H in F. cbn [implb] in F.
  apply orb_true_iff in F as [F|F]; [|apply Ascii.eqb_eq in F; auto].
  apply orb_true_iff in F as [F|F]; [|apply Ascii.eqb_eq in F; auto].
  apply orb_true_iff in F as [F|F]; apply Ascii.eqb_eq in F; auto.
Qed.

(** A literal word under [ignoreCase] accepts the words with the same
    lower-case form, when the literal is made of lower-case letters. *)
Lemma Lang_Lit_i (w : string) :
  allChars isLowerLetter w = true ->
  forall s, Lang true (Lit w) s ->
  toLowerCase s = w /\ allChars notWhiteSpace s = true.
Proof.
  induction w as [|a w IH]; simpl; intros Hw s H.
  - inversion H. auto.
  - apply andb_true_iff in Hw as [Ha Hw].
    inversion H; subst.
    match goal with X : Lang _ (Char _) _ |- _ => inversion X; subst end.
    match goal with X : classAccepts _ _ _ = true |- _ =>
      apply classAccepts_single_i in X;
      destruct (same_canonical _ _ Ha X) as [L N] end.
    match goal with X : Lang _ (Lit _) _ |- _ =>
      destruct (IH Hw _ X) as [L' N'] end.
    simpl. rewrite L, L', N, N'. auto.
Qed.

(** ** parseRetentionPeriod on a well-formed period *)

Arguments RegExp_test : simpl never.
Arguments trim : simpl never.
Arguments startsWith : simpl never.
Arguments matchAllChar : simpl never.
Arguments numberToString : simpl never.

Lemma parseInt10_digits (ds : string) :
  ds <> EmptyString -> allChars isDigit ds = true ->
  parseInt10 ds = toDouble (parseDigits 0 ds).
Proof.
  intros Hne Hd. destruct ds as [|c ds]; [congruence|].
  pose proof Hd as Hd'. simpl in Hd'. apply andb_true_iff in Hd' as [Hc _].
  destruct (digit_plain _ Hc) as (_ & W & _ & M & P & _).
  unfold notWhiteSpace in W. apply negb_true_iff in W.
  apply Ascii.eqb_neq in M, P.
  unfold parseInt10. cbn [trimStart]. rewrite W, M, P.
  rewrite takeDigits_all by assumption. reflexivity.
Qed.

Lemma unitSeconds_unit (u : ascii) :
  classAccepts false unitChars u = true ->
  lookupFactor multipliers (String u EmptyString) = num (unitSeconds u)
  /\ 1 <= unitSeconds u.
Proof.
  intros H.
  destruct (unit_plain _ H) as [-> | [-> | [-> | ->]]];
    (split; [reflexivity | vm_compute; discriminate]).
Qed.

(** The trimmed, lower-cased input is digits and a unit: the count, as a
    double, times the seconds of the unit. *)
Lemma parse_digits_unit (period ds : string) (u : ascii) :
  toLowerCase (trim period) = ds ++ String u EmptyString ->
  ds <> EmptyString -> allChars isDigit ds = true ->
  classAccepts false unitChars u = true ->
  parseRetentionPeriod period
  = Returned (mulNumber (toDouble (parseDigits 0 ds)) (num (unitSeconds u))).
Proof.
  intros E Hne Hd Hu. unfold parseRetentionPeriod. rewrite E.
  assert ((ds ++ String u EmptyString =? "infinite")%string = false) as ->.
  { destruct ds as [|c ds]; [congruence|]. simpl in Hd.
    apply andb_true_iff in Hd as [Hc _].
    destruct (digit_plain _ Hc) as (_ & _ & _ & _ & _ & N).
    apply Ascii.eqb_neq in N. simpl. now rewrite N. }
  rewrite matchGroups2_last; [| |assumption].
  - rewrite parseInt10_digits by assumption.
    now destruct (unitSeconds_unit _ Hu) as [-> _].
  - unfold digit. apply Lang_Plus_Class. split; [assumption|].
    revert Hd. apply allChars_impl. intros c Hc. now apply digit_plain.
Qed.

(** The product of a count and the seconds of a unit, in doubles: exact
    up to [maxSafeInteger]; a whole number that is not negative, or
    infinity, in every case. *)
Lemma seconds_product (a : Z) (u : ascii) :
  0 <= a -> classAccepts false unitChars u = true ->
  (a * unitSeconds u <= maxSafeInteger ->
   mulNumber (toDouble a) (num (unitSeconds u)) = num (a * unitSeconds u))
  /\ isSeconds (mulNumber (toDouble a) (num (unitSeconds u))).
Proof.
  intros Ha Hu. destruct (unitSeconds_unit _ Hu) as [_ U]. split.
  - intros B. unfold maxSafeInteger in B.
    rewrite toDouble_safe, mulNumber_num, toDouble_safe;
      try reflexivity; rewrite Z.abs_eq by nia;
      change (2 ^ 53) with 9007199254740992; nia.
  - destruct (toDouble_nonneg Ha) as [->|(v & -> & Hv & _)].
    + left. destruct (unit_plain _ Hu) as [-> | [-> | [-> | ->]]];
        reflexivity.
    + rewrite mulNumber_num.
      destruct (@toDouble_nonneg (v * unitSeconds u) ltac:(nia))
        as [->|(w & -> & Hw & _)]; [now left | right; eauto].
Qed.


Lemma parse_normal (period ds : string) (u : ascii) :
  toLowerCase (trim period) = ds ++ String u EmptyString ->
  ds <> EmptyString -> allChars isDigit ds = true ->
  classAccepts false unitChars u = true ->
  parseDigits 0 ds * unitSeconds u <= maxSafeInteger ->
  parseRetentionPeriod period = Returned (num (parseDigits 0 ds * unitSeconds u)).
Proof.
  intros E Hne Hd Hu B. rewrite (@parse_digits_unit period ds u) by assumption.
  f_equal. apply seconds_product; try assumption.
  now apply parseDigits_nonneg.
Qed.

Lemma digits_notWS (ds : string) :
  allChars isDigit ds = true -> allChars notWhiteSpace ds = true.
Proof. apply allChars_impl. intros c Hc. now apply digit_plain. Qed.

Lemma digits_lower (ds : string) :
  allChars isDigit ds = true -> toLowerCase ds = ds.
Proof.
  intros H. apply toLowerCase_fixed. revert H. apply allChars_impl.
  intros c Hc. apply Ascii.eqb_eq. now apply digit_plain.
Qed.

Lemma parse_number_unit (n : Z) (u : ascii) :
  0 <= n -> n * unitSeconds u <= maxSafeInteger ->
  classAccepts false unitChars u = true ->
  parseRetentionPeriod (numberToString n ++ String u EmptyString)
  = Returned (num (n * unitSeconds u)).
Proof.
  intros Hn B Hu.
  assert (n <= maxSafeInteger) as S
    by (destruct (unitSeconds_unit _ Hu) as [_ U]; nia).
  destruct (@numberToString_nonneg n ltac:(lia)) as (Hne & Hd & Hp).
  rewrite <- Hp at 2. apply parse_normal; try assumption.
  - assert (notWhiteSpace u = true /\ toLowerChar u = u) as [W L].
    { destruct (unit_plain _ Hu) as [-> | [-> | [-> | ->]]];
        split; reflexivity. }
    rewrite trim_noWS.
    + rewrite toLowerCase_app, digits_lower by assumption. simpl.
      now rewrite L.
    + rewrite allChars_app, digits_notWS by assumption. simpl.
      now rewrite W.
  - now rewrite Hp.
Qed.

(** What the validator's pattern accepts, the parser accepts. *)
Lemma retention_accepted_parses (s : string) :
  RegExp_test RETENTION_PERIOD_REGEX s = true ->
  exists n, parseRetentionPeriod s = Returned n /\ isSeconds n.
Proof.
  unfold RegExp_test, RETENTION_PERIOD_REGEX. cbn [body ignoreCase].
  intros H. apply matches_Lang in H.
  apply Lang_Alt_inv in H as [H|H].
  - apply Lang_Seq_inv in H as (s1 & s2 & -> & H1 & H2).
    apply Lang_Plus_Class in H1 as [Hne Hd].
    apply Lang_Class_inv in H2 as (u & -> & Hu).
    assert (allChars isDigit s1 = true) as Hd'.
    { revert Hd. apply allChars_impl. apply digit_i. }
    destruct (unit_i _ Hu) as [W Hu'].
    eexists. split.
    + apply parse_digits_unit; try eassumption.
      rewrite trim_noWS.
      * now rewrite toLowerCase_app, digits_lower.
      * rewrite allChars_app, digits_notWS by assumption. simpl. now rewrite W.
    + apply seconds_product; [now apply parseDigits_nonneg | assumption].
  - apply (Lang_Lit_i "infinite" eq_refl) in H as [L W].
    exists (num 0). split; [|right; exists 0; split; [lia | reflexivity]].
    unfold parseRetentionPeriod. rewrite trim_noWS by assumption.
    now rewrite L.
Qed.


(** ** Validators return, and return well-formed results *)

Lemma wf_failWith (msg : string) : msg <> EmptyString -> wfResult (failWith msg).
Proof.
  intros H. split; simpl; [discriminate|]. intros _. eauto.
Qed.

Lemma wf_pass : wfResult pass.
Proof. split; simpl; [reflexivity | discriminate]. Qed.


Ltac solve_fail :=
  eexists; split; [reflexivity | apply wf_failWith; simpl; discriminate].
Ltac solve_pass := eexists; split; [reflexivity | apply wf_pass].

Lemma validateMeasurementName_wf (v : JsValue) :
  returnsWf (validateMeasurementName v).
Proof.
  unfold validateMeasurementName.
  destruct v as [| | [] | [| | |q] |z|[|c s]|d|dt|l|o|o']; simpl; try solve_fail.
  - destruct (negb (Qnum q =? 0)); solve_fail.
  - destruct (negb (z =? 0)); solve_fail.
  - destruct (negb (RegExp_test _ _)); [solve_fail | solve_pass].
Qed.

Lemma validateKeyName_wf (v : JsValue) : returnsWf (validateKeyName v).
Proof.
  unfold validateKeyName.
  destruct v as [| | [] | [| | |q] |z|[|c s]|d|dt|l|o|o']; simpl; try solve_fail.
  - destruct (negb (Qnum q =? 0)); solve_fail.
  - destruct (negb (z =? 0)); solve_fail.
  - destruct (startsWith _ _); [solve_fail|].
    destruct (negb (RegExp_test _ _)); [solve_fail | solve_pass].
Qed.

Lemma validateBucketName_wf (v : JsValue) : returnsWf (validateBucketName v).
Proof.
  unfold validateBucketName.
  destruct v as [| | [] | [| | |q] |z|[|c s]|d|dt|l|o|o']; simpl; try solve_fail.
  - destruct (negb (Qnum q =? 0)); solve_fail.
  - destruct (negb (z =? 0)); solve_fail.
  - destruct (_ <? _)%nat; [solve_fail|].
    destruct (negb (RegExp_test _ _)); [solve_fail | solve_pass].
Qed.

Lemma validateRetentionPeriod_wf (v : JsValue) :
  returnsWf (validateRetentionPeriod v).
Proof.
  unfold validateRetentionPeriod.
  destruct v as [| | [] | [| | |q] |z|[|c s]|d|dt|l|o|o']; simpl; try solve_fail.
  - destruct (negb (Qnum q =? 0)); solve_fail.
  - destruct (negb (z =? 0)); solve_fail.
  - destruct (negb (RegExp_test _ _)); [solve_fail | solve_pass].
Qed.

Lemma validateFluxQuery_wf (v : JsValue) : returnsWf (validateFluxQuery v).
Proof.
  unfold validateFluxQuery.
  destruct v as [| | [] | [| | |q] |z|[|c s]|d|dt|l|o|o']; simpl; try solve_fail.
  - destruct (negb (Qnum q =? 0)); solve_fail.
  - destruct (negb (z =? 0)); solve_fail.
  - destruct (_ =? 0)%nat; [solve_fail|].
    destruct (negb (_ =? _)%nat); [solve_fail|].
    destruct (negb (_ =? _)%nat); [solve_fail | solve_pass].
Qed.

(** [validateTimestamp] reads the time of whatever passes
    [instanceof Date]: on an object that is not a [Date] the read
    raises. *)
Lemma validateTimestamp_raises (dateParse : string -> Date)
  (props : list (string * JsValue)) :
  validateTimestamp dateParse (JsDateLike props)
  = Thrown (TypeError "this is not a Date object.").
Proof. reflexivity. Qed.

Lemma validateTimestamp_wf (dateParse : string -> Date) (v : JsValue) :
  (forall props, v <> JsDateLike props) ->
  returnsWf (validateTimestamp dateParse v).
Proof.
  unfold validateTimestamp. intros N.
  destruct v as [| | b | [| | |q] |z|s|d|[|t]|l|o|o']; simpl;
    try solve_fail; try solve_pass.
  - destruct (Qnum q <? 0); [solve_fail | solve_pass].
  - destruct (isNaN _); [solve_fail | solve_pass].
  - now contradiction (N o').
Qed.

Lemma validateTimestamp_returned (dateParse : string -> Date) (v : JsValue)
  (r : IValidationResult) :
  validateTimestamp dateParse v = Returned r -> wfResult r.
Proof.
  intros H.
  assert (forall props, v <> JsDateLike props) as N.
  { intros props ->. rewrite validateTimestamp_raises in H. discriminate. }
  destruct (validateTimestamp_wf dateParse N) as (r' & E & W). congruence.
Qed.

Lemma validateFieldValue_wf (v : JsValue) : returnsWf (validateFieldValue v).
Proof.
  unfold validateFieldValue.
  destruct v as [| | b | [| | |q] |z|s|d|dt|l|o|o']; simpl;
    try solve_fail; solve_pass.
Qed.

(** C7. The result that a validator returns carries no error when [valid]
    is true and a non-empty error when [valid] is false, for every
    validator and every input. Six of the validators return on every
    input; [validateTimestamp] returns on every input that is not an
    object inheriting from [Date.prototype] without being a [Date]. *)
Theorem validation_result_invariant (dateParse : string -> Date) (v : JsValue) :
  returnsWf (validateMeasurementName v)
  /\ returnsWf (validateKeyName v)
  /\ returnsWf (validateBucketName v)
  /\ returnsWf (validateRetentionPeriod v)
  /\ returnsWf (validateFluxQuery v)
  /\ returnsWf (validateFieldValue v)
  /\ (forall r, validateTimestamp dateParse v = Returned r -> wfResult r)
  /\ ((forall props, v <> JsDateLike props) ->
      returnsWf (validateTimestamp dateParse v)).
Proof.
  split; [apply validateMeasurementName_wf|].
  split; [apply validateKeyName_wf|].
  split; [apply validateBucketName_wf|].
  split; [apply validateRetentionPeriod_wf|].
  split; [apply validateFluxQuery_wf|].
  split; [apply validateFieldValue_wf|].
  split; [apply validateTimestamp_returned | apply validateTimestamp_wf].
Qed.



Lemma accepts_valid (c : Completion IValidationResult) :
  returnsWf c ->
  (accepts c <-> exists r, c = Returned r /\ valid r = true).
Proof.
  intros (r & -> & Hwf). unfold accepts. split.
  - intros H. exists pass. auto.
  - intros (r' & E & Hv). injection E as <-.
    destruct r as [vl er]. destruct Hwf as [H1 _]. simpl in *.
    subst. now rewrite (H1 eq_refl).
Qed.

Lemma rejects_valid (c : Completion IValidationResult) :
  returnsWf c ->
  (rejects c <-> exists r, c = Returned r /\ valid r = false).
Proof.
  intros (r & -> & Hwf). unfold rejects. split.
  - intros (e & H & _). exists (failWith e). auto.
  - intros (r' & E & Hv). injection E as <-.
    destruct r as [vl er]. destruct Hwf as [_ H2]. simpl in *. subst.
    destruct (H2 eq_refl) as (e & -> & Hne). now exists e.
Qed.

(** ** validateFieldValue *)

(** C9. [validateFieldValue] accepts exactly the strings, the booleans and
    the finite numbers: every string (the empty one too) and every boolean
    is valid; NaN and the two infinities are not; null, undefined, objects
    and arrays are not. *)
Theorem validateFieldValue_accepts_exactly (v : JsValue) :
  (accepts (validateFieldValue v) <-> fieldTyped v)
  /\ (rejects (validateFieldValue v) <-> ~ fieldTyped v)
  /\ (forall s, accepts (validateFieldValue (JsString s)))
  /\ accepts (validateFieldValue (JsString EmptyString))
  /\ (forall b, accepts (validateFieldValue (JsBoolean b)))
  /\ (forall q, accepts (validateFieldValue (JsNum (Finite q))))
  /\ rejects (validateFieldValue (JsNum NaN))
  /\ rejects (validateFieldValue (JsNum PosInfinity))
  /\ rejects (validateFieldValue (JsNum NegInfinity))
  /\ rejects (validateFieldValue JsNull)
  /\ rejects (validateFieldValue JsUndefined)
  /\ (forall props, rejects (validateFieldValue (JsObject props)))
  /\ (forall elems, rejects (validateFieldValue (JsArray elems))).
Proof.
  assert (forall msg : string, msg <> EmptyString ->
          forall c, c = Returned (failWith msg) -> rejects c) as R.
  { intros msg Hne c ->. now exists msg. }
  repeat split; intros;
    try reflexivity;
    try (eapply R; [|reflexivity]; simpl; discriminate).
  - destruct v as [| | b | [| | |q] |z|s|d|dt|l|o|o']; simpl; auto; discriminate.
  - destruct v as [| | b | [| | |q] |z|s|d|dt|l|o|o']; simpl in *; try tauto;
      reflexivity.
  - destruct v as [| | b | [| | |q] |z|s|d|dt|l|o|o']; simpl; try tauto;
      intros _; destruct H as (e & H & _); discriminate.
  - destruct v as [| | b | [| | |q] |z|s|d|dt|l|o|o']; simpl in *; try tauto;
      (eapply R; [|reflexivity]; simpl; discriminate).
Qed.

(** ** Key names and measurement names *)

(** C4. A name made of letters, digits, underscores and hyphens that starts
    with an underscore is rejected, with an error, as a key name and
    accepted as a measurement name. *)
Theorem underscore_prefix_is_for_keys_only (s : string) :
  Lang false (Plus (Class nameChars)) s ->
  startsWith s "_" = true ->
  rejects (validateKeyName (JsString s))
  /\ (exists r, validateKeyName (JsString s) = Returned r /\ valid r = false)
  /\ accepts (validateMeasurementName (JsString s))
  /\ (exists r, validateMeasurementName (JsString s) = Returned r
                /\ valid r = true).
Proof.
  intros HL Hp.
  assert (exists c s', s = String c s') as (c & s' & ->).
  { destruct s; [discriminate | eauto]. }
  assert (validateKeyName (JsString (String c s'))
          = Returned (failWith
              ("Key " ++ dq ++ String c s' ++ dq
               ++ " cannot start with underscore (reserved for system use)")))
    as K.
  { unfold validateKeyName. simpl. now rewrite Hp. }
  assert (validateMeasurementName (JsString (String c s')) = Returned pass)
    as M.
  { unfold validateMeasurementName. simpl.
    unfold RegExp_test. cbn [body ignoreCase MEASUREMENT_NAME_REGEX].
    now rewrite (proj2 (matches_Lang _ _ _) HL). }
  repeat split.
  - eexists. split; [exact K | simpl; discriminate].
  - eexists. split; [exact K | reflexivity].
  - exact M.
  - eexists. split; [exact M | reflexivity].
Qed.

Lemma underscore_prefix_is_for_keys_only_foo :
  (rejects (validateKeyName (JsString "_foo"))
   /\ (exists r, validateKeyName (JsString "_foo") = Returned r
                 /\ valid r = false)
   /\ accepts (validateMeasurementName (JsString "_foo"))
   /\ (exists r, validateMeasurementName (JsString "_foo") = Returned r
                 /\ valid r = true)).
Proof.
  apply (@underscore_prefix_is_for_keys_only "_foo").
  - apply matches_Lang. vm_compute. reflexivity.
  - vm_compute. reflexivity.
Defined.

(** ** validateFluxQuery *)

Lemma orEmpty_matchAllChar (c : ascii) (s : string) :
  orEmpty (matchAllChar c s) = filterChars (Ascii.eqb c) s.
Proof. unfold matchAllChar. now destruct (filterChars _ s). Qed.

Lemma count_trim (c : ascii) (s : string) :
  isWhiteSpace c = false ->
  List.length (orEmpty (matchAllChar c (trim s))) = countChar c s.
Proof.
  intros H. rewrite orEmpty_matchAllChar, filterChars_trim; [reflexivity|].
  intros x Hx. apply Ascii.eqb_eq in Hx. now subst.
Qed.

(** The verdict of [validateFluxQuery] on a string, test by test. *)
Lemma validateFluxQuery_string (query : string) :
  validateFluxQuery (JsString query) =
  Returned
    (if (query =? EmptyString)%string then
       failWith "Flux query is required and must be a string"
     else if allChars isWhiteSpace query then
       failWith "Flux query cannot be empty"
     else if negb (countChar "(" query =? countChar ")" query)%nat then
       failWith "Unbalanced parentheses in Flux query"
     else if negb (countChar "[" query =? countChar "]" query)%nat then
       failWith "Unbalanced brackets in Flux query"
     else pass).
Proof.
  unfold validateFluxQuery. destruct query as [|c s]; [reflexivity|].
  set (q := String c s). cbn [truthy typeof asString bind].
  change (negb (negb (q =? EmptyString)%string)
          || negb ("string" =? "string")%string) with false.
  change (q =? EmptyString)%string with false. cbv iota.
  rewrite !count_trim by reflexivity.
  destruct (allChars isWhiteSpace q) eqn:W.
  - apply trim_empty in W. now rewrite W.
  - destruct (trim q) eqn:T; [apply trim_empty in T; congruence|].
    cbn [String.length Nat.eqb].
    destruct (negb _); [reflexivity|]. destruct (negb _); reflexivity.
Qed.

(** C8. [validateFluxQuery] fails exactly on the strings that are empty or
    white space only, or whose counts of [(] and [)] differ, or whose counts
    of [[] and []] differ, and accepts every other string; the unbalanced
    example fails with an error that mentions parentheses, and a blank
    string with one that mentions empty. *)
Theorem validateFluxQuery_fails_exactly (query : string) :
  (rejects (validateFluxQuery (JsString query)) <->
     allChars isWhiteSpace query = true
     \/ countChar "(" query <> countChar ")" query
     \/ countChar "[" query <> countChar "]" query)
  /\ (accepts (validateFluxQuery (JsString query)) <->
     ~ (allChars isWhiteSpace query = true
        \/ countChar "(" query <> countChar ")" query
        \/ countChar "[" query <> countChar "]" query))
  /\ (exists e, validateFluxQuery (JsString unbalancedQuery)
                = Returned (failWith e)
                /\ includes e "parentheses" = true)
  /\ (exists e, validateFluxQuery (JsString "   ") = Returned (failWith e)
                /\ includes e "empty" = true).
Proof.
  assert (forall msg : string, msg <> EmptyString ->
          rejects (Returned (failWith msg))) as R.
  { intros msg Hne. now exists msg. }
  assert (forall msg : string, ~ accepts (Returned (failWith msg))) as NA.
  { intros msg H. discriminate. }
  assert (~ rejects (Returned pass)) as NR.
  { intros (e & H & _). discriminate. }
  rewrite validateFluxQuery_string.
  repeat split.
  - destruct (String.eqb_spec query EmptyString) as [->|Hne];
      [intros _; now left|].
    destruct (allChars isWhiteSpace query); [intros _; now left|].
    destruct (Nat.eqb_spec (countChar "(" query) (countChar ")" query));
      simpl; [|intros _; auto].
    destruct (Nat.eqb_spec (countChar "[" query) (countChar "]" query));
      simpl; [|intros _; auto].
    intros H. now apply NR in H.
  - destruct (String.eqb_spec query EmptyString) as [->|Hne];
      [intros _; apply R; discriminate|].
    destruct (allChars isWhiteSpace query); [intros _; apply R; discriminate|].
    destruct (Nat.eqb_spec (countChar "(" query) (countChar ")" query));
      simpl; [|intros _; apply R; discriminate].
    destruct (Nat.eqb_spec (countChar "[" query) (countChar "]" query));
      simpl; [|intros _; apply R; discriminate].
    intros [H|[H|H]]; congruence.
  - destruct (String.eqb_spec query EmptyString) as [->|Hne];
      [intros H; now apply NA in H|].
    destruct (allChars isWhiteSpace query); [intros H; now apply NA in H|].
    destruct (Nat.eqb_spec (countChar "(" query) (countChar ")" query));
      simpl; [|intros H; now apply NA in H].
    destruct (Nat.eqb_spec (countChar "[" query) (countChar "]" query));
      simpl; [|intros H; now apply NA in H].
    intros _ [H|[H|H]]; congruence.
  - destruct (String.eqb_spec query EmptyString) as [->|Hne];
      [intros H; exfalso; apply H; now left|].
    destruct (allChars isWhiteSpace query);
      [intros H; exfalso; apply H; now left|].
    destruct (Nat.eqb_spec (countChar "(" query) (countChar ")" query));
      simpl; [|intros H; exfalso; apply H; auto].
    destruct (Nat.eqb_spec (countChar "[" query) (countChar "]" query));
      simpl; [|intros H; exfalso; apply H; auto].
    reflexivity.
  - eexists. split; [vm_compute; reflexivity | vm_compute; reflexivity].
  - eexists. split; [vm_compute; reflexivity | vm_compute; reflexivity].
Qed.

(** ** The validator and the parser of retention periods *)

(** C10. On a period that [validateRetentionPeriod] finds valid,
    [parseRetentionPeriod] returns a number, without raising. Upper-case
    forms such as [30D] and [INFINITE] are valid. The parser accepts more:
    with white space around it, [30d] is parsed and is not valid. *)
Theorem valid_period_is_parsed (s : string) (r : IValidationResult) :
  validateRetentionPeriod (JsString s) = Returned r ->
  valid r = true ->
  returns (parseRetentionPeriod s)
  /\ accepts (validateRetentionPeriod (JsString "30D"))
  /\ accepts (validateRetentionPeriod (JsString "INFINITE"))
  /\ parseRetentionPeriod "30D" = Returned (num 2592000)
  /\ parseRetentionPeriod "INFINITE" = Returned (num 0)
  /\ rejects (validateRetentionPeriod (JsString " 30d "))
  /\ parseRetentionPeriod " 30d " = Returned (num 2592000).
Proof.
  intros H Hv. split.
  - assert (RegExp_test RETENTION_PERIOD_REGEX s = true) as T;
      [|destruct (retention_accepted_parses _ T) as (n & P & _);
        now exists n].
    unfold validateRetentionPeriod in H.
    destruct s as [|c s]; simpl in H.
    + injection H as <-. discriminate.
    + destruct (RegExp_test RETENTION_PERIOD_REGEX (String c s));
        [reflexivity|].
      injection H as <-. discriminate.
  - repeat split; try (vm_compute; reflexivity).
    eexists. split; [vm_compute; reflexivity | discriminate].
Qed.

Lemma valid_period_is_parsed_30D :
  returns (parseRetentionPeriod "30D")
  /\ accepts (validateRetentionPeriod (JsString "30D"))
  /\ accepts (validateRetentionPeriod (JsString "INFINITE"))
  /\ parseRetentionPeriod "30D" = Returned (num 2592000)
  /\ parseRetentionPeriod "INFINITE" = Returned (num 0)
  /\ rejects (validateRetentionPeriod (JsString " 30d "))
  /\ parseRetentionPeriod " 30d " = Returned (num 2592000).
Proof.
  apply (@valid_period_is_parsed "30D" pass).
  - vm_compute. reflexivity.
  - reflexivity.
Defined.

(** ** getRelativeTime *)

Lemma getRelativeTime_now (now : Z) :
  getRelativeTime now (ValidDate now) = "just now".
Proof.
  unfold getRelativeTime. replace (now - now) with 0 by lia. reflexivity.
Qed.

Lemma getRelativeTime_2_hours_ago (now : Z) :
  getRelativeTime now (ValidDate (now - 7200000)) = "2 hours ago".
Proof.
  unfold getRelativeTime.
  replace (now - (now - 7200000)) with 7200000 by lia. reflexivity.
Qed.



(** The future: every instant after [now] is rendered in days. *)
Lemma getRelativeTime_future (now t : Z) :
  now < t ->
  exists n, 1 <= n /\
    getRelativeTime now (ValidDate t)
    = "in " ++ numberToString n ++ " day" ++ plural n.
Proof.
  intros H. unfold getRelativeTime.
  destruct (Z.ltb_spec (now - t) 0); [|lia].
  set (d := (now - t) / 1000 / 60 / 60 / 24).
  assert (d <= -1) as Hd.
  { unfold d.
    assert ((now - t) / 1000 <= -1) as H1
      by (apply Z.lt_succ_r, Z.div_lt_upper_bound; lia).
    assert ((now - t) / 1000 / 60 <= -1) as H2
      by (apply Z.lt_succ_r, Z.div_lt_upper_bound; lia).
    assert ((now - t) / 1000 / 60 / 60 <= -1) as H3
      by (apply Z.lt_succ_r, Z.div_lt_upper_bound; lia).
    apply Z.lt_succ_r, Z.div_lt_upper_bound; lia. }
  exists (Z.abs d). split; [lia|].
  destruct (Z.gtb_spec (Z.abs d) 0); [reflexivity | lia].
Qed.

(** C1. An instant 30 minutes after [now] is rendered as a day, not in
    minutes: the quotients of a negative difference are rounded down, so
    the day count of every future instant is at least 1 in magnitude. *)
Theorem getRelativeTime_30_minutes_ahead (now : Z) :
  getRelativeTime now (ValidDate (now + 1800000)) = "in 1 day"
  /\ includes (getRelativeTime now (ValidDate (now + 1800000))) "minute"
     = false.
Proof.
  assert (getRelativeTime now (ValidDate (now + 1800000)) = "in 1 day") as E.
  { unfold getRelativeTime.
    replace (now - (now + 1800000)) with (-1800000) by lia. reflexivity. }
  split; [exact E|]. rewrite E. reflexivity.
Qed.

(** ** Retention periods *)

Lemma unit_accepts (u : ascii) :
  In u ["d"; "h"; "m"; "s"]%char -> classAccepts false unitChars u = true.
Proof.
  intros [<-|[<-|[<-|[<-|[]]]]]; reflexivity.
Qed.

Lemma format_then_parse (seconds : Z) :
  0 <= seconds <= maxSafeInteger ->
  parseRetentionPeriod (formatRetentionPeriod seconds) = Returned (num seconds).
Proof.
  intros H. unfold formatRetentionPeriod.
  assert (forall k, 0 < k -> Z.rem seconds k = 0 ->
            Z.quot seconds k * k = seconds /\ 0 <= Z.quot seconds k) as Q.
  { intros k Hk Hr. pose proof (Z.quot_rem' seconds k) as E.
    rewrite Hr in E. split; [lia | apply Z.quot_pos; lia]. }
  destruct (Z.eqb_spec seconds 0) as [->|Hz]; [reflexivity|].
  destruct (Z.eqb_spec (Z.rem seconds 86400) 0) as [Hd|Hd].
  { destruct (Q 86400 ltac:(lia) Hd) as [E P].
    rewrite parse_number_unit;
      change (unitSeconds "d") with 86400; try rewrite E; auto; lia. }
  destruct (Z.eqb_spec (Z.rem seconds 3600) 0) as [Hh|Hh].
  { destruct (Q 3600 ltac:(lia) Hh) as [E P].
    rewrite parse_number_unit;
      change (unitSeconds "h") with 3600; try rewrite E; auto; lia. }
  destruct (Z.eqb_spec (Z.rem seconds 60) 0) as [Hm|Hm].
  { destruct (Q 60 ltac:(lia) Hm) as [E P].
    rewrite parse_number_unit;
      change (unitSeconds "m") with 60; try rewrite E; auto; lia. }
  rewrite parse_number_unit;
    change (unitSeconds "s") with 1; try rewrite Z.mul_1_r; auto; lia.
Qed.

(** C2. A count followed by a unit parses to the count times the seconds
    of the unit, as long as the product is at most [maxSafeInteger] (in
    particular for 0, 1, 30 and 365); [infinite] parses to 0 in either
    case; parsing the formatted form of a non-negative integer up to
    [maxSafeInteger] gives it back (in particular for 0, 60, 3600, 86400
    and 2592000); 0 is formatted as [infinite], not as [0s], and 86401 as
    [86401s]. *)
Theorem retention_period_round_trip (n seconds : Z) (u : ascii) :
  0 <= n -> In u ["d"; "h"; "m"; "s"]%char ->
  n * unitSeconds u <= maxSafeInteger ->
  0 <= seconds -> seconds <= maxSafeInteger ->
  parseRetentionPeriod (numberToString n ++ String u EmptyString)
    = Returned (num (n * unitSeconds u))
  /\ parseRetentionPeriod "infinite" = Returned (num 0)
  /\ parseRetentionPeriod "INFINITE" = Returned (num 0)
  /\ parseRetentionPeriod (formatRetentionPeriod seconds) = Returned (num seconds)
  /\ formatRetentionPeriod 0 = "infinite"
  /\ formatRetentionPeriod 0 <> "0s"
  /\ formatRetentionPeriod 86401 = "86401s".
Proof.
  intros Hn Hu Bn Hs Bs. repeat split; try reflexivity.
  - apply parse_number_unit; [assumption | assumption | now apply unit_accepts].
  - now apply format_then_parse.
  - discriminate.
Qed.

Lemma retention_period_round_trip_30d :
  parseRetentionPeriod "30d" = Returned (num 2592000)
  /\ parseRetentionPeriod "infinite" = Returned (num 0)
  /\ parseRetentionPeriod "INFINITE" = Returned (num 0)
  /\ parseRetentionPeriod (formatRetentionPeriod 2592000)
     = Returned (num 2592000)
  /\ formatRetentionPeriod 0 = "infinite"
  /\ formatRetentionPeriod 0 <> "0s"
  /\ formatRetentionPeriod 86401 = "86401s".
Proof.
  apply (@retention_period_round_trip 30 2592000 "d"%char).
  - lia.
  - simpl. auto.
  - vm_compute. discriminate.
  - lia.
  - vm_compute. discriminate.
Defined.

(** C2 as stated fails beyond the safe integers: 10^21 is a double and is
    not negative, it is formatted with an exponent, and the parser raises
    on the formatted form instead of giving the number back. *)
Lemma retention_period_round_trip_fails_1e21 :
  0 <= 10 ^ 21
  /\ toDouble (10 ^ 21) = num (10 ^ 21)
  /\ formatRetentionPeriod (10 ^ 21) = "1e+21s"
  /\ throws (parseRetentionPeriod (formatRetentionPeriod (10 ^ 21)))
  /\ parseRetentionPeriod (formatRetentionPeriod (10 ^ 21))
     <> Returned (num (10 ^ 21)).
Proof.
  split; [vm_compute; discriminate|].
  split; [vm_compute; reflexivity|].
  assert (formatRetentionPeriod (10 ^ 21) = "1e+21s") as E
    by (vm_compute; reflexivity).
  split; [exact E|]. rewrite E.
  split; [eexists; vm_compute; reflexivity | vm_compute; discriminate].
Qed.

(** ** formatFluxResults: when the mapping returns *)

Section FormatterProperties.

Variable dateParse : string -> Date.
Variable now : Z.

Lemma returns_not_throws {A : Type} (c : Completion A) :
  returns c -> ~ throws c.
Proof. intros [a ->] [e H]. discriminate. Qed.

Lemma formatTimestamp_returns (f : TimestampFormat) (v : JsValue) :
  timeFormats dateParse f v = true ->
  returns (formatTimestamp dateParse now v f).
Proof.
  unfold timeFormats, formatTimestamp, returns.
  destruct v as [| | b | n |z|s|d|dt|l|o|o']; simpl; try discriminate.
  - destruct (dateParse s), f; simpl; try discriminate; eauto.
  - destruct dt, f; simpl; try discriminate; eauto.
Qed.

Lemma formatTimestamp_throws (f : TimestampFormat) (v : JsValue) :
  timeFormats dateParse f v = false ->
  throws (formatTimestamp dateParse now v f).
Proof.
  unfold timeFormats, formatTimestamp, throws.
  destruct v as [| | b | n |z|s|d|dt|l|o|o']; simpl;
    try (destruct f; simpl; eauto; fail).
  - destruct (dateParse s), f; simpl; try discriminate; eauto.
  - destruct dt, f; simpl; try discriminate; eauto.
Qed.

Lemma formatEntry_returns (f : TimestampFormat) (acc : Row)
  (e : string * JsValue) :
  entryFormats dateParse f e = true ->
  returns (formatEntry dateParse now f acc e).
Proof.
  unfold entryFormats, formatEntry. destruct e as [k x]. simpl.
  destruct ((k =? "_time")%string && truthy x); simpl.
  - intros H. destruct (formatTimestamp_returns _ _ H) as [y ->].
    simpl. eexists. reflexivity.
  - intros _.
    destruct ((k =? "_measurement") || (k =? "_field"))%string;
      [eexists; reflexivity|].
    destruct (k =? "_value")%string; [eexists; reflexivity|].
    destruct (negb (k =? "table") && negb (k =? "result"))%string;
      eexists; reflexivity.
Qed.

Lemma formatEntry_throws (f : TimestampFormat) (acc : Row)
  (e : string * JsValue) :
  entryFormats dateParse f e = false ->
  throws (formatEntry dateParse now f acc e).
Proof.
  unfold entryFormats, formatEntry. destruct e as [k x]. simpl.
  destruct ((k =? "_time")%string && truthy x); simpl; [|discriminate].
  intros H. destruct (formatTimestamp_throws _ _ H) as [y ->].
  simpl. eexists. reflexivity.
Qed.

Lemma formatRow_from_returns (f : TimestampFormat) (row : Row) :
  rowFormats dateParse f row = true ->
  forall acc, returns (foldM (formatEntry dateParse now f) row acc).
Proof.
  unfold rowFormats. induction row as [|e row IH]; simpl; intros H acc.
  - eexists. reflexivity.
  - apply andb_true_iff in H as [He Hr].
    destruct (formatEntry_returns f acc e He) as [acc' ->]. simpl. auto.
Qed.

Lemma formatRow_from_throws (f : TimestampFormat) (row : Row) :
  rowFormats dateParse f row = false ->
  forall acc, throws (foldM (formatEntry dateParse now f) row acc).
Proof.
  unfold rowFormats. induction row as [|e row IH]; simpl; intros H acc;
    [discriminate|].
  destruct (entryFormats dateParse f e) eqn:He; simpl in H.
  - destruct (formatEntry_returns f acc e He) as [acc' ->]. simpl. auto.
  - destruct (formatEntry_throws f acc e He) as [x ->]. simpl.
    eexists. reflexivity.
Qed.

Lemma formatRow_returns (f : TimestampFormat) (row : Row) :
  rowFormats dateParse f row = true <->
  returns (formatRow dateParse now f row).
Proof.
  split; [intros H; now apply formatRow_from_returns|].
  intros H. destruct (rowFormats dateParse f row) eqn:E; [reflexivity|].
  exfalso. apply (returns_not_throws H).
  now apply formatRow_from_throws.
Qed.

Lemma mapM_returns {A B : Type} (g : A -> Completion B) (l : list A) :
  (forall x, In x l -> returns (g x)) ->
  exists out, mapM g l = Returned out
              /\ Forall2 (fun x y => g x = Returned y) l out.
Proof.
  induction l as [|a l IH]; simpl; intros H.
  - exists []. auto.
  - destruct (H a (or_introl eq_refl)) as [b Hb].
    destruct IH as (out & Ho & F); [auto|].
    exists (b :: out). rewrite Hb, Ho. simpl. auto.
Qed.

Lemma mapM_throws {A B : Type} (g : A -> Completion B) (l : list A) (x : A) :
  In x l -> throws (g x) -> throws (mapM g l).
Proof.
  induction l as [|a l IH]; simpl; [tauto|]. intros [->|Hin] Hx.
  - destruct Hx as [e ->]. simpl. eexists. reflexivity.
  - destruct (g a) as [b|e]; simpl; [|eexists; reflexivity].
    destruct (IH Hin Hx) as [e ->]. simpl. eexists. reflexivity.
Qed.

Lemma Forall2_nth_error {A B : Type} (R : A -> B -> Prop)
  (l : list A) (l' : list B) :
  Forall2 R l l' ->
  forall i x, nth_error l i = Some x ->
  exists y, nth_error l' i = Some y /\ R x y.
Proof.
  induction 1 as [|a b l l' Hab F IH]; intros [|i] x Hx; simpl in *;
    try discriminate.
  - injection Hx as <-. eauto.
  - eauto.
Qed.

(** The mapping of the rows, for rows that all format. *)
Lemma formatFluxResults_mapped (rows : list Row)
  (options : option IFormatOptions) :
  forallb (rowFormats dateParse (timestampFormatOf options)) rows = true ->
  exists mapped,
    Forall2 (fun row out =>
               formatRow dateParse now (timestampFormatOf options) row
               = Returned out) rows mapped
    /\ formatFluxResults dateParse now rows options
       = Returned (if limitOf options >? 0
                   then firstn (Z.to_nat (limitOf options)) mapped
                   else mapped).
Proof.
  intros H. rewrite forallb_forall in H.
  destruct (mapM_returns (formatRow dateParse now (timestampFormatOf options))
              rows) as (mapped & Hm & F).
  { intros row Hin. apply formatRow_returns. auto. }
  exists mapped. split; [assumption|].
  unfold formatFluxResults. rewrite Hm. simpl.
  now destruct (limitOf options >? 0).
Qed.

(** One row that does not format makes the whole call raise. *)
Lemma formatFluxResults_raises (rows : list Row)
  (options : option IFormatOptions) :
  forallb (rowFormats dateParse (timestampFormatOf options)) rows = false ->
  throws (formatFluxResults dateParse now rows options).
Proof.
  intros H.
  assert (exists row, In row rows
            /\ rowFormats dateParse (timestampFormatOf options) row = false)
    as (row & Hin & Hr).
  { induction rows as [|r rows IH]; simpl in H; [discriminate|].
    destruct (rowFormats dateParse (timestampFormatOf options) r) eqn:E.
    - destruct (IH H) as (row & Hin & Hr). exists row. simpl. auto.
    - exists r. simpl. auto. }
  destruct (mapM_throws (formatRow dateParse now (timestampFormatOf options))
              rows row Hin) as [e He].
  { now apply formatRow_from_throws. }
  unfold formatFluxResults. rewrite He. simpl. eexists. reflexivity.
Qed.

End FormatterProperties.

(** C5, amended. When every row formats (each re-encoded
    [_time] denotes a date, a valid one for [iso]): with a positive limit
    the result is the first min(limit, number of rows) mapped rows, in the
    order of the input; with a limit that is zero, negative or absent it
    is all of them; and no row gives no row. *)
Theorem formatFluxResults_limit (dateParse : string -> Date) (now : Z)
  (rows : list Row) (options : option IFormatOptions) :
  forallb (rowFormats dateParse (timestampFormatOf options)) rows = true ->
  exists mapped,
    Forall2 (fun row out =>
               formatRow dateParse now (timestampFormatOf options) row
               = Returned out) rows mapped
    /\ (0 < limitOf options ->
        formatFluxResults dateParse now rows options
        = Returned (firstn (Nat.min (Z.to_nat (limitOf options))
                                    (List.length rows)) mapped))
    /\ (limitOf options <= 0 ->
        formatFluxResults dateParse now rows options = Returned mapped)
    /\ ((forall o, options = Some o -> limit o = None) ->
        formatFluxResults dateParse now rows options = Returned mapped)
    /\ formatFluxResults dateParse now []
         (Some (mkFormatOptions None None None)) = Returned [].
Proof.
  intros H.
  destruct (formatFluxResults_mapped dateParse now rows options H)
    as (mapped & F & E).
  exists mapped. split; [assumption|].
  assert (limitOf options <= 0 ->
          formatFluxResults dateParse now rows options = Returned mapped) as Z.
  { intros Hl. rewrite E. destruct (Z.gtb_spec (limitOf options) 0);
      [lia | reflexivity]. }
  repeat split.
  - intros Hl. rewrite E. destruct (Z.gtb_spec (limitOf options) 0); [|lia].
    rewrite (Forall2_length F), <- firstn_firstn, firstn_all. reflexivity.
  - exact Z.
  - intros Ho. apply Z. unfold limitOf. destruct options as [o|]; [|lia].
    rewrite (Ho o eq_refl). lia.
Qed.

Lemma formatFluxResults_limit_first_two :
  exists mapped,
    Forall2 (fun row out => formatRow isoDateParse 0 iso row = Returned out)
      threeRows mapped
    /\ (0 < 2 ->
        formatFluxResults isoDateParse 0 threeRows limitTwo
        = Returned (firstn (Nat.min (Z.to_nat 2) 3) mapped))
    /\ (2 <= 0 ->
        formatFluxResults isoDateParse 0 threeRows limitTwo = Returned mapped)
    /\ ((forall o, limitTwo = Some o -> limit o = None) ->
        formatFluxResults isoDateParse 0 threeRows limitTwo = Returned mapped)
    /\ formatFluxResults isoDateParse 0 []
         (Some (mkFormatOptions None None None)) = Returned [].
Proof.
  apply (@formatFluxResults_limit isoDateParse 0 threeRows limitTwo).
  reflexivity.
Defined.

(** C5 as stated fails: the first of these two rows maps, the
    limit is 1, and the call raises on the second row instead of returning
    the first mapped row. *)
Lemma formatFluxResults_limit_raises :
  limitOf (Some (mkFormatOptions None None (Some 1))) = 1
  /\ formatRow isoDateParse 0 iso [("_value", JsNum (num 1))]
     = Returned [("_value", JsNum (num 1))]
  /\ formatFluxResults isoDateParse 0 rowsWithInvalidDate
       (Some (mkFormatOptions None None (Some 1)))
     = Thrown (RangeError "Invalid time value")
  /\ ~ returns (formatFluxResults isoDateParse 0 rowsWithInvalidDate
                  (Some (mkFormatOptions None None (Some 1)))).
Proof.
  repeat split. intros [out H]. discriminate.
Qed.

(** ** formatFluxResults: the [_time] of an output row *)

Lemma getProp_defineProp_same (k : string) (v : JsValue) (o : Row) :
  getProp k (defineProp k v o) = Some v.
Proof.
  induction o as [|[k' v'] o IH]; simpl.
  - now rewrite String.eqb_refl.
  - destruct (String.eqb_spec k' k) as [->|N]; simpl.
    + now rewrite String.eqb_refl.
    + apply String.eqb_neq in N. now rewrite N.
Qed.

Lemma getProp_defineProp_other (k k' : string) (v : JsValue) (o : Row) :
  k <> k' -> getProp k (defineProp k' v o) = getProp k o.
Proof.
  intros N. induction o as [|[k0 v0] o IH]; simpl.
  - destruct (String.eqb_spec k' k); [congruence | reflexivity].
  - destruct (String.eqb_spec k0 k') as [->|N0]; simpl.
    + destruct (String.eqb_spec k' k); [congruence | reflexivity].
    + destruct (String.eqb_spec k0 k); [reflexivity | exact IH].
Qed.

Lemma getProp_setProp_same (k : string) (v : JsValue) (o : Row) :
  k <> "__proto__" -> getProp k (setProp k v o) = Some v.
Proof.
  intros N. unfold setProp. apply String.eqb_neq in N. rewrite N.
  apply getProp_defineProp_same.
Qed.

Lemma getProp_setProp_other (k k' : string) (v : JsValue) (o : Row) :
  k <> k' -> getProp k (setProp k' v o) = getProp k o.
Proof.
  intros N. unfold setProp.
  destruct (k' =? "__proto__")%string; [reflexivity|].
  now apply getProp_defineProp_other.
Qed.

Section TimeOfRow.

Variable dateParse : string -> Date.
Variable now : Z.
Variable f : TimestampFormat.

(** An entry under another key leaves [_time] as it is. *)
Lemma formatEntry_other_key (acc : Row) (k : string) (x : JsValue) :
  k <> "_time" ->
  exists acc', formatEntry dateParse now f acc (k, x) = Returned acc'
               /\ getProp "_time" acc' = getProp "_time" acc.
Proof.
  intros N. unfold formatEntry. pose proof N as N'.
  apply String.eqb_neq in N'. rewrite N'. simpl.
  assert (getProp "_time" (setProp k x acc) = getProp "_time" acc) as E
    by (apply getProp_setProp_other; congruence).
  destruct ((k =? "_measurement") || (k =? "_field"))%string; [eauto|].
  destruct (k =? "_value")%string; [eauto|].
  destruct (negb (k =? "table") && negb (k =? "result"))%string; eauto.
Qed.

Lemma formatRow_no_time (row : Row) :
  ~ In "_time" (map fst row) ->
  forall acc, exists out,
    foldM (formatEntry dateParse now f) row acc = Returned out
    /\ getProp "_time" out = getProp "_time" acc.
Proof.
  induction row as [|[k x] row IH]; cbn [foldM map fst In]; intros N acc;
    [eauto|].
  destruct (@formatEntry_other_key acc k x) as (acc' & -> & E); [tauto|].
  cbn [bind]. destruct (IH (fun H => N (or_intror H)) acc') as (out & -> & E').
  exists out. split; [reflexivity | congruence].
Qed.

(** The [_time] of the output row is the formatted [_time] of the input
    row, as a [Date] when the format gives a number. *)
Lemma formatRow_time (row : Row) (v y : JsValue) :
  wfRow row -> getProp "_time" row = Some v -> truthy v = true ->
  formatTimestamp dateParse now v f = Returned y ->
  forall acc, exists out,
    foldM (formatEntry dateParse now f) row acc = Returned out
    /\ getProp "_time" out
       = Some (match y with JsNum n => JsDate (newDate n) | _ => y end).
Proof.
  unfold wfRow. intros W G T F.
  induction row as [|[k x] row IH]; cbn [foldM map fst getProp] in *;
    intros acc; [discriminate|].
  inversion W as [|? ? Hnotin Hnodup]; subst.
  destruct (String.eqb_spec k "_time") as [->|N].
  - injection G as ->.
    unfold formatEntry at 1. rewrite String.eqb_refl, T. cbn [andb].
    rewrite F. cbn [bind].
    destruct (formatRow_no_time row Hnotin
                (setProp "_time"
                   (match y with JsNum n => JsDate (newDate n) | _ => y end)
                   acc)) as (out & -> & E).
    exists out. split; [reflexivity|].
    now rewrite E, getProp_setProp_same.
  - destruct (@formatEntry_other_key acc k x N) as (acc' & -> & _).
    cbn [bind]. apply IH; assumption.
Qed.

End TimeOfRow.

Lemma newDate_num (t : Z) :
  Z.abs t <= maxTimeValue -> newDate (num t) = ValidDate t.
Proof.
  intros H. unfold newDate, num, inject_Z. cbn [Qnum Qden].
  destruct (Z.leb_spec (Z.abs t) (maxTimeValue * 1)); [|lia].
  now rewrite Z.quot_1_r.
Qed.

Lemma formatTimestamp_unix (dateParse : string -> Date) (now : Z)
  (v : JsValue) (t : Z) :
  dateOf dateParse v = Some (ValidDate t) ->
  formatTimestamp dateParse now v unix = Returned (JsNum (num t)).
Proof.
  unfold dateOf, formatTimestamp.
  destruct v as [| | b | n |z|s|d|dt|l|o|o']; try discriminate;
    intros H; injection H as H; simpl; now rewrite H.
Qed.

(** C6, amended. Under [unix], a row whose [_time] is present
    and denotes the valid instant [t] gives an output row whose [_time] is
    a [Date] object with time value [t]: the integer that
    [formatTimestamp] returns for it, wrapped by [new Date]. *)
Theorem formatFluxResults_unix_time (dateParse : string -> Date) (now : Z)
  (rows : list Row) (options : option IFormatOptions)
  (i : nat) (row : Row) (v : JsValue) (t : Z) :
  timestampFormatOf options = unix ->
  forallb (rowFormats dateParse unix) rows = true ->
  nth_error rows i = Some row ->
  wfRow row ->
  getProp "_time" row = Some v ->
  truthy v = true ->
  dateOf dateParse v = Some (ValidDate t) ->
  Z.abs t <= maxTimeValue ->
  formatTimestamp dateParse now v unix = Returned (JsNum (num t))
  /\ exists out,
       formatFluxResults dateParse now rows options = Returned out
       /\ (forall outRow, nth_error out i = Some outRow ->
           getProp "_time" outRow = Some (JsDate (ValidDate t)))
       /\ (limitOf options <= 0 \/ Z.of_nat i < limitOf options ->
           exists outRow, nth_error out i = Some outRow).
Proof.
  intros Hf Hrows Hi W G T D Ht.
  pose proof (formatTimestamp_unix dateParse now v D) as FT.
  split; [assumption|].
  rewrite <- Hf in Hrows.
  destruct (formatFluxResults_mapped dateParse now rows options Hrows)
    as (mapped & F & E).
  destruct (Forall2_nth_error F _ Hi) as (outRow & Ho & Hr).
  rewrite Hf in Hr. unfold formatRow in Hr.
  destruct (@formatRow_time dateParse now unix row v _ W G T FT [])
    as (out' & Hout' & Gt).
  rewrite Hr in Hout'. injection Hout' as <-.
  rewrite newDate_num in Gt by assumption.
  eexists. split; [exact E|]. split.
  - intros r Hn. destruct (limitOf options >? 0).
    + rewrite nth_error_firstn in Hn.
      destruct (i <? Z.to_nat (limitOf options))%nat; [|discriminate].
      congruence.
    + congruence.
  - intros Hl. exists outRow.
    destruct (Z.gtb_spec (limitOf options) 0); [|assumption].
    rewrite nth_error_firstn.
    destruct (Nat.ltb_spec i (Z.to_nat (limitOf options))); [assumption|lia].
Qed.

Lemma formatFluxResults_unix_time_noon :
  formatTimestamp isoDateParse 0 (JsString "2024-01-01T12:00:00.000Z") unix
  = Returned (JsNum (num noon2024))
  /\ exists out,
       formatFluxResults isoDateParse 0
         [[("_time", JsString "2024-01-01T12:00:00.000Z")]]
         (Some (mkFormatOptions (Some unix) None None)) = Returned out
       /\ (forall outRow, nth_error out 0 = Some outRow ->
           getProp "_time" outRow = Some (JsDate (ValidDate noon2024)))
       /\ (limitOf (Some (mkFormatOptions (Some unix) None None)) <= 0
           \/ Z.of_nat 0
              < limitOf (Some (mkFormatOptions (Some unix) None None)) ->
           exists outRow, nth_error out 0 = Some outRow).
Proof.
  apply (@formatFluxResults_unix_time isoDateParse 0
           [[("_time", JsString "2024-01-01T12:00:00.000Z")]]
           (Some (mkFormatOptions (Some unix) None None)) 0%nat
           [("_time", JsString "2024-01-01T12:00:00.000Z")]
           (JsString "2024-01-01T12:00:00.000Z") noon2024).
  - reflexivity.
  - reflexivity.
  - reflexivity.
  - repeat constructor. simpl. tauto.
  - reflexivity.
  - reflexivity.
  - vm_compute. reflexivity.
  - vm_compute. discriminate.
Defined.

(** C6 as stated fails: under [unix] the output [_time] of this
    row is a [Date] object, not the integer of milliseconds that
    [formatTimestamp] returns. *)
Lemma formatFluxResults_unix_time_is_a_Date :
  formatTimestamp isoDateParse 0 (JsDate (ValidDate noon2024)) unix
  = Returned (JsNum (num noon2024))
  /\ formatFluxResults isoDateParse 0 [[("_time", JsDate (ValidDate noon2024))]]
       (Some (mkFormatOptions (Some unix) None None))
     = Returned [[("_time", JsDate (ValidDate noon2024))]]
  /\ getProp "_time" [("_time", JsDate (ValidDate noon2024))]
     <> Some (JsNum (num noon2024)).
Proof.
  repeat split. discriminate.
Qed.

(** ** The unit tests of the repository, on the model

    tests/unit/validators.test.ts and tests/unit/formatters.test.ts, with
    [isoDateParse] as the host parser and the clock at 0. *)

Example test_measurement_names :
  accepts (validateMeasurementName (JsString "cpu"))
  /\ accepts (validateMeasurementName (JsString "sensor_123-temp"))
  /\ validateMeasurementName (JsString EmptyString)
     = Returned (failWith "Measurement name is required and must be a string")
  /\ rejects (validateMeasurementName (JsString "cpu usage"))
  /\ rejects (validateMeasurementName (JsString "measurement@special"))
  /\ rejects (validateMeasurementName (JsString "measurement.dot"))
  /\ rejects (validateMeasurementName JsNull)
  /\ rejects (validateMeasurementName JsUndefined).
Proof.
  repeat split; try reflexivity;
    (eexists; split; [vm_compute; reflexivity | discriminate]).
Qed.

Example test_key_names :
  accepts (validateKeyName (JsString "location"))
  /\ accepts (validateKeyName (JsString "sensor-id"))
  /\ (exists e, validateKeyName (JsString "_private") = Returned (failWith e)
                /\ includes e "underscore" = true
                /\ includes e "reserved" = true)
  /\ (exists e, validateKeyName (JsString "key@value") = Returned (failWith e)
                /\ includes e "alphanumeric" = true)
  /\ (exists e, validateKeyName (JsString EmptyString) = Returned (failWith e)
                /\ includes e "required" = true).
Proof.
  repeat split; try reflexivity;
    (eexists; repeat split; vm_compute; reflexivity).
Qed.

Example test_bucket_names :
  accepts (validateBucketName (JsString "test-bucket"))
  /\ accepts (validateBucketName (JsString "data_2024"))
  /\ rejects (validateBucketName (JsString "bucket with spaces"))
  /\ rejects (validateBucketName (JsString "bucket@special"))
  /\ rejects (validateBucketName (JsString EmptyString)).
Proof.
  repeat split; try reflexivity;
    (eexists; split; [vm_compute; reflexivity | discriminate]).
Qed.

Example test_retention_periods :
  accepts (validateRetentionPeriod (JsString "1d"))
  /\ accepts (validateRetentionPeriod (JsString "365d"))
  /\ accepts (validateRetentionPeriod (JsString "24h"))
  /\ accepts (validateRetentionPeriod (JsString "60m"))
  /\ accepts (validateRetentionPeriod (JsString "3600s"))
  /\ accepts (validateRetentionPeriod (JsString "Infinite"))
  /\ rejects (validateRetentionPeriod (JsString EmptyString))
  /\ rejects (validateRetentionPeriod (JsString "30"))
  /\ rejects (validateRetentionPeriod (JsString "30days"))
  /\ rejects (validateRetentionPeriod (JsString "1 year"))
  /\ rejects (validateRetentionPeriod (JsString "forever"))
  /\ rejects (validateRetentionPeriod (JsString "1y")).
Proof.
  repeat split; try reflexivity;
    (eexists; split; [vm_compute; reflexivity | discriminate]).
Qed.

Example test_flux_queries :
  accepts (validateFluxQuery
             (JsString ("from(bucket: " ++ dq ++ "test" ++ dq
                        ++ ") |> range(start: -1h)")))
  /\ rejects (validateFluxQuery (JsString EmptyString))
  /\ validateFluxQuery (JsString "filter(fn: (r) => r.tags[[location])")
     = Returned (failWith "Unbalanced brackets in Flux query").
Proof.
  repeat split; try reflexivity.
  eexists; split; [vm_compute; reflexivity | discriminate].
Qed.

Example test_timestamps :
  accepts (validateTimestamp isoDateParse (JsDate (ValidDate noon2024)))
  /\ accepts (validateTimestamp isoDateParse (JsNum (num 1640000000000)))
  /\ accepts (validateTimestamp isoDateParse (JsNum (num 0)))
  /\ accepts (validateTimestamp isoDateParse (JsString "2024-01-01T00:00:00Z"))
  /\ accepts (validateTimestamp isoDateParse
                (JsString "2024-01-01T00:00:00.000Z"))
  /\ validateTimestamp isoDateParse (JsDate InvalidDate)
     = Returned (failWith "Invalid Date object")
  /\ validateTimestamp isoDateParse (JsNum (num (-1)))
     = Returned (failWith "Timestamp must be a positive finite number")
  /\ rejects (validateTimestamp isoDateParse (JsNum PosInfinity))
  /\ rejects (validateTimestamp isoDateParse (JsNum NaN))
  /\ rejects (validateTimestamp isoDateParse (JsString "invalid-date"))
  /\ rejects (validateTimestamp isoDateParse (JsString "99999999999999999999")).
Proof.
  repeat split; try reflexivity;
    (eexists; split; [vm_compute; reflexivity | discriminate]).
Qed.

Example test_field_values :
  accepts (validateFieldValue (JsNum (num 42)))
  /\ accepts (validateFieldValue (JsNum (Finite (314 # 100))))
  /\ accepts (validateFieldValue (JsNum (num (-10))))
  /\ accepts (validateFieldValue (JsString "hello"))
  /\ accepts (validateFieldValue (JsBoolean false)).
Proof. repeat split. Qed.

Example test_formatFluxResults :
  (exists out, formatFluxResults isoDateParse 0 threeRows
                 (Some (mkFormatOptions (Some iso) None None)) = Returned out
     /\ List.length out = 3%nat
     /\ (exists r, nth_error out 0 = Some r
          /\ getProp "_time" r = Some (JsString "2024-01-01T00:00:00.000Z")
          /\ getProp "_measurement" r = Some (JsString "temperature")
          /\ getProp "_value" r = Some (JsNum (Finite (47 # 2)))
          /\ getProp "location" r = Some (JsString "office")
          /\ getProp "sensor_id" r = Some (JsString "sensor-001")))
  /\ (exists out, formatFluxResults isoDateParse 0 threeRows
                    (Some (mkFormatOptions (Some unix) None None)) = Returned out
     /\ (exists r d, nth_error out 0 = Some r
          /\ getProp "_time" r = Some (JsDate d) /\ typeof (JsDate d) = "object"))
  /\ (exists out, formatFluxResults isoDateParse 0 threeRows limitTwo
                  = Returned out /\ List.length out = 2%nat)
  /\ formatFluxResults isoDateParse 0 [] None = Returned []
  /\ formatFluxResults isoDateParse 0 [[("_time", JsDate (ValidDate 0))]]
       (Some (mkFormatOptions (Some relative) None None))
     = Returned [[("_time", JsString "just now")]].
Proof.
  repeat split; try reflexivity.
  - eexists. split; [vm_compute; reflexivity|]. split; [reflexivity|].
    eexists. repeat split; reflexivity.
  - eexists. split; [vm_compute; reflexivity|].
    do 2 eexists. repeat split; reflexivity.
  - eexists. split; [vm_compute; reflexivity | reflexivity].
Qed.

Example test_formatTimestamp :
  formatTimestamp isoDateParse 0 (JsDate (ValidDate noon2024)) iso
  = Returned (JsString "2024-01-01T12:00:00.000Z")
  /\ formatTimestamp isoDateParse 0 (JsDate (ValidDate noon2024)) unix
     = Returned (JsNum (num noon2024))
  /\ formatTimestamp isoDateParse noon2024 (JsDate (ValidDate noon2024)) relative
     = Returned (JsString "just now")
  /\ formatTimestamp isoDateParse 0 (JsString "2024-01-01T12:00:00.000Z") iso
     = Returned (JsString "2024-01-01T12:00:00.000Z").
Proof. repeat split. Qed.

Example test_getRelativeTime :
  getRelativeTime noon2024 (ValidDate (noon2024 - 30000)) = "30 seconds ago"
  /\ getRelativeTime noon2024 (ValidDate (noon2024 - 300000)) = "5 minutes ago"
  /\ getRelativeTime noon2024 (ValidDate (noon2024 - 7200000)) = "2 hours ago"
  /\ getRelativeTime noon2024 (ValidDate (noon2024 - 172800000)) = "2 days ago"
  /\ getRelativeTime noon2024 (ValidDate (noon2024 - 3600000)) = "1 hour ago".
Proof. repeat split. Qed.

Example test_parseRetentionPeriod :
  parseRetentionPeriod "1d" = Returned (num 86400)
  /\ parseRetentionPeriod "24h" = Returned (num 86400)
  /\ parseRetentionPeriod "60m" = Returned (num 3600)
  /\ parseRetentionPeriod "3600s" = Returned (num 3600)
  /\ throws (parseRetentionPeriod "30days")
  /\ throws (parseRetentionPeriod "bad").
Proof. repeat split; try reflexivity; eexists; vm_compute; reflexivity. Qed.

Example test_formatRetentionPeriod :
  formatRetentionPeriod 86400 = "1d"
  /\ formatRetentionPeriod 2592000 = "30d"
  /\ formatRetentionPeriod 7200 = "2h"
  /\ formatRetentionPeriod 300 = "5m"
  /\ formatRetentionPeriod 45 = "45s"
  /\ formatRetentionPeriod 90 = "90s".
Proof. repeat split. Qed.

(** Numbers beyond the safe integers: rounding to the nearest double,
    overflow, and the decimal that [Number::toString] writes. *)
Example test_numbers :
  toDouble 9007199254740993 = num 9007199254740992
  /\ toDouble 9007199254740995 = num 9007199254740996
  /\ toDouble (2 ^ 1024 - 2 ^ 970) = PosInfinity
  /\ mulNumber (num (2 ^ 53 + 2)) (num 3) = num (3 * 2 ^ 53 + 8)
  /\ mulNumber PosInfinity (num 86400) = PosInfinity
  /\ numberToString 86401 = "86401"
  /\ numberToString (- 12) = "-12"
  /\ numberToString (2 ^ 53) = "9007199254740992"
  /\ numberToString (2 ^ 60) = "1152921504606847000"
  /\ numberToString (2 ^ 63) = "9223372036854776000"
  /\ numberToString (10 ^ 20) = "100000000000000000000"
  /\ numberToString (10 ^ 21) = "1e+21"
  /\ numberToString (2 ^ 70) = "1.1805916207174113e+21"
  /\ numberToString (2 ^ 1024) = "Infinity".
Proof. repeat split; vm_compute; reflexivity. Qed.

(** * Further properties *)

(** ** The name validators, character by character *)

Lemma bool_eq_iff (a b : bool) : (a = true <-> b = true) -> a = b.
Proof. destruct a, b; intros [H1 H2]; auto; symmetry; auto. Qed.

Lemma nameChars_isNameChar (c : ascii) :
  classAccepts false nameChars c = isNameChar c.
Proof.
  assert (forall c, (Bool.eqb (classAccepts false nameChars c) (isNameChar c))
                    = true) as H
    by (apply every_ascii; vm_compute; reflexivity).
  apply Bool.eqb_prop, H.
Qed.

Lemma allChars_ext (p q : ascii -> bool) (s : string) :
  (forall c, p c = q c) -> allChars p s = allChars q s.
Proof.
  intros H. induction s as [|c s IH]; simpl; [reflexivity|].
  now rewrite H, IH.
Qed.

Lemma name_pattern (s : string) :
  matches false (Plus (Class nameChars)) s = isName s.
Proof.
  apply bool_eq_iff. rewrite matches_Lang, Lang_Plus_Class.
  unfold isName. rewrite andb_true_iff, negb_true_iff, String.eqb_neq.
  now rewrite (allChars_ext _ _ s nameChars_isNameChar).
Qed.

Lemma validateMeasurementName_string (s : string) :
  validateMeasurementName (JsString s) =
  Returned
    (if (s =? EmptyString)%string then
       failWith "Measurement name is required and must be a string"
     else if isName s then pass
     else failWith ("Invalid measurement name " ++ dq ++ s ++ dq
                    ++ onlyNameChars)).
Proof.
  unfold validateMeasurementName. destruct s as [|c s]; [reflexivity|].
  set (n := String c s). cbn [truthy typeof asString bind].
  change (negb (negb (n =? EmptyString)%string)
          || negb ("string" =? "string")%string) with false.
  change (n =? EmptyString)%string with false. cbv iota.
  unfold RegExp_test, MEASUREMENT_NAME_REGEX. cbn [body ignoreCase].
  rewrite name_pattern. now destruct (isName n).
Qed.

Lemma validateKeyName_string (s : string) :
  validateKeyName (JsString s) =
  Returned
    (if (s =? EmptyString)%string then
       failWith "Key name is required and must be a string"
     else if startsWith s "_" then
       failWith ("Key " ++ dq ++ s ++ dq
                 ++ " cannot start with underscore (reserved for system use)")
     else if isName s then pass
     else failWith ("Invalid key name " ++ dq ++ s ++ dq ++ onlyNameChars)).
Proof.
  unfold validateKeyName. destruct s as [|c s]; [reflexivity|].
  set (n := String c s). cbn [truthy typeof asString bind].
  change (negb (negb (n =? EmptyString)%string)
          || negb ("string" =? "string")%string) with false.
  change (n =? EmptyString)%string with false. cbv iota.
  unfold RegExp_test, KEY_NAME_REGEX. cbn [body ignoreCase].
  rewrite name_pattern. destruct (startsWith n "_"); [reflexivity|].
  now destruct (isName n).
Qed.

Lemma validateBucketName_string (s : string) :
  validateBucketName (JsString s) =
  Returned
    (if (s =? EmptyString)%string then
       failWith "Bucket name is required and must be a string"
     else if (255 <? String.length s)%nat then
       failWith "Bucket name must be 255 characters or less"
     else if isName s then pass
     else failWith ("Invalid bucket name " ++ dq ++ s ++ dq ++ onlyNameChars)).
Proof.
  unfold validateBucketName. destruct s as [|c s]; [reflexivity|].
  set (n := String c s). cbn [truthy typeof asString bind].
  change (negb (negb (n =? EmptyString)%string)
          || negb ("string" =? "string")%string) with false.
  change (n =? EmptyString)%string with false. cbv iota.
  unfold RegExp_test, BUCKET_NAME_REGEX. cbn [body ignoreCase].
  rewrite name_pattern. destruct (255 <? String.length n)%nat; [reflexivity|].
  now destruct (isName n).
Qed.

Lemma isName_nonempty (s : string) : isName s = true -> s <> EmptyString.
Proof.
  unfold isName. intros H. apply andb_true_iff in H as [H _].
  now apply negb_true_iff, String.eqb_neq in H.
Qed.

Lemma not_string_rejected (v : JsValue) :
  (forall s, v <> JsString s) ->
  ~ accepts (validateMeasurementName v)
  /\ ~ accepts (validateKeyName v)
  /\ ~ accepts (validateBucketName v)
  /\ ~ accepts (validateRetentionPeriod v).
Proof.
  intros H. unfold accepts, validateMeasurementName, validateKeyName,
    validateBucketName, validateRetentionPeriod.
  destruct v as [| | [] | [| | |q] |z|s|d|dt|l|o|o']; simpl;
    try (repeat apply conj; discriminate).
  - destruct (negb (Qnum q =? 0)); simpl; repeat apply conj; discriminate.
  - destruct (negb (z =? 0)); simpl; repeat apply conj; discriminate.
  - exfalso. now apply (H s).
Qed.

Lemma rejects_iff_not_accepts (c : Completion IValidationResult) :
  returnsWf c -> (rejects c <-> ~ accepts c).
Proof.
  intros W. rewrite (rejects_valid W), (accepts_valid W).
  destruct W as (r & -> & _). split.
  - intros (r' & E & Hv) (r'' & E' & Hv'). congruence.
  - intros N. exists r. split; [reflexivity|].
    destruct (valid r) eqn:Hv; [|reflexivity]. exfalso. apply N. eauto.
Qed.

Lemma accepted_is_string (v : JsValue) :
  accepts (validateMeasurementName v) \/ accepts (validateKeyName v)
  \/ accepts (validateBucketName v) \/ accepts (validateRetentionPeriod v) ->
  exists s, v = JsString s.
Proof.
  intros H.
  assert ((exists s, v = JsString s) \/ forall s, v <> JsString s) as [E|N].
  { destruct v; try (right; discriminate). left. eauto. }
  - exact E.
  - destruct (not_string_rejected N) as (A & B & C & D). tauto.
Qed.

(** X1. [validateMeasurementName] accepts exactly the non-empty strings made
    of letters, digits, underscores and hyphens; it rejects every other
    value, the empty string with the message for a missing name. *)
Theorem validateMeasurementName_accepts_exactly (v : JsValue) :
  (accepts (validateMeasurementName v) <->
   exists s, v = JsString s /\ isName s = true)
  /\ (rejects (validateMeasurementName v) <->
      ~ exists s, v = JsString s /\ isName s = true)
  /\ validateMeasurementName (JsString EmptyString)
     = Returned (failWith "Measurement name is required and must be a string").
Proof.
  assert (accepts (validateMeasurementName v) <->
          exists s, v = JsString s /\ isName s = true) as A.
  { split.
    - intros H. destruct (@accepted_is_string v) as [s ->]; [auto|].
      exists s. split; [reflexivity|].
      unfold accepts in H. rewrite validateMeasurementName_string in H.
      destruct (s =? EmptyString)%string; [discriminate|].
      destruct (isName s); [reflexivity | discriminate].
    - intros (s & -> & H). unfold accepts.
      rewrite validateMeasurementName_string, H.
      apply isName_nonempty, String.eqb_neq in H. now rewrite H. }
  split; [exact A|]. split; [|reflexivity].
  rewrite <- A. apply rejects_iff_not_accepts, validateMeasurementName_wf.
Qed.

(** X2. [validateKeyName] accepts exactly the non-empty strings made of
    letters, digits, underscores and hyphens that do not start with an
    underscore; a string that starts with an underscore gets the message
    about the reserved prefix whatever follows. *)
Theorem validateKeyName_accepts_exactly (v : JsValue) :
  (accepts (validateKeyName v) <->
   exists s, v = JsString s /\ isName s = true /\ startsWith s "_" = false)
  /\ (rejects (validateKeyName v) <->
      ~ exists s, v = JsString s /\ isName s = true
                  /\ startsWith s "_" = false)
  /\ (forall s, startsWith s "_" = true ->
      validateKeyName (JsString s)
      = Returned (failWith
          ("Key " ++ dq ++ s ++ dq
           ++ " cannot start with underscore (reserved for system use)"))).
Proof.
  assert (accepts (validateKeyName v) <->
          exists s, v = JsString s /\ isName s = true
                    /\ startsWith s "_" = false) as A.
  { split.
    - intros H. destruct (@accepted_is_string v) as [s ->]; [auto|].
      exists s. split; [reflexivity|].
      unfold accepts in H. rewrite validateKeyName_string in H.
      destruct (s =? EmptyString)%string; [discriminate|].
      destruct (startsWith s "_"); [discriminate|].
      destruct (isName s); [auto | discriminate].
    - intros (s & -> & H & P). unfold accepts.
      rewrite validateKeyName_string, H, P.
      apply isName_nonempty, String.eqb_neq in H. now rewrite H. }
  split; [exact A|]. split.
  - rewrite <- A. apply rejects_iff_not_accepts, validateKeyName_wf.
  - intros s P. rewrite validateKeyName_string, P.
    destruct s; [discriminate | reflexivity].
Qed.

(** X3. [validateBucketName] accepts exactly the strings of 1 to 255
    letters, digits, underscores and hyphens; a longer string gets the
    message about the length, whatever its characters. *)
Theorem validateBucketName_accepts_exactly (v : JsValue) :
  (accepts (validateBucketName v) <->
   exists s, v = JsString s /\ isName s = true
             /\ (String.length s <= 255)%nat)
  /\ (rejects (validateBucketName v) <->
      ~ exists s, v = JsString s /\ isName s = true
                  /\ (String.length s <= 255)%nat)
  /\ (forall s, (255 < String.length s)%nat ->
      validateBucketName (JsString s)
      = Returned (failWith "Bucket name must be 255 characters or less")).
Proof.
  assert (accepts (validateBucketName v) <->
          exists s, v = JsString s /\ isName s = true
                    /\ (String.length s <= 255)%nat) as A.
  { split.
    - intros H. destruct (@accepted_is_string v) as [s ->]; [auto|].
      exists s. split; [reflexivity|].
      unfold accepts in H. rewrite validateBucketName_string in H.
      destruct (s =? EmptyString)%string; [discriminate|].
      destruct (Nat.ltb_spec 255 (String.length s)); [discriminate|].
      destruct (isName s); [auto | discriminate].
    - intros (s & -> & H & L). unfold accepts.
      rewrite validateBucketName_string, H.
      apply isName_nonempty, String.eqb_neq in H. rewrite H.
      destruct (Nat.ltb_spec 255 (String.length s)); [lia | reflexivity]. }
  split; [exact A|]. split.
  - rewrite <- A. apply rejects_iff_not_accepts, validateBucketName_wf.
  - intros s L. rewrite validateBucketName_string.
    destruct s as [|c s]; [simpl in L; lia|].
    change (String c s =? EmptyString)%string with false. cbv iota.
    destruct (Nat.ltb_spec 255 (String.length (String c s)));
      [reflexivity | lia].
Qed.

(** ** The retention pattern, character by character *)

Lemma digit_class_i (c : ascii) :
  classAccepts true [("0", "9")%char] c = isDigit c.
Proof.
  assert (forall c, Bool.eqb (classAccepts true [("0", "9")%char] c) (isDigit c)
                    = true) as H
    by (apply every_ascii; vm_compute; reflexivity).
  apply Bool.eqb_prop, H.
Qed.

Lemma unit_class_i (c : ascii) : classAccepts true unitChars c = isUnitLetter c.
Proof.
  assert (forall c, Bool.eqb (classAccepts true unitChars c) (isUnitLetter c)
                    = true) as H
    by (apply every_ascii; vm_compute; reflexivity).
  apply Bool.eqb_prop, H.
Qed.

Lemma lower_letter_canonical (c : ascii) :
  isLowerLetter (toLowerChar c) = true ->
  Canonicalize (toLowerChar c) = Canonicalize c.
Proof.
  assert (forall c, implb (isLowerLetter (toLowerChar c))
                      (Canonicalize (toLowerChar c) =? Canonicalize c)%char
                    = true) as H
    by (apply every_ascii; vm_compute; reflexivity).
  intros L. specialize (H c). rewrite L in H. now apply Ascii.eqb_eq.
Qed.

Lemma Lang_Lit_lower (w : string) :
  allChars isLowerLetter w = true ->
  forall s, toLowerCase s = w -> Lang true (Lit w) s.
Proof.
  induction w as [|a w IH]; intros Hw [|c s] E; simpl in *;
    try discriminate; [constructor|].
  apply andb_true_iff in Hw as [Ha Hw]. injection E as Ec Es.
  change (String c s) with (String c EmptyString ++ s).
  constructor; [|auto].
  constructor. apply classAccepts_single_i. subst a.
  now apply lower_letter_canonical.
Qed.

Lemma retention_pattern (s : string) :
  RegExp_test RETENTION_PERIOD_REGEX s = true <-> isPeriod s.
Proof.
  unfold RegExp_test, RETENTION_PERIOD_REGEX, isPeriod. cbn [body ignoreCase].
  rewrite matches_Lang, Lang_Alt_inv. split.
  - intros [H|H].
    + right. apply Lang_Seq_inv in H as (s1 & s2 & -> & H1 & H2).
      apply Lang_Plus_Class in H1 as [Hne Hd].
      apply Lang_Class_inv in H2 as (u & -> & Hu).
      exists s1, u. rewrite unit_class_i in Hu.
      rewrite (allChars_ext _ _ s1 digit_class_i) in Hd. auto.
    + left. now apply (Lang_Lit_i "infinite" eq_refl).
  - intros [H|(ds & u & -> & Hne & Hd & Hu)].
    + right. now apply Lang_Lit_lower.
    + left. constructor.
      * apply Lang_Plus_Class. split; [assumption|].
        now rewrite (allChars_ext _ _ ds digit_class_i).
      * constructor. now rewrite unit_class_i.
Qed.

Lemma isPeriod_nonempty (s : string) : isPeriod s -> s <> EmptyString.
Proof.
  intros [H|(ds & u & -> & _)] E; subst; [discriminate|].
  now destruct ds.
Qed.

Lemma validateRetentionPeriod_string (s : string) :
  validateRetentionPeriod (JsString s) =
  Returned
    (if (s =? EmptyString)%string then
       failWith "Retention period is required and must be a string"
     else if RegExp_test RETENTION_PERIOD_REGEX s then pass
     else failWith ("Invalid retention period " ++ dq ++ s ++ dq
                    ++ ". Must be in format like " ++ formatLike)).
Proof.
  unfold validateRetentionPeriod. destruct s as [|c s]; [reflexivity|].
  set (n := String c s). cbn [truthy typeof asString bind].
  change (negb (negb (n =? EmptyString)%string)
          || negb ("string" =? "string")%string) with false.
  change (n =? EmptyString)%string with false. cbv iota.
  now destruct (RegExp_test RETENTION_PERIOD_REGEX n).
Qed.

Lemma period_accepted (s : string) :
  accepts (validateRetentionPeriod (JsString s)) <-> isPeriod s.
Proof.
  unfold accepts. rewrite validateRetentionPeriod_string. split.
  - intros H. apply retention_pattern.
    destruct (s =? EmptyString)%string; [discriminate|].
    destruct (RegExp_test RETENTION_PERIOD_REGEX s); [reflexivity|discriminate].
  - intros H. pose proof (isPeriod_nonempty H) as N.
    apply String.eqb_neq in N. rewrite N.
    apply retention_pattern in H. now rewrite H.
Qed.

(** X4. [validateRetentionPeriod] accepts exactly the strings that are one
    or more digits followed by one of d, h, m, s in either case, or the
    word infinite in any case; so a bare number, a year suffix and a
    period with white space around it are rejected. *)
Theorem validateRetentionPeriod_accepts_exactly (v : JsValue) :
  (accepts (validateRetentionPeriod v) <->
   exists s, v = JsString s /\ isPeriod s)
  /\ (rejects (validateRetentionPeriod v) <->
      ~ exists s, v = JsString s /\ isPeriod s)
  /\ rejects (validateRetentionPeriod (JsString "30"))
  /\ rejects (validateRetentionPeriod (JsString "1y"))
  /\ rejects (validateRetentionPeriod (JsString " 30d")).
Proof.
  assert (accepts (validateRetentionPeriod v) <->
          exists s, v = JsString s /\ isPeriod s) as A.
  { split.
    - intros H. destruct (@accepted_is_string v) as [s ->]; [auto|].
      exists s. split; [reflexivity | now apply period_accepted].
    - intros (s & -> & H). now apply period_accepted. }
  split; [exact A|]. split.
  - rewrite <- A. apply rejects_iff_not_accepts, validateRetentionPeriod_wf.
  - repeat split;
      (eexists; split; [vm_compute; reflexivity | discriminate]).
Qed.

(** ** What parseRetentionPeriod returns *)



Lemma unitSeconds_pos (u : ascii) :
  In u ["d"; "h"; "m"; "s"]%char -> 0 < unitSeconds u.
Proof. intros [<-|[<-|[<-|[<-|[]]]]]; reflexivity. Qed.



(** Beyond the safe integers the result is the nearest double of the
    product, and infinity from 309 digits on. *)
Example parseRetentionPeriod_rounds :
  parseRetentionPeriod "9007199254740993s" = Returned (num 9007199254740992)
  /\ parseRetentionPeriod
       (String "1" (string_of_list_ascii (repeat "0"%char 309)) ++ "d")
     = Returned PosInfinity.
Proof. split; vm_compute; reflexivity. Qed.

(** ** The form of a formatted retention period *)

Lemma formatRetentionPeriod_shape (seconds : Z) :
  0 < seconds ->
  exists n u,
    formatRetentionPeriod seconds = numberToString n ++ String u EmptyString
    /\ 0 < n /\ In u ["d"; "h"; "m"; "s"]%char
    /\ n * unitSeconds u = seconds
    /\ (forall u', In u' ["d"; "h"; "m"; "s"]%char ->
        unitSeconds u < unitSeconds u' -> Z.rem seconds (unitSeconds u') <> 0).
Proof.
  intros H. unfold formatRetentionPeriod.
  assert (forall k, 0 < k -> Z.rem seconds k = 0 ->
            Z.quot seconds k * k = seconds /\ 0 < Z.quot seconds k) as Q.
  { intros k Hk Hr. pose proof (Z.quot_rem' seconds k) as E.
    rewrite Hr in E. split; [lia|].
    assert (0 <= Z.quot seconds k) by (apply Z.quot_pos; lia). nia. }
  destruct (Z.eqb_spec seconds 0) as [->|Hz]; [lia|].
  assert (forall u', In u' ["d"; "h"; "m"; "s"]%char ->
          u' = "d"%char \/ u' = "h"%char \/ u' = "m"%char \/ u' = "s"%char)
    as U by (simpl; intuition).
  destruct (Z.eqb_spec (Z.rem seconds 86400) 0) as [Hd|Hd].
  { destruct (Q 86400 ltac:(lia) Hd) as [E P].
    exists (Z.quot seconds 86400), "d"%char.
    split; [reflexivity|]. split; [assumption|].
    split; [simpl; tauto|]. split; [exact E|].
    intros u' Hu'. destruct (U u' Hu') as [-> | [-> | [-> | ->]]];
      vm_compute; discriminate. }
  destruct (Z.eqb_spec (Z.rem seconds 3600) 0) as [Hh|Hh].
  { destruct (Q 3600 ltac:(lia) Hh) as [E P].
    exists (Z.quot seconds 3600), "h"%char.
    split; [reflexivity|]. split; [assumption|].
    split; [simpl; tauto|]. split; [exact E|].
    intros u' Hu'. destruct (U u' Hu') as [-> | [-> | [-> | ->]]];
      try (vm_compute; discriminate). intros _. exact Hd. }
  destruct (Z.eqb_spec (Z.rem seconds 60) 0) as [Hm|Hm].
  { destruct (Q 60 ltac:(lia) Hm) as [E P].
    exists (Z.quot seconds 60), "m"%char.
    split; [reflexivity|]. split; [assumption|].
    split; [simpl; tauto|]. split; [exact E|].
    intros u' Hu'. destruct (U u' Hu') as [-> | [-> | [-> | ->]]];
      try (vm_compute; discriminate); intros _; assumption. }
  exists seconds, "s"%char.
  split; [reflexivity|]. split; [assumption|].
  split; [simpl; tauto|]. split; [change (unitSeconds "s") with 1; lia|].
  intros u' Hu'. destruct (U u' Hu') as [-> | [-> | [-> | ->]]];
    try (vm_compute; discriminate); intros _; assumption.
Qed.

(** X8. For a positive number of seconds, [formatRetentionPeriod] gives a
    positive count followed by one unit letter, the count times the
    seconds of the unit is the input, and no larger unit divides the
    input: the form is the one with the largest unit. *)
Theorem formatRetentionPeriod_largest_unit (seconds : Z) :
  0 < seconds ->
  exists n u,
    formatRetentionPeriod seconds = numberToString n ++ String u EmptyString
    /\ 0 < n /\ In u ["d"; "h"; "m"; "s"]%char
    /\ n * unitSeconds u = seconds
    /\ (forall u', In u' ["d"; "h"; "m"; "s"]%char ->
        unitSeconds u < unitSeconds u' -> Z.rem seconds (unitSeconds u') <> 0).
Proof. apply formatRetentionPeriod_shape. Qed.

Lemma formatRetentionPeriod_largest_unit_7200 :
  exists n u,
    formatRetentionPeriod 7200 = numberToString n ++ String u EmptyString
    /\ 0 < n /\ In u ["d"; "h"; "m"; "s"]%char
    /\ n * unitSeconds u = 7200
    /\ (forall u', In u' ["d"; "h"; "m"; "s"]%char ->
        unitSeconds u < unitSeconds u' -> Z.rem 7200 (unitSeconds u') <> 0).
Proof. apply (@formatRetentionPeriod_largest_unit 7200). lia. Defined.

Lemma numberToString_negative (z : Z) :
  z < 0 -> exists r, numberToString z = String "-" r.
Proof.
  intros H. unfold numberToString.
  destruct (Z.ltb_spec z 0); [|lia].
  destruct (toDouble (Z.abs z)); eauto.
Qed.

Lemma not_period_minus (r : string) : ~ isPeriod (String "-" r).
Proof.
  intros [H|(ds & u & E & Hne & Hd & Hu)].
  - simpl in H. discriminate.
  - destruct ds as [|c ds]; [congruence|]. simpl in E, Hd.
    injection E as <- _. discriminate.
Qed.

(** X7. For a number of seconds up to [maxSafeInteger], the string that
    [formatRetentionPeriod] gives is a valid retention period for
    [validateRetentionPeriod] exactly when the number is not negative.
    Beyond the safe integers the string can have an exponent and is then
    not valid: so for 10^21. *)
Theorem formatted_period_is_valid (seconds : Z) :
  seconds <= maxSafeInteger ->
  (accepts (validateRetentionPeriod (JsString (formatRetentionPeriod seconds)))
   <-> 0 <= seconds)
  /\ rejects (validateRetentionPeriod
                (JsString (formatRetentionPeriod (10 ^ 21)))).
Proof.
  intros B. split.
  2:{ exists ("Invalid retention period " ++ dq ++ "1e+21s" ++ dq
              ++ ". Must be in format like " ++ formatLike).
      split; [vm_compute; reflexivity | discriminate]. }
  rewrite period_accepted. split.
  - intros H. destruct (Z.le_gt_cases 0 seconds) as [L|L]; [assumption|].
    exfalso.
    assert (exists r, formatRetentionPeriod seconds = String "-" r)
      as [r E].
    { unfold formatRetentionPeriod.
      assert (forall k, 0 < k -> Z.rem seconds k = 0 -> Z.quot seconds k < 0)
        as Q.
      { intros k Hk Hr. pose proof (Z.quot_rem' seconds k) as E.
        rewrite Hr in E. nia. }
      destruct (Z.eqb_spec seconds 0); [lia|].
      destruct (Z.eqb_spec (Z.rem seconds 86400) 0) as [Hd|Hd].
      { destruct (numberToString_negative (Q 86400 ltac:(lia) Hd)) as [r ->].
        simpl. eauto. }
      destruct (Z.eqb_spec (Z.rem seconds 3600) 0) as [Hh|Hh].
      { destruct (numberToString_negative (Q 3600 ltac:(lia) Hh)) as [r ->].
        simpl. eauto. }
      destruct (Z.eqb_spec (Z.rem seconds 60) 0) as [Hm|Hm].
      { destruct (numberToString_negative (Q 60 ltac:(lia) Hm)) as [r ->].
        simpl. eauto. }
      destruct (numberToString_negative L) as [r ->]. simpl. eauto. }
    rewrite E in H. now apply not_period_minus in H.
  - intros H. destruct (Z.eq_dec seconds 0) as [->|N].
    + left. reflexivity.
    + destruct (@formatRetentionPeriod_shape seconds ltac:(lia))
        as (n & u & -> & Hn & Hu & E & _).
      pose proof (unitSeconds_pos Hu) as U.
      destruct (@numberToString_nonneg n ltac:(nia)) as (Hne & Hd & _).
      right. exists (numberToString n), u. repeat split; try assumption.
      destruct Hu as [<-|[<-|[<-|[<-|[]]]]]; reflexivity.
Qed.

Lemma formatted_period_is_valid_3600 :
  (accepts (validateRetentionPeriod (JsString (formatRetentionPeriod 3600)))
   <-> 0 <= 3600)
  /\ rejects (validateRetentionPeriod
                (JsString (formatRetentionPeriod (10 ^ 21)))).
Proof.
  apply (@formatted_period_is_valid 3600). vm_compute. discriminate.
Defined.

(** ** getRelativeTime on the past *)



(** ** validateTimestamp *)


(** ** formatTimestamp and formatFluxResults: when they raise *)


Lemma forallb_false_exists {A : Type} (p : A -> bool) (l : list A) :
  forallb p l = false <-> exists x, In x l /\ p x = false.
Proof.
  induction l as [|a l IH]; simpl.
  - split; [discriminate | intros (x & [] & _)].
  - rewrite andb_false_iff, IH. split.
    + intros [H|(x & Hin & Hx)]; eauto.
    + intros (x & [->|Hin] & Hx); eauto.
Qed.

Lemma formatFluxResults_throws_exists (dateParse : string -> Date) (now : Z)
  (rows : list Row) (options : option IFormatOptions) :
  throws (formatFluxResults dateParse now rows options) <->
  exists row v,
    In row rows /\ In ("_time", v) row /\ truthy v = true
    /\ throws (formatTimestamp dateParse now v (timestampFormatOf options)).
Proof.
  set (f := timestampFormatOf options).
  assert (forallb (rowFormats dateParse f) rows = false <->
          exists row v,
            In row rows /\ In ("_time", v) row /\ truthy v = true
            /\ throws (formatTimestamp dateParse now v f)) as B.
  { rewrite forallb_false_exists. split.
    - intros (row & Hin & Hr). unfold rowFormats in Hr.
      apply forallb_false_exists in Hr as ([k v] & Hk & He).
      unfold entryFormats in He. simpl in He.
      apply orb_false_iff in He as [H1 H2].
      apply negb_false_iff, andb_true_iff in H1 as [Ek Tv].
      apply String.eqb_eq in Ek. subst k.
      exists row, v. repeat split; try assumption.
      now apply formatTimestamp_throws.
    - intros (row & v & Hin & Hv & Tv & Th).
      exists row. split; [assumption|].
      unfold rowFormats. apply forallb_false_exists.
      exists ("_time", v). split; [assumption|].
      unfold entryFormats. simpl. rewrite Tv. simpl.
      destruct (timeFormats dateParse f v) eqn:E; [|reflexivity].
      exfalso. revert Th. apply returns_not_throws.
      now apply formatTimestamp_returns. }
  rewrite <- B. split.
  - intros Th. destruct (forallb _ rows) eqn:E; [|reflexivity].
    exfalso. revert Th. apply returns_not_throws.
    destruct (formatFluxResults_mapped dateParse now rows options E)
      as (mapped & _ & ->). eexists. reflexivity.
  - apply formatFluxResults_raises.
Qed.

(** X10. [formatFluxResults] raises exactly when some row has a [_time]
    that is truthy and that [formatTimestamp] cannot format under the
    chosen format; otherwise it returns. The limit plays no part: a row
    beyond the limit makes the call raise as well. *)
Theorem formatFluxResults_raises_exactly (dateParse : string -> Date) (now : Z)
  (rows : list Row) (options : option IFormatOptions) :
  (throws (formatFluxResults dateParse now rows options) <->
   exists row v,
     In row rows /\ In ("_time", v) row /\ truthy v = true
     /\ throws (formatTimestamp dateParse now v (timestampFormatOf options)))
  /\ (returns (formatFluxResults dateParse now rows options) <->
      ~ exists row v,
          In row rows /\ In ("_time", v) row /\ truthy v = true
          /\ throws (formatTimestamp dateParse now v
                       (timestampFormatOf options))).
Proof.
  pose proof (formatFluxResults_throws_exists dateParse now rows options) as T.
  split; [exact T|].
  rewrite <- T. split.
  - apply returns_not_throws.
  - intros N. destruct (formatFluxResults dateParse now rows options)
      as [a|e]; [eexists; reflexivity|].
    exfalso. apply N. eexists. reflexivity.
Qed.

(** ** formatFluxResults: the other keys of a row *)

Lemma getProp_not_in (k : string) (o : Row) :
  ~ In k (map fst o) -> getProp k o = None.
Proof.
  induction o as [|[k' v] o IH]; simpl; intros N; [reflexivity|].
  destruct (String.eqb_spec k' k) as [->|_]; [tauto|]. apply IH. tauto.
Qed.

Section OtherKeys.

Variable dateParse : string -> Date.
Variable now : Z.
Variable f : TimestampFormat.
Variable k : string.
Hypothesis k_not_time : k <> "_time".

Lemma formatEntry_get (acc acc' : Row) (k' : string) (x : JsValue) :
  formatEntry dateParse now f acc (k', x) = Returned acc' ->
  getProp k acc' =
    if (k' =? k)%string then (if dropped k then getProp k acc else Some x)
    else getProp k acc.
Proof.
  unfold formatEntry, dropped.
  destruct (String.eqb_spec k' k) as [->|N].
  - pose proof k_not_time as T. apply String.eqb_neq in T. rewrite T.
    cbn [andb].
    destruct (String.eqb_spec k "_measurement") as [->|M]; cbn [orb].
    { intros H. injection H as <-. now rewrite getProp_setProp_same. }
    destruct (String.eqb_spec k "_field") as [->|F].
    { intros H. injection H as <-. now rewrite getProp_setProp_same. }
    destruct (String.eqb_spec k "_value") as [->|V].
    { intros H. injection H as <-. now rewrite getProp_setProp_same. }
    destruct (k =? "table")%string; cbn [negb andb orb].
    { intros H. now injection H as <-. }
    destruct (k =? "result")%string; cbn [negb andb orb];
      intros H; injection H as <-; [reflexivity|].
    destruct (String.eqb_spec k "__proto__") as [->|P]; [reflexivity|].
    now rewrite getProp_setProp_same.
  - destruct ((k' =? "_time")%string && truthy x).
    + destruct (formatTimestamp dateParse now x f) as [y|e]; cbn [bind];
        [|discriminate].
      intros H. injection H as <-. apply getProp_setProp_other.
      exact k_not_time.
    + assert (getProp k (setProp k' x acc) = getProp k acc) as E
        by (apply getProp_setProp_other; congruence).
      destruct ((k' =? "_measurement") || (k' =? "_field"))%string;
        [intros H; now injection H as <-|].
      destruct (k' =? "_value")%string; [intros H; now injection H as <-|].
      destruct (negb (k' =? "table") && negb (k' =? "result"))%string;
        intros H; now injection H as <-.
Qed.

Lemma formatRow_get (row : Row) :
  wfRow row ->
  forall acc out,
  foldM (formatEntry dateParse now f) row acc = Returned out ->
  getProp k out =
    match getProp k row with
    | Some x => if dropped k then getProp k acc else Some x
    | None => getProp k acc
    end.
Proof.
  unfold wfRow. induction row as [|[k' x] row IH];
    cbn [foldM map fst getProp]; intros W acc out H.
  - now injection H as <-.
  - inversion W as [|? ? Hnotin Hnodup]; subst.
    destruct (formatEntry dateParse now f acc (k', x)) as [acc'|e] eqn:E;
      cbn [bind] in H; [|discriminate].
    rewrite (IH Hnodup _ _ H), (formatEntry_get _ _ _ E).
    destruct (String.eqb_spec k' k) as [->|N].
    + now rewrite (getProp_not_in _ _ Hnotin).
    + destruct (getProp k row); [|reflexivity].
      now destruct (dropped k).
Qed.

End OtherKeys.

Lemma formatRow_falsy_time (dateParse : string -> Date) (now : Z)
  (f : TimestampFormat) (row : Row) (v : JsValue) :
  wfRow row -> getProp "_time" row = Some v -> truthy v = false ->
  forall acc out,
  foldM (formatEntry dateParse now f) row acc = Returned out ->
  getProp "_time" out = Some v.
Proof.
  unfold wfRow. intros W G T.
  induction row as [|[k x] row IH]; cbn [foldM map fst getProp] in *;
    intros acc out H; [discriminate|].
  inversion W as [|? ? Hnotin Hnodup]; subst.
  destruct (String.eqb_spec k "_time") as [->|N].
  - injection G as ->.
    unfold formatEntry at 1 in H. rewrite String.eqb_refl, T in H.
    cbn [andb orb negb bind] in H.
    change (("_time" =? "_measurement") || ("_time" =? "_field"))%string
      with false in H.
    change ("_time" =? "_value")%string with false in H.
    change (negb ("_time" =? "table") && negb ("_time" =? "result"))%string
      with true in H. cbv iota in H. cbn [bind] in H.
    destruct (formatRow_no_time dateParse now f row Hnotin
                (setProp "_time" v acc)) as (out' & Ho & E).
    rewrite Ho in H. injection H as <-.
    now rewrite E, getProp_setProp_same.
  - destruct (@formatEntry_other_key dateParse now f acc k x N)
      as (acc' & E & _).
    rewrite E in H. cbn [bind] in H. eapply IH; eauto.
Qed.

(** X11. In the output of a row, the keys [table], [result] and
    [__proto__] are absent: the first two are left out, and an assignment
    to [__proto__] makes no property. Every other key except [_time] has
    the value it has in the input row, or is absent as it is there. A
    [_time] that is absent stays absent, and a [_time] that is falsy (an
    empty string, null, 0) is copied as it is, without re-encoding. *)
Theorem formatRow_other_keys (dateParse : string -> Date) (now : Z)
  (f : TimestampFormat) (row out : Row) :
  wfRow row ->
  formatRow dateParse now f row = Returned out ->
  getProp "table" out = None
  /\ getProp "result" out = None
  /\ getProp "__proto__" out = None
  /\ (forall k, k <> "_time" -> k <> "table" -> k <> "result" ->
      k <> "__proto__" -> getProp k out = getProp k row)
  /\ (getProp "_time" row = None -> getProp "_time" out = None)
  /\ (forall v, getProp "_time" row = Some v -> truthy v = false ->
      getProp "_time" out = Some v).
Proof.
  unfold formatRow. intros W H.
  split; [|split; [|split; [|split; [|split]]]].
  - rewrite (@formatRow_get dateParse now f "table" ltac:(discriminate)
               row W [] out H).
    now destruct (getProp "table" row).
  - rewrite (@formatRow_get dateParse now f "result" ltac:(discriminate)
               row W [] out H).
    now destruct (getProp "result" row).
  - rewrite (@formatRow_get dateParse now f "__proto__" ltac:(discriminate)
               row W [] out H).
    now destruct (getProp "__proto__" row).
  - intros k Kt Ka Kr Kp.
    rewrite (@formatRow_get dateParse now f k Kt row W [] out H).
    unfold dropped. apply String.eqb_neq in Ka, Kr, Kp. rewrite Ka, Kr, Kp.
    now destruct (getProp k row).
  - intros G.
    assert (~ In "_time" (map fst row)) as N.
    { clear - G. induction row as [|[k x] row IH]; simpl in *; [tauto|].
      destruct (String.eqb_spec k "_time"); [discriminate|].
      intros [E|I]; [congruence | now apply IH]. }
    destruct (formatRow_no_time dateParse now f row N []) as (out' & Ho & E).
    rewrite Ho in H. now injection H as <-.
  - intros v G T. eapply formatRow_falsy_time; eauto.
Qed.

Lemma formatRow_other_keys_fixture :
  getProp "table"
    [("_time", JsString EmptyString); ("location", JsString "office")] = None
  /\ getProp "result"
       [("_time", JsString EmptyString); ("location", JsString "office")]
     = None
  /\ getProp "__proto__"
       [("_time", JsString EmptyString); ("location", JsString "office")]
     = None
  /\ (forall k, k <> "_time" -> k <> "table" -> k <> "result" ->
      k <> "__proto__" ->
      getProp k
        [("_time", JsString EmptyString); ("location", JsString "office")]
      = getProp k
          [("result", JsString "_result"); ("table", JsNum (num 0));
           ("__proto__", JsNull);
           ("_time", JsString EmptyString); ("location", JsString "office")])
  /\ (getProp "_time"
        [("result", JsString "_result"); ("table", JsNum (num 0));
         ("__proto__", JsNull);
         ("_time", JsString EmptyString); ("location", JsString "office")]
      = None ->
      getProp "_time"
        [("_time", JsString EmptyString); ("location", JsString "office")]
      = None)
  /\ (forall v,
      getProp "_time"
        [("result", JsString "_result"); ("table", JsNum (num 0));
         ("__proto__", JsNull);
         ("_time", JsString EmptyString); ("location", JsString "office")]
      = Some v -> truthy v = false ->
      getProp "_time"
        [("_time", JsString EmptyString); ("location", JsString "office")]
      = Some v).
Proof.
  apply (@formatRow_other_keys isoDateParse 0 iso
           [("result", JsString "_result"); ("table", JsNum (num 0));
            ("__proto__", JsNull);
            ("_time", JsString EmptyString); ("location", JsString "office")]
           [("_time", JsString EmptyString); ("location", JsString "office")]).
  - repeat constructor; simpl; intuition discriminate.
  - reflexivity.
Defined.

(** ** formatBucketInfo *)

Lemma num_inj (a b : Z) : num a = num b -> a = b.
Proof. unfold num, inject_Z. intros H. now injection H. Qed.

(** X13. The retention that [formatBucketInfo] shows for a bucket whose
    first retention rule has a number of seconds from 0 to
    [maxSafeInteger] (0 when the bucket has no rule) is a valid retention
    period, [parseRetentionPeriod] reads the seconds of the rule back from
    it, and it is infinite exactly when the seconds are 0. *)
Theorem formatBucketInfo_retention (bucket : Bucket.t) :
  0 <= firstRuleSeconds bucket <= maxSafeInteger ->
  exists retention,
    getProp "retention" (formatBucketInfo bucket) = Some (JsString retention)
    /\ accepts (validateRetentionPeriod (JsString retention))
    /\ parseRetentionPeriod retention
       = Returned (num (firstRuleSeconds bucket))
    /\ (retention = "infinite" <-> firstRuleSeconds bucket = 0).
Proof.
  intros H. exists (formatRetentionPeriod (firstRuleSeconds bucket)).
  split; [reflexivity|].
  pose proof (format_then_parse H) as P.
  split; [|split; [exact P|]].
  - apply period_accepted.
    destruct (Z.eqb_spec (firstRuleSeconds bucket) 0) as [->|N];
      [left; reflexivity|].
    destruct (@formatRetentionPeriod_shape (firstRuleSeconds bucket)
                ltac:(lia)) as (n & u & -> & Hn & Hu & E & _).
    pose proof (unitSeconds_pos Hu) as U.
    destruct (@numberToString_nonneg n ltac:(nia)) as (Hne & Hd & _).
    right. exists (numberToString n), u. repeat split; try assumption.
    destruct Hu as [<-|[<-|[<-|[<-|[]]]]]; reflexivity.
  - split.
    + intros E. rewrite E in P. apply num_inj.
      change (parseRetentionPeriod "infinite") with (Returned (num 0)) in P.
      congruence.
    + intros ->. reflexivity.
Qed.

Lemma formatBucketInfo_retention_two_rules :
  0 <= 2592000 <= maxSafeInteger
  /\ exists retention,
       getProp "retention"
         (formatBucketInfo
            (Bucket.make (Some "bucket-001") "test-bucket" (Some "org-001")
               (Some [mkRetentionRule 2592000; mkRetentionRule 60])
               None None None))
       = Some (JsString retention)
       /\ accepts (validateRetentionPeriod (JsString retention))
       /\ parseRetentionPeriod retention = Returned (num 2592000)
       /\ (retention = "infinite" <-> 2592000 = 0).
Proof.
  split; [split; vm_compute; discriminate|].
  apply (@formatBucketInfo_retention
           (Bucket.make (Some "bucket-001") "test-bucket" (Some "org-001")
              (Some [mkRetentionRule 2592000; mkRetentionRule 60])
              None None None)).
  split; vm_compute; discriminate.
Defined.

(** ** The bucket and delete operations *)

Lemma validateBucketName_returns (s : string) :
  validateBucketName (JsString s) = Returned pass
  \/ exists e, validateBucketName (JsString s) = Returned (failWith e).
Proof.
  rewrite validateBucketName_string.
  destruct (s =? EmptyString)%string; [eauto|].
  destruct (255 <? String.length s)%nat; [eauto|].
  destruct (isName s); eauto.
Qed.

Lemma validateRetentionPeriod_returns (s : string) :
  validateRetentionPeriod (JsString s) = Returned pass
  \/ exists e, validateRetentionPeriod (JsString s) = Returned (failWith e).
Proof.
  rewrite validateRetentionPeriod_string.
  destruct (s =? EmptyString)%string; [eauto|].
  destruct (RegExp_test RETENTION_PERIOD_REGEX s); eauto.
Qed.

Lemma truthy_string (s : string) :
  truthy (JsString s) = true <-> s <> EmptyString.
Proof.
  cbn [truthy]. rewrite negb_true_iff. apply String.eqb_neq.
Qed.

(** A [try] block whose handler re-raises as a [NodeOperationError]. *)
Lemma tryCatch_raises {A : Type} (p : Program A) (prefix : string)
  (itemIndex : Z) :
  raisesNodeOperationError itemIndex
    (tryCatch p (fun error =>
       Throw (NodeOperationError (prefix ++ messageOf error) itemIndex))).
Proof.
  unfold raisesNodeOperationError.
  induction p as [a|e'|r k IH]; cbn [tryCatch runs]; intros t e H.
  - destruct H as [_ H]. discriminate.
  - destruct H as [_ H]. injection H as ->. eauto.
  - destruct H as (x & t' & _ & H). eauto.
Qed.

Lemma Throw_raises {A : Type} (message : string) (itemIndex : Z) :
  raisesNodeOperationError itemIndex
    (Throw (A := A) (NodeOperationError message itemIndex)).
Proof.
  intros t e [_ H]. injection H as ->. eauto.
Qed.

Ltac validated H :=
  destruct H as [H|[? H]]; rewrite H;
  cbn [lift bindP valid error failWith pass negb orElse].

(** X17. Whatever the server answers or rejects, the operations that list,
    get, create and update buckets fail only with a [NodeOperationError]
    that carries the index of the item: a rejection of the server, a
    bucket or organization that is not found and a failed validation all
    reach the caller in that form. *)
Theorem bucket_operations_raise_NodeOperationError
  (credentials : IInfluxDbCredentials)
  (bucketName retentionPeriod description : string) (itemIndex : Z) :
  raisesNodeOperationError itemIndex (executeListBuckets credentials itemIndex)
  /\ raisesNodeOperationError itemIndex (executeGetBucket bucketName itemIndex)
  /\ raisesNodeOperationError itemIndex
       (executeCreateBucket credentials bucketName retentionPeriod
          description itemIndex)
  /\ raisesNodeOperationError itemIndex
       (executeUpdateBucket bucketName retentionPeriod description itemIndex).
Proof.
  pose proof (validateBucketName_returns bucketName) as B.
  pose proof (validateRetentionPeriod_returns retentionPeriod) as R.
  repeat apply conj.
  - apply tryCatch_raises.
  - unfold executeGetBucket. validated B;
      [apply tryCatch_raises | apply Throw_raises].
  - unfold executeCreateBucket. validated B; [|apply Throw_raises].
    validated R; [apply tryCatch_raises | apply Throw_raises].
  - unfold executeUpdateBucket. validated B; [|apply Throw_raises].
    destruct (truthy (JsString retentionPeriod)).
    + validated R; [apply tryCatch_raises | apply Throw_raises].
    + cbn [bindP]. apply tryCatch_raises.
Qed.

(** X18. Whatever the server answers or rejects, the three delete
    operations fail only with a [NodeOperationError] that carries the
    index of the item, a missing confirmation included. *)
Theorem delete_operations_raise_NodeOperationError
  (credentials : IInfluxDbCredentials)
  (bucket start stop predicate : string) (confirm : bool) (itemIndex : Z) :
  raisesNodeOperationError itemIndex
    (executeDeleteBucket bucket confirm itemIndex)
  /\ raisesNodeOperationError itemIndex
       (executeDeleteByPredicate credentials bucket start stop predicate
          itemIndex)
  /\ raisesNodeOperationError itemIndex
       (executeDeleteAll credentials bucket start stop confirm itemIndex).
Proof.
  pose proof (validateBucketName_returns bucket) as B.
  repeat apply conj.
  - unfold executeDeleteBucket. destruct confirm; cbn [negb];
      [|apply Throw_raises].
    validated B; [apply tryCatch_raises | apply Throw_raises].
  - unfold executeDeleteByPredicate. validated B; [|apply Throw_raises].
    destruct (_ || _); [apply Throw_raises|].
    destruct (_ || _); [apply Throw_raises | apply tryCatch_raises].
  - unfold executeDeleteAll. destruct confirm; cbn [negb];
      [|apply Throw_raises].
    validated B; [|apply Throw_raises].
    destruct (_ || _); [apply Throw_raises | apply tryCatch_raises].
Qed.

(** The run against a server is a run. *)
Lemma run_runs {S A : Type}
  (server : forall r : Request, S -> Completion (Response r) * S)
  (p : Program A) (s : S) :
  runs p (fst (fst (run server p s))) (snd (fst (run server p s))).
Proof.
  revert s. induction p as [a|e|r k IH]; intros s; cbn [run runs].
  - split; reflexivity.
  - split; reflexivity.
  - destruct (server r s) as [x s'] eqn:E.
    specialize (IH x s').
    destruct (run server (k x) s') as [[t o] s''].
    exists x, t. split; [reflexivity | exact IH].
Qed.

Ltac run_step H :=
  unfold await in H; cbn [bindP tryCatch runs] in H;
  let x := fresh "x" in
  let t := fresh "t" in
  destruct H as (x & t & -> & H).

Ltac run_end H := cbn [bindP tryCatch runs] in H; destruct H as [-> H].

(** X14. In every run of [executeDeleteBucket] that sends a delete request,
    the operation was confirmed, the bucket name is valid, the server was
    first asked for the buckets of that name and answered with at least
    one, and the delete request, the only one and the last request of the
    run, is for the id of the first bucket of the answer. *)
Theorem executeDeleteBucket_deletes_first_found (bucketName : string)
  (confirm : bool) (itemIndex : Z) (t : list Event)
  (o : Outcome (list INodeExecutionData)) (bucketID : option string) :
  runs (executeDeleteBucket bucketName confirm itemIndex) t o ->
  In (deleteBucketsID bucketID) (requests t) ->
  confirm = true
  /\ accepts (validateBucketName (JsString bucketName))
  /\ exists bucket buckets x,
       bucketID = Bucket.id bucket
       /\ t = [event (getBuckets (Some bucketName) None)
                 (Returned (Some (bucket :: buckets)));
               event (deleteBucketsID bucketID) x].
Proof.
  unfold executeDeleteBucket, requests. intros H I.
  destruct confirm; cbn [negb] in H; [|run_end H; destruct I].
  pose proof (validateBucketName_returns bucketName) as B.
  destruct B as [B|[e B]]; rewrite B in H;
    cbn [lift bindP valid error failWith pass negb orElse] in H;
    [|run_end H; destruct I].
  split; [reflexivity|]. split; [exact B|].
  run_step H.
  destruct x as [[[|bucket buckets]|]|e]; cbn [bindP tryCatch] in H;
    try (run_end H; destruct I as [I|[]]; discriminate).
  run_step H. destruct x as [[]|e]; run_end H.
  - destruct I as [I|[I|[]]]; [discriminate|]. injection I as <-.
    exists bucket, buckets, (Returned tt). split; reflexivity.
  - destruct I as [I|[I|[]]]; [discriminate|]. injection I as <-.
    exists bucket, buckets, (Thrown e). split; reflexivity.
Qed.

Ltac run_here :=
  cbv; repeat (eexists; eexists; split; [reflexivity|]; cbv);
  split; reflexivity.

Lemma executeDeleteBucket_deletes_first_found_sensors :
  true = true
  /\ accepts (validateBucketName (JsString "sensors"))
  /\ exists bucket buckets x,
       Some "b1" = Bucket.id bucket
       /\ deleteSensors
          = [event (getBuckets (Some "sensors") None)
               (Returned (Some (bucket :: buckets)));
             event (deleteBucketsID (Some "b1")) x].
Proof.
  apply (@executeDeleteBucket_deletes_first_found "sensors" true 0
           deleteSensors
           (Completed [mkItem [("success", JsBoolean true);
                               ("deleted", JsBoolean true);
                               ("bucketName", JsString "sensors");
                               ("bucketID", JsString "b1")] 0])
           (Some "b1")).
  - run_here.
  - cbv. tauto.
Defined.

Lemma Throw_requests_nothing {A : Type} (P : Prop) (e : Exception) :
  requestsOnlyWhen P (Throw (A := A) e).
Proof. intros t o [-> _] N. now contradiction N. Qed.

Lemma requestsOnlyWhen_holds {A : Type} (P : Prop) (p : Program A) :
  P -> requestsOnlyWhen P p.
Proof. intros H t o _ _. exact H. Qed.

(** X19. Whatever the server does, [executeGetBucket],
    [executeCreateBucket], [executeUpdateBucket] and [executeDeleteBucket]
    send a request only after their checks passed: the bucket name is
    valid; for a creation the retention period is valid too; for an update
    the retention period is empty or valid; a deletion was confirmed. *)
Theorem bucket_operations_validate_first
  (credentials : IInfluxDbCredentials)
  (bucketName retentionPeriod description : string) (confirm : bool)
  (itemIndex : Z) :
  requestsOnlyWhen (accepts (validateBucketName (JsString bucketName)))
    (executeGetBucket bucketName itemIndex)
  /\ requestsOnlyWhen
       (accepts (validateBucketName (JsString bucketName))
        /\ accepts (validateRetentionPeriod (JsString retentionPeriod)))
       (executeCreateBucket credentials bucketName retentionPeriod
          description itemIndex)
  /\ requestsOnlyWhen
       (accepts (validateBucketName (JsString bucketName))
        /\ (retentionPeriod = EmptyString
            \/ accepts (validateRetentionPeriod (JsString retentionPeriod))))
       (executeUpdateBucket bucketName retentionPeriod description itemIndex)
  /\ requestsOnlyWhen
       (confirm = true /\ accepts (validateBucketName (JsString bucketName)))
       (executeDeleteBucket bucketName confirm itemIndex).
Proof.
  pose proof (validateBucketName_returns bucketName) as B.
  pose proof (validateRetentionPeriod_returns retentionPeriod) as R.
  repeat apply conj.
  - unfold executeGetBucket.
    destruct B as [B|[e B]]; rewrite B;
      cbn [lift bindP valid error failWith pass negb orElse];
      [now apply requestsOnlyWhen_holds | apply Throw_requests_nothing].
  - unfold executeCreateBucket.
    destruct B as [B|[e B]]; rewrite B;
      cbn [lift bindP valid error failWith pass negb orElse];
      [|apply Throw_requests_nothing].
    destruct R as [R|[e R]]; rewrite R;
      cbn [lift bindP valid error failWith pass negb orElse];
      [now apply requestsOnlyWhen_holds | apply Throw_requests_nothing].
  - unfold executeUpdateBucket.
    destruct B as [B|[e B]]; rewrite B;
      cbn [lift bindP valid error failWith pass negb orElse];
      [|apply Throw_requests_nothing].
    destruct (truthy (JsString retentionPeriod)) eqn:T.
    + destruct R as [R|[e R]]; rewrite R;
        cbn [lift bindP valid error failWith pass negb orElse];
        [apply requestsOnlyWhen_holds; split; [reflexivity | right; reflexivity]
        | apply Throw_requests_nothing].
    + cbn [bindP]. apply requestsOnlyWhen_holds. split; [reflexivity|]. left.
      cbn [truthy] in T. apply negb_false_iff in T.
      now apply String.eqb_eq in T.
  - unfold executeDeleteBucket. destruct confirm; cbn [negb];
      [|apply Throw_requests_nothing].
    destruct B as [B|[e B]]; rewrite B;
      cbn [lift bindP valid error failWith pass negb orElse];
      [now apply requestsOnlyWhen_holds | apply Throw_requests_nothing].
Qed.

(** X15. In every run of [executeDeleteAll] that sends a request, the
    operation was confirmed, the bucket name is valid, start and stop are
    not empty, and the run has that one request: a delete for the range
    with no predicate. *)
Theorem executeDeleteAll_guarded (credentials : IInfluxDbCredentials)
  (bucket start stop : string) (confirm : bool) (itemIndex : Z)
  (t : list Event) (o : Outcome (list INodeExecutionData)) :
  runs (executeDeleteAll credentials bucket start stop confirm itemIndex) t o ->
  t <> [] ->
  confirm = true
  /\ accepts (validateBucketName (JsString bucket))
  /\ start <> EmptyString /\ stop <> EmptyString
  /\ exists x,
       t = [event (postDelete (organization credentials) bucket start stop
                     None) x].
Proof.
  unfold executeDeleteAll. intros H N.
  destruct confirm; cbn [negb] in H; [|run_end H; now contradiction N].
  destruct (validateBucketName_returns bucket) as [B|[e B]]; rewrite B in H;
    cbn [lift bindP valid error failWith pass negb orElse] in H;
    [|run_end H; now contradiction N].
  destruct (truthy (JsString start)) eqn:T1; cbn [negb orb] in H;
    [|run_end H; now contradiction N].
  destruct (truthy (JsString stop)) eqn:T2; cbn [negb orb] in H;
    [|run_end H; now contradiction N].
  apply truthy_string in T1, T2.
  repeat (split; [assumption || reflexivity|]).
  run_step H. destruct x as [[]|e]; run_end H; eexists; reflexivity.
Qed.

(** X16. In every run of [executeDeleteByPredicate] that sends a request,
    the bucket name is valid, start and stop are not empty, the predicate
    has a character that is not white space, and the run has that one
    request: a delete for the range with the predicate as it was given,
    not trimmed. *)
Theorem executeDeleteByPredicate_guarded (credentials : IInfluxDbCredentials)
  (bucket start stop predicate : string) (itemIndex : Z)
  (t : list Event) (o : Outcome (list INodeExecutionData)) :
  runs (executeDeleteByPredicate credentials bucket start stop predicate
          itemIndex) t o ->
  t <> [] ->
  accepts (validateBucketName (JsString bucket))
  /\ start <> EmptyString /\ stop <> EmptyString
  /\ trim predicate <> EmptyString
  /\ exists x,
       t = [event (postDelete (organization credentials) bucket start stop
                     (Some predicate)) x].
Proof.
  unfold executeDeleteByPredicate. intros H N.
  destruct (validateBucketName_returns bucket) as [B|[e B]]; rewrite B in H;
    cbn [lift bindP valid error failWith pass negb orElse] in H;
    [|run_end H; now contradiction N].
  destruct (truthy (JsString start)) eqn:T1; cbn [negb orb] in H;
    [|run_end H; now contradiction N].
  destruct (truthy (JsString stop)) eqn:T2; cbn [negb orb] in H;
    [|run_end H; now contradiction N].
  destruct (truthy (JsString predicate)) eqn:T3; cbn [negb orb typeof] in H;
    [|run_end H; now contradiction N].
  rewrite String.eqb_refl in H. cbn [negb orb] in H.
  destruct (String.length (trim predicate) =? 0)%nat eqn:L;
    [run_end H; now contradiction N|].
  apply truthy_string in T1, T2.
  repeat (split; [assumption || reflexivity|]).
  split.
  - intros E. rewrite E in L. discriminate.
  - run_step H. destruct x as [[]|e]; run_end H; eexists; reflexivity.
Qed.

Lemma executeDeleteAll_guarded_january :
  true = true
  /\ accepts (validateBucketName (JsString "sensors"))
  /\ "2024-01-01T00:00:00Z" <> EmptyString
  /\ "2024-02-01T00:00:00Z" <> EmptyString
  /\ exists x,
       [event (postDelete "my-org" "sensors" "2024-01-01T00:00:00Z"
                 "2024-02-01T00:00:00Z" None) (Returned tt)]
       = [event (postDelete (organization myOrg) "sensors"
                   "2024-01-01T00:00:00Z" "2024-02-01T00:00:00Z" None) x].
Proof.
  apply (@executeDeleteAll_guarded myOrg "sensors" "2024-01-01T00:00:00Z"
           "2024-02-01T00:00:00Z" true 0
           [event (postDelete "my-org" "sensors" "2024-01-01T00:00:00Z"
                     "2024-02-01T00:00:00Z" None) (Returned tt)]
           (Completed [mkItem [("success", JsBoolean true);
                               ("bucket", JsString "sensors");
                               ("start", JsString "2024-01-01T00:00:00Z");
                               ("stop", JsString "2024-02-01T00:00:00Z");
                               ("deletedAll", JsBoolean true)] 0])).
  - run_here.
  - discriminate.
Defined.

Lemma executeDeleteByPredicate_guarded_rejected :
  accepts (validateBucketName (JsString "sensors"))
  /\ "2024-01-01T00:00:00Z" <> EmptyString
  /\ "2024-02-01T00:00:00Z" <> EmptyString
  /\ trim " location=office" <> EmptyString
  /\ exists x,
       [event (postDelete "my-org" "sensors" "2024-01-01T00:00:00Z"
                 "2024-02-01T00:00:00Z" (Some " location=office"))
          (Thrown (Error "unauthorized access"))]
       = [event (postDelete (organization myOrg) "sensors"
                   "2024-01-01T00:00:00Z" "2024-02-01T00:00:00Z"
                   (Some " location=office")) x].
Proof.
  apply (@executeDeleteByPredicate_guarded myOrg "sensors"
           "2024-01-01T00:00:00Z" "2024-02-01T00:00:00Z" " location=office" 3
           [event (postDelete "my-org" "sensors" "2024-01-01T00:00:00Z"
                     "2024-02-01T00:00:00Z" (Some " location=office"))
              (Thrown (Error "unauthorized access"))]
           (Failed (NodeOperationError
                      ("Failed to delete data from InfluxDB: "
                       ++ "unauthorized access") 3))).
  - run_here.
  - discriminate.
Defined.

(** ** The retention rules of a created or updated bucket *)

Lemma gtZero_num (seconds : Z) : gtZero (num seconds) = (0 <? seconds).
Proof. reflexivity. Qed.

Lemma accepted_period_parses (s : string) :
  accepts (validateRetentionPeriod (JsString s)) ->
  exists seconds,
    parseRetentionPeriod s = Returned seconds /\ isSeconds seconds.
Proof.
  intros H. apply period_accepted, retention_pattern in H.
  exact (retention_accepted_parses _ H).
Qed.

Lemma rulesOf_seconds (seconds : JsNumber) :
  isSeconds seconds -> rulesOf seconds = rulesFor seconds.
Proof.
  intros [->|(v & Hv & ->)]; [reflexivity|].
  unfold rulesOf, rulesFor. rewrite gtZero_num.
  change (sameNumber (num v) (num 0)) with (Z.eqb (v * 1) 0).
  destruct (Z.ltb_spec 0 v), (Z.eqb_spec (v * 1) 0); try reflexivity; lia.
Qed.

(** X20. For a valid bucket name and a valid retention period,
    [parseRetentionPeriod] gives a number of seconds, a whole number that
    is not negative or infinity, and every run of [executeCreateBucket]
    is one of two. Either the lookup of the organization found nothing,
    it is the only request and the operation fails; or the lookup found
    organizations and the second and last request creates the bucket in
    the first of them, with the name and description given and with no
    retention rule when the seconds are 0, one rule of that many seconds
    otherwise. No run fails between the two requests: the period that
    passed the validator is parsed. *)
Theorem executeCreateBucket_runs (credentials : IInfluxDbCredentials)
  (name retentionPeriod description : string) (itemIndex : Z) :
  accepts (validateBucketName (JsString name)) ->
  accepts (validateRetentionPeriod (JsString retentionPeriod)) ->
  exists seconds,
    parseRetentionPeriod retentionPeriod = Returned seconds
    /\ isSeconds seconds
    /\ forall t o,
       runs (executeCreateBucket credentials name retentionPeriod description
               itemIndex) t o ->
       (exists x,
          t = [event (getOrgs (organization credentials)) x]
          /\ nothingFound x
          /\ exists message, o = Failed (NodeOperationError message itemIndex))
       \/ (exists org orgs x,
             t = [event (getOrgs (organization credentials))
                    (Returned (Some (org :: orgs)));
                  event (postBuckets name (Organization.id org) description
                           (rulesFor seconds)) x]).
Proof.
  intros B R. destruct (accepted_period_parses _ R) as (seconds & P & Hs).
  exists seconds. split; [exact P|]. split; [exact Hs|].
  unfold executeCreateBucket, accepts in *. rewrite B, R, P.
  cbn [lift bindP valid error failWith pass negb orElse].
  unfold getOrganization. rewrite (rulesOf_seconds Hs).
  intros t o H. run_step H.
  destruct x as [[[|org orgs]|]|e]; cbn [bindP tryCatch] in H.
  - run_end H. left. eexists. split; [reflexivity|]. split; [exact I|]. eauto.
  - right. run_step H. destruct x as [b|e]; run_end H;
      do 3 eexists; reflexivity.
  - run_end H. left. eexists. split; [reflexivity|]. split; [exact I|]. eauto.
  - run_end H. left. eexists. split; [reflexivity|]. split; [exact I|]. eauto.
Qed.

(** X21. For a valid bucket name and a retention period that is empty or
    valid, every run of [executeUpdateBucket] is one of two. Either the
    lookup of the bucket found nothing, it is the only request and the
    operation fails; or the second and last request patches the first
    bucket found, with the description when it is not empty and with the
    retention rules when the period is not empty: none for 0 seconds, one
    rule otherwise. The patch never carries a name, and it is sent even
    when description and period are both empty. *)
Theorem executeUpdateBucket_runs
  (bucketName retentionPeriod description : string) (itemIndex : Z) :
  accepts (validateBucketName (JsString bucketName)) ->
  retentionPeriod = EmptyString
  \/ accepts (validateRetentionPeriod (JsString retentionPeriod)) ->
  exists rules,
    (retentionPeriod = EmptyString /\ rules = None
     \/ exists seconds,
          parseRetentionPeriod retentionPeriod = Returned seconds
          /\ isSeconds seconds
          /\ rules = Some (rulesFor seconds))
    /\ forall t o,
       runs (executeUpdateBucket bucketName retentionPeriod description
               itemIndex) t o ->
       (exists x,
          t = [event (getBuckets (Some bucketName) None) x]
          /\ nothingFound x
          /\ exists message, o = Failed (NodeOperationError message itemIndex))
       \/ (exists bucket buckets x,
             t = [event (getBuckets (Some bucketName) None)
                    (Returned (Some (bucket :: buckets)));
                  event (patchBucketsID (Bucket.id bucket)
                           (if (description =? EmptyString)%string then None
                            else Some description)
                           rules) x]).
Proof.
  intros B R. unfold executeUpdateBucket, accepts in *. rewrite B.
  cbn [lift bindP valid error failWith pass negb orElse].
  assert ((if truthy (JsString description) then Some description else None)
          = (if (description =? EmptyString)%string then None
             else Some description)) as D.
  { cbn [truthy]. now destruct (description =? EmptyString)%string. }
  rewrite D. clear D.
  destruct (truthy (JsString retentionPeriod)) eqn:T.
  - destruct R as [->|R]; [discriminate T|].
    destruct (accepted_period_parses _ R) as (seconds & P & Hs).
    unfold accepts in R. rewrite R, P.
    cbn [lift bindP valid error failWith pass negb orElse].
    rewrite (rulesOf_seconds Hs).
    exists (Some (rulesFor seconds)). split; [right; eauto|].
    intros t o H. run_step H.
    destruct x as [[[|bucket buckets]|]|e]; cbn [bindP tryCatch] in H;
      try (run_end H; left; eexists; split; [reflexivity|];
           split; [exact I | eauto]).
    right. run_step H. destruct x as [b|e]; run_end H;
      do 3 eexists; reflexivity.
  - cbn [bindP]. exists None. split.
    + left. split; [|reflexivity]. cbn [truthy] in T.
      apply negb_false_iff in T. now apply String.eqb_eq in T.
    + intros t o H. run_step H.
      destruct x as [[[|bucket buckets]|]|e]; cbn [bindP tryCatch] in H;
        try (run_end H; left; eexists; split; [reflexivity|];
             split; [exact I | eauto]).
      right. run_step H. destruct x as [b|e]; run_end H;
        do 3 eexists; reflexivity.
Qed.

Lemma executeCreateBucket_runs_30d :
  exists seconds,
    parseRetentionPeriod "30d" = Returned seconds
    /\ isSeconds seconds
    /\ forall t o,
       runs (executeCreateBucket myOrg "sensors" "30d" "Office sensors" 0)
         t o ->
       (exists x,
          t = [event (getOrgs (organization myOrg)) x]
          /\ nothingFound x
          /\ exists message, o = Failed (NodeOperationError message 0))
       \/ (exists org orgs x,
             t = [event (getOrgs (organization myOrg))
                    (Returned (Some (org :: orgs)));
                  event (postBuckets "sensors" (Organization.id org)
                           "Office sensors" (rulesFor seconds)) x]).
Proof.
  apply (@executeCreateBucket_runs myOrg "sensors" "30d" "Office sensors" 0).
  - vm_compute. reflexivity.
  - vm_compute. reflexivity.
Defined.

Lemma executeUpdateBucket_runs_infinite :
  exists rules,
    ("infinite" = EmptyString /\ rules = None
     \/ exists seconds,
          parseRetentionPeriod "infinite" = Returned seconds
          /\ isSeconds seconds
          /\ rules = Some (rulesFor seconds))
    /\ forall t o,
       runs (executeUpdateBucket "sensors" "infinite" EmptyString 0) t o ->
       (exists x,
          t = [event (getBuckets (Some "sensors") None) x]
          /\ nothingFound x
          /\ exists message, o = Failed (NodeOperationError message 0))
       \/ (exists bucket buckets x,
             t = [event (getBuckets (Some "sensors") None)
                    (Returned (Some (bucket :: buckets)));
                  event (patchBucketsID (Bucket.id bucket)
                           (if (EmptyString =? EmptyString)%string then None
                            else Some EmptyString)
                           rules) x]).
Proof.
  apply (@executeUpdateBucket_runs "sensors" "infinite" EmptyString 0).
  - vm_compute. reflexivity.
  - right. vm_compute. reflexivity.
Defined.

(** ** The query operations *)

Lemma validateFluxQuery_returns (s : string) :
  validateFluxQuery (JsString s) = Returned pass
  \/ exists e, validateFluxQuery (JsString s) = Returned (failWith e).
Proof.
  destruct (validateFluxQuery_wf (JsString s)) as (r & E & W).
  rewrite E. destruct r as [[] err]; destruct W as [W1 W2]; cbn in *.
  - rewrite (W1 eq_refl). now left.
  - destruct (W2 eq_refl) as (e & -> & _). right. now exists e.
Qed.

Lemma validateMeasurementName_returns (s : string) :
  validateMeasurementName (JsString s) = Returned pass
  \/ exists e, validateMeasurementName (JsString s) = Returned (failWith e).
Proof.
  rewrite validateMeasurementName_string.
  destruct (s =? EmptyString)%string; [eauto|].
  destruct (isName s); eauto.
Qed.

Lemma setProp_In (k k' : string) (v v' : JsValue) (o : Row) :
  In (k', v') (setProp k v o) -> (k', v') = (k, v) \/ In (k', v') o.
Proof.
  unfold setProp. destruct (k =? "__proto__")%string; [now right|].
  induction o as [|[k0 v0] o IH]; cbn [defineProp In].
  - intros [H|[]]. left. now symmetry.
  - destruct (k0 =? k)%string; cbn [In].
    + intros [H|H]; [left; now symmetry | right; now right].
    + intros [H|H]; [right; now left|].
      destruct (IH H) as [E|I]; [now left | right; now right].
Qed.

(** The values of a row of a query result are strings, or [undefined]
    where the row is shorter than its columns. *)
Lemma rowObject_values (r : QueryRow) (k : string) (v : JsValue) :
  In (k, v) (rowObject r) -> v = JsUndefined \/ exists s, v = JsString s.
Proof.
  unfold rowObject.
  assert (forall columns index acc,
            (forall k v, In (k, v) acc ->
                         v = JsUndefined \/ exists s, v = JsString s) ->
            forall k v, In (k, v) (rowObjectFrom index (fst r) columns acc) ->
                        v = JsUndefined \/ exists s, v = JsString s) as G.
  { induction columns as [|label columns IH]; cbn [rowObjectFrom];
      intros index acc Hacc k0 v0 H; [eauto|].
    apply (IH _ _) in H; [exact H|].
    intros k1 v1 H1. apply setProp_In in H1 as [E|I]; [|eauto].
    injection E as -> ->.
    destruct (nth_error (fst r) index); cbn [orUndefined]; eauto. }
  apply G. intros k0 v0 [].
Qed.

Lemma formatted_length (dateParse : string -> Date) (now : Z)
  (results formatted : list Row) (timestampFormat : TimestampFormat)
  (limit : Z) :
  formatFluxResults dateParse now results
    (Some (formatOptionsOf timestampFormat limit)) = Returned formatted ->
  List.length formatted
  = (if 0 <? limit then Nat.min (Z.to_nat limit) (List.length results)
     else List.length results).
Proof.
  intros H.
  set (options := Some (formatOptionsOf timestampFormat limit)) in *.
  destruct (forallb (rowFormats dateParse (timestampFormatOf options)) results)
    eqn:E.
  - destruct (formatFluxResults_mapped dateParse now results options E)
      as (mapped & F & R).
    rewrite R in H. injection H as <-.
    apply Forall2_length in F.
    unfold options, limitOf, formatOptionsOf. cbn.
    destruct (Z.ltb_spec 0 limit) as [L|L].
    + destruct (Z.gtb_spec limit 0); [|lia].
      rewrite length_firstn. now rewrite F.
    + cbn. now rewrite F.
  - apply (formatFluxResults_raises dateParse now) in E.
    destruct E as [e E]. congruence.
Qed.

Lemma formatting_fails (dateParse : string -> Date) (now : Z)
  (rows : list QueryRow) (timestampFormat : TimestampFormat) (limit : Z)
  (e : JsError) :
  formatFluxResults dateParse now (map rowObject rows)
    (Some (formatOptionsOf timestampFormat limit)) = Thrown e ->
  timestampFormat = iso /\ unreadableTime dateParse rows.
Proof.
  intros H.
  assert (throws (formatFluxResults dateParse now (map rowObject rows)
                    (Some (formatOptionsOf timestampFormat limit)))) as T
    by (now exists e).
  apply formatFluxResults_throws_exists in T
    as (row & v & Hin & Hv & Tv & Th).
  apply in_map_iff in Hin as (r & <- & Hr).
  change (timestampFormatOf (Some (formatOptionsOf timestampFormat limit)))
    with timestampFormat in Th.
  destruct (rowObject_values _ _ _ Hv) as [->|[s ->]]; [discriminate|].
  destruct (timeFormats dateParse timestampFormat (JsString s)) eqn:F.
  - exfalso. revert Th. apply returns_not_throws.
    now apply formatTimestamp_returns.
  - unfold timeFormats in F. cbn [dateOf] in F.
    destruct (dateParse s) eqn:D; [|now destruct timestampFormat].
    destruct timestampFormat; try discriminate.
    split; [reflexivity|]. exists r, s. repeat split; try assumption.
    intros ->. discriminate.
Qed.

(** The runs of the part the two query operations share. *)
Lemma runQuery_runs (dateParse : string -> Date) (now : Z)
  (org query prefix : string) (timestampFormat : TimestampFormat)
  (limit itemIndex : Z) (t : list Event)
  (o : Outcome (list INodeExecutionData)) :
  runs (tryCatch (runQuery dateParse now org query timestampFormat limit
                    itemIndex)
          (fun error =>
             Throw (NodeOperationError (prefix ++ messageOf error)
                      itemIndex))) t o ->
  queryRun org query limit itemIndex t o
  /\ forall e, o = Failed e ->
     (exists message, e = NodeOperationError message itemIndex)
     /\ queryFailure dateParse timestampFormat org query t.
Proof.
  unfold runQuery, queryRun, queryFailure. intros H. run_step H.
  destruct x as [rows|e]; cbn [lift bindP tryCatch] in H.
  - destruct (formatFluxResults dateParse now (map rowObject rows)
                (Some (formatOptionsOf timestampFormat limit)))
      as [formatted|e] eqn:F; run_end H; subst o.
    + split.
      * eexists. split; [reflexivity|]. intros items E. injection E as <-.
        exists rows. split; [reflexivity|].
        rewrite length_map, (formatted_length _ _ _ _ _ F), length_map.
        split; [reflexivity|].
        apply Forall_forall. intros item Hi.
        apply in_map_iff in Hi as (row & <- & _). reflexivity.
      * intros e E. discriminate.
    + split.
      * eexists. split; [reflexivity|]. intros items E. discriminate.
      * intros e' E. injection E as <-. split; [eauto|].
        right. right. apply formatting_fails in F as [-> U].
        split; [reflexivity|]. eauto.
  - run_end H. subst o. split.
    + eexists. split; [reflexivity|]. intros items E. discriminate.
    + intros e' E. injection E as <-. split; [eauto|].
      right. left. eauto.
Qed.

(** X22. The two query operations send a request only after their checks
    passed, the query for [executeFluxQuery], the bucket and the
    measurement for [executeSimpleQuery]. A run that sends a request has
    that one request, with the query as given or as built; when it
    completes, it gives one item per row of the answer, or as many as the
    limit when the limit is positive and smaller, each paired with the
    item. *)
Theorem query_operations_validate_first (dateParse : string -> Date)
  (now : Z) (credentials : IInfluxDbCredentials)
  (query bucket measurement start stop field : string)
  (timestampFormat : TimestampFormat) (limit itemIndex : Z) :
  (forall t o,
     runs (executeFluxQuery dateParse now credentials query timestampFormat
             limit itemIndex) t o ->
     t <> [] ->
     accepts (validateFluxQuery (JsString query))
     /\ queryRun (organization credentials) query limit itemIndex t o)
  /\ (forall t o,
        runs (executeSimpleQuery dateParse now credentials bucket measurement
                start stop field timestampFormat limit itemIndex) t o ->
        t <> [] ->
        accepts (validateBucketName (JsString bucket))
        /\ accepts (validateMeasurementName (JsString measurement))
        /\ queryRun (organization credentials)
             (simpleQuery bucket measurement start stop field limit)
             limit itemIndex t o).
Proof.
  split; intros t o H N.
  - unfold executeFluxQuery in H.
    destruct (validateFluxQuery_returns query) as [Q|[e Q]]; rewrite Q in H;
      cbn [lift bindP valid error failWith pass negb orElse] in H;
      [|run_end H; now contradiction N].
    split; [exact Q|]. now apply runQuery_runs in H.
  - unfold executeSimpleQuery in H.
    destruct (validateBucketName_returns bucket) as [B|[e B]]; rewrite B in H;
      cbn [lift bindP valid error failWith pass negb orElse] in H;
      [|run_end H; now contradiction N].
    destruct (validateMeasurementName_returns measurement) as [M|[e M]];
      rewrite M in H;
      cbn [lift bindP valid error failWith pass negb orElse] in H;
      [|run_end H; now contradiction N].
    split; [exact B|]. split; [exact M|]. now apply runQuery_runs in H.
Qed.

(** X23. The two query operations fail only with a [NodeOperationError]
    for the item, and only for one of three reasons: their checks did not
    pass and nothing was sent; the one request was rejected; or the format
    is [iso] and some row of the answer has a [_time] that is a non-empty
    string that [new Date] does not parse. With the formats [unix] and
    [relative] an answer of the server is always turned into items. *)
Theorem query_operations_fail_because (dateParse : string -> Date)
  (now : Z) (credentials : IInfluxDbCredentials)
  (query bucket measurement start stop field : string)
  (timestampFormat : TimestampFormat) (limit itemIndex : Z) :
  (forall t e,
     runs (executeFluxQuery dateParse now credentials query timestampFormat
             limit itemIndex) t (Failed e) ->
     (exists message, e = NodeOperationError message itemIndex)
     /\ queryFailure dateParse timestampFormat (organization credentials)
          query t)
  /\ (forall t e,
        runs (executeSimpleQuery dateParse now credentials bucket measurement
                start stop field timestampFormat limit itemIndex) t
          (Failed e) ->
        (exists message, e = NodeOperationError message itemIndex)
        /\ queryFailure dateParse timestampFormat (organization credentials)
             (simpleQuery bucket measurement start stop field limit) t).
Proof.
  split; intros t e H.
  - unfold executeFluxQuery in H.
    destruct (validateFluxQuery_returns query) as [Q|[m Q]]; rewrite Q in H;
      cbn [lift bindP valid error failWith pass negb orElse] in H.
    + apply runQuery_runs in H as [_ H]. now apply H.
    + run_end H. injection H as ->. split; [eauto | now left].
  - unfold executeSimpleQuery in H.
    destruct (validateBucketName_returns bucket) as [B|[m B]]; rewrite B in H;
      cbn [lift bindP valid error failWith pass negb orElse] in H;
      [|run_end H; injection H as ->; split; [eauto | now left]].
    destruct (validateMeasurementName_returns measurement) as [M|[m M]];
      rewrite M in H;
      cbn [lift bindP valid error failWith pass negb orElse] in H;
      [|run_end H; injection H as ->; split; [eauto | now left]].
    apply runQuery_runs in H as [_ H]. now apply H.
Qed.

Lemma traceOf_runs {A : Type}
  (server : forall r : Request, unit -> Completion (Response r) * unit)
  (p : Program A) :
  runs p (traceOf server p) (outcomeOf server p).
Proof. apply run_runs. Qed.

Lemma query_operations_validate_first_unix :
  accepts (validateFluxQuery (JsString rangeQuery))
  /\ queryRun (organization myOrg) rangeQuery 1 7
       (traceOf (answering twoQueryRows)
          (executeFluxQuery isoDateParse 0 myOrg rangeQuery unix 1 7))
       (outcomeOf (answering twoQueryRows)
          (executeFluxQuery isoDateParse 0 myOrg rangeQuery unix 1 7)).
Proof.
  apply (proj1 (@query_operations_validate_first isoDateParse 0 myOrg
                  rangeQuery "sensors" "temperature" "-1h" "now()" EmptyString
                  unix 1 7)).
  - apply traceOf_runs.
  - vm_compute. discriminate.
Defined.

Lemma query_operations_fail_because_yesterday :
  (exists message,
     NodeOperationError "Failed to execute Flux query: Invalid time value" 7
     = NodeOperationError message 7)
  /\ queryFailure isoDateParse iso (organization myOrg) rangeQuery
       (traceOf (answering twoQueryRows)
          (executeFluxQuery isoDateParse 0 myOrg rangeQuery iso 1 7)).
Proof.
  apply (proj1 (@query_operations_fail_because isoDateParse 0 myOrg
                  rangeQuery "sensors" "temperature" "-1h" "now()" EmptyString
                  iso 1 7)).
  exact (traceOf_runs (answering twoQueryRows)
           (executeFluxQuery isoDateParse 0 myOrg rangeQuery iso 1 7)).
Defined.

(** ** The query that executeSimpleQuery builds *)

Lemma countChar_app (c : ascii) (s t : string) :
  countChar c (s ++ t) = (countChar c s + countChar c t)%nat.
Proof. unfold countChar. now rewrite filterChars_app, length_app. Qed.

Lemma countChar_none (p : ascii -> bool) (c : ascii) (s : string) :
  allChars p s = true -> p c = false -> countChar c s = 0%nat.
Proof.
  unfold countChar. intros H N.
  induction s as [|x s IH]; cbn [filterChars allChars] in *; [reflexivity|].
  apply andb_true_iff in H as [Hx Hs].
  destruct (Ascii.eqb_spec c x) as [->|_]; [congruence | now apply IH].
Qed.

Lemma accepted_bucket_isName (s : string) :
  accepts (validateBucketName (JsString s)) -> isName s = true.
Proof.
  unfold accepts. rewrite validateBucketName_string.
  destruct (s =? EmptyString)%string; [discriminate|].
  destruct (255 <? String.length s)%nat; [discriminate|].
  now destruct (isName s).
Qed.

Lemma accepted_measurement_isName (s : string) :
  accepts (validateMeasurementName (JsString s)) -> isName s = true.
Proof.
  unfold accepts. rewrite validateMeasurementName_string.
  destruct (s =? EmptyString)%string; [discriminate|].
  now destruct (isName s).
Qed.

Lemma simpleQuery_counts (bucket measurement start stop field : string)
  (limit : Z) (c : ascii) :
  isName bucket = true -> isName measurement = true ->
  isNameChar c = false -> isNumberChar c = false -> c <> ascii_of_N 34 ->
  countChar c (simpleQuery bucket measurement start stop field limit)
  = Nat.add
      (countChar c (simpleQuery EmptyString EmptyString EmptyString EmptyString
                      (if truthy (JsString field) then "f" else EmptyString)
                      (if 0 <? limit then 1 else 0)))
      (countChar c (start ++ stop ++ field)).
Proof.
  intros B M N I Q.
  assert (countChar c bucket = 0%nat) as Cb.
  { apply andb_true_iff in B as [_ B]. exact (countChar_none _ _ _ B N). }
  assert (countChar c measurement = 0%nat) as Cm.
  { apply andb_true_iff in M as [_ M]. exact (countChar_none _ _ _ M N). }
  assert (countChar c dq = 0%nat) as Cq.
  { unfold countChar, dq. cbn [filterChars].
    destruct (Ascii.eqb_spec c (ascii_of_N 34)); [contradiction|reflexivity]. }
  assert (isDigit c = false) as D.
  { unfold isNameChar in N. apply orb_false_iff in N as [N _].
    apply orb_false_iff in N as [N _]. now apply orb_false_iff in N as [_ N]. }
  assert (0 < limit -> countChar c (numberToString limit) = countChar c "1")
    as Cl.
  { intros L.
    rewrite (countChar_none _ _ _ (numberToString_chars limit) I).
    unfold countChar. cbn [filterChars].
    destruct (Ascii.eqb_spec c "1") as [->|_]; [discriminate D|reflexivity]. }
  assert (countChar c "f" = 0%nat) as Cf.
  { unfold countChar. cbn [filterChars].
    destruct (Ascii.eqb_spec c "f") as [->|_]; [discriminate N|reflexivity]. }
  unfold simpleQuery. cbn [truthy].
  destruct field as [|f0 field]; cbn [String.eqb negb];
    destruct (Z.ltb_spec 0 limit) as [L|L];
    change (0 <? 1) with true; change (0 <? 0) with false; cbv iota;
    rewrite ?countChar_app, ?Cb, ?Cm, ?Cq, ?(Cl L);
    change (countChar c EmptyString) with 0%nat;
    change (numberToString 1) with "1";
    rewrite ?countChar_app, ?Cq, ?Cf; lia.
Qed.

(** X24. For a valid bucket name and a valid measurement name, the query
    that [executeSimpleQuery] builds passes [validateFluxQuery] exactly
    when start, stop and field taken together have as many opening as
    closing parentheses and as many opening as closing brackets: the
    default stop [now()] keeps the query valid, an unclosed parenthesis
    in a field does not, and none of the three is checked before the
    query is sent. *)
Theorem simpleQuery_is_valid_flux
  (bucket measurement start stop field : string) (limit : Z) :
  accepts (validateBucketName (JsString bucket)) ->
  accepts (validateMeasurementName (JsString measurement)) ->
  (accepts (validateFluxQuery
              (JsString (simpleQuery bucket measurement start stop field
                           limit))) <->
   countChar "(" (start ++ stop ++ field)
   = countChar ")" (start ++ stop ++ field)
   /\ countChar "[" (start ++ stop ++ field)
      = countChar "]" (start ++ stop ++ field)).
Proof.
  intros B M.
  apply accepted_bucket_isName in B. apply accepted_measurement_isName in M.
  pose proof (fun c => @simpleQuery_counts bucket measurement start stop field
                         limit c B M) as C.
  unfold accepts. rewrite validateFluxQuery_string.
  rewrite (C "("%char), (C ")"%char), (C "["%char), (C "]"%char)
    by (reflexivity || discriminate).
  set (q := simpleQuery bucket measurement start stop field limit).
  assert ((q =? EmptyString)%string = false
          /\ allChars isWhiteSpace q = false) as [-> ->].
  { unfold q, simpleQuery.
    destruct (truthy (JsString field)), (0 <? limit); split; reflexivity. }
  set (a := countChar "(" (start ++ stop ++ field)).
  set (b := countChar ")" (start ++ stop ++ field)).
  set (c := countChar "[" (start ++ stop ++ field)).
  set (d := countChar "]" (start ++ stop ++ field)).
  assert (forall f l,
            countChar "(" (simpleQuery EmptyString EmptyString EmptyString
                             EmptyString f l)
            = countChar ")" (simpleQuery EmptyString EmptyString EmptyString
                               EmptyString f l)
            /\ countChar "[" (simpleQuery EmptyString EmptyString EmptyString
                                EmptyString f l) = 0%nat
            /\ countChar "]" (simpleQuery EmptyString EmptyString EmptyString
                                EmptyString f l) = 0%nat ->
            (Returned
               (if negb (countChar "(" (simpleQuery EmptyString EmptyString
                                          EmptyString EmptyString f l) + a
                         =? countChar ")" (simpleQuery EmptyString EmptyString
                                             EmptyString EmptyString f l) + b)%nat
                then failWith "Unbalanced parentheses in Flux query"
                else if negb (countChar "[" (simpleQuery EmptyString
                                               EmptyString EmptyString
                                               EmptyString f l) + c
                              =? countChar "]" (simpleQuery EmptyString
                                                  EmptyString EmptyString
                                                  EmptyString f l) + d)%nat
                then failWith "Unbalanced brackets in Flux query"
                else pass) = Returned pass <-> a = b /\ c = d)) as K.
  { intros f l (-> & -> & ->). cbn [Nat.add].
    destruct (Nat.eqb_spec (countChar ")" (simpleQuery EmptyString EmptyString
                              EmptyString EmptyString f l) + a)
                (countChar ")" (simpleQuery EmptyString EmptyString
                              EmptyString EmptyString f l) + b)) as [E|E];
      cbn [negb].
    - destruct (Nat.eqb_spec c d) as [F|F]; cbn [negb].
      + split; [intros _; split; [lia | exact F] | reflexivity].
      + split; [discriminate | intros [_ G]; contradiction].
    - split; [discriminate | intros [G _]; exfalso; apply E; lia]. }
  destruct (truthy (JsString field)), (0 <? limit);
    match goal with
    | |- context [simpleQuery EmptyString EmptyString EmptyString EmptyString
                    ?f ?l] =>
        pose proof (K f l) as K'
    end.
  all: cbv zeta in K'; apply K'; vm_compute; repeat split; reflexivity.
Qed.

(** ** The write operations *)

Lemma wf_cases (c : Completion IValidationResult) :
  returnsWf c ->
  c = Returned pass \/ exists e, c = Returned (failWith e).
Proof.
  intros (r & -> & W1 & W2). destruct r as [[] err]; cbn in *.
  - rewrite (W1 eq_refl). now left.
  - destruct (W2 eq_refl) as (e & -> & _). right. now exists e.
Qed.

Lemma trimStart_head (s : string) (c : ascii) (r : string) :
  trimStart s = String c r -> isWhiteSpace c = false.
Proof.
  induction s as [|x s IH]; cbn [trimStart]; [discriminate|].
  destruct (isWhiteSpace x) eqn:E; [exact IH|].
  intros H. injection H as <- _. exact E.
Qed.

Lemma trimEnd_head (c x : ascii) (s r : string) :
  trimEnd (String x s) = String c r -> c = x.
Proof.
  cbn [trimEnd]. destruct (trimEnd s).
  - destruct (isWhiteSpace x); [discriminate|]. intros H. now injection H.
  - intros H. now injection H.
Qed.

Lemma trim_head (s : string) (c : ascii) (r : string) :
  trim s = String c r -> isWhiteSpace c = false.
Proof.
  unfold trim. destruct (trimStart s) as [|x s'] eqn:E; [discriminate|].
  intros H. apply trimEnd_head in H. subst x. exact (trimStart_head _ E).
Qed.

Lemma split_length (sep : ascii) (s : string) :
  List.length (split sep s) = S (countChar sep s).
Proof.
  unfold countChar.
  induction s as [|c s IH]; cbn [split filterChars]; [reflexivity|].
  rewrite (Ascii.eqb_sym sep c).
  destruct (c =? sep)%char; cbn [List.length]; [now rewrite IH|].
  destruct (split sep s) as [|line lines]; [discriminate IH | exact IH].
Qed.

(** The lines a line protocol is counted as: at least one when the trimmed
    protocol is not empty, and at most one more than its line feeds. *)
Lemma linesOf_bounds (lineProtocol : string) :
  trim lineProtocol <> EmptyString ->
  (1 <= List.length (linesOf (trim lineProtocol))
   <= 1 + countChar LF (trim lineProtocol))%nat.
Proof.
  intros N. unfold linesOf. split.
  - destruct (trim lineProtocol) as [|c r] eqn:E; [congruence|].
    pose proof (trim_head _ E) as W.
    cbn [split]. fold LF.
    destruct (Ascii.eqb_spec c LF) as [->|_]; [discriminate W|].
    assert (forall line, truthy (JsString (trim (String c line))) = true) as T.
    { intros line. apply truthy_string. intros Z. apply trim_empty in Z.
      cbn [allChars] in Z. rewrite W in Z. discriminate. }
    destruct (split LF r) as [|line lines]; cbn [filter]; rewrite T;
      cbn [List.length]; lia.
  - fold LF. change (1 + countChar LF (trim lineProtocol))%nat
      with (S (countChar LF (trim lineProtocol))).
    rewrite <- (split_length LF (trim lineProtocol)).
    apply filter_length_le.
Qed.

Lemma bucket_required (bucket : string) :
  truthy (JsString bucket) = false -> bucket = EmptyString.
Proof.
  cbn [truthy]. intros H. apply negb_false_iff in H.
  now apply String.eqb_eq in H.
Qed.

(** The runs of the [catch] block of a write. *)
Lemma closeAndRaise_runs {A : Type} (writeApi : WriteApi) (prefix : string)
  (itemIndex : Z) (error : Exception) (t : list Event) (o : Outcome A) :
  runs (closeAndRaise writeApi prefix itemIndex error) t o ->
  (exists x, t = [event (close writeApi) x])
  /\ o = Failed (NodeOperationError (prefix ++ messageOf error) itemIndex).
Proof.
  unfold closeAndRaise. intros H. run_step H.
  destruct x as [[]|e]; run_end H; split; eauto.
Qed.

(** X25. In every run of [executeWriteLineProtocol] that makes a call, the
    bucket, the parameter or else the default of the credentials, is a
    valid bucket name and the protocol is not blank. The first call
    writes the trimmed protocol as one record, and every later call closes
    the handle, which happens at least once, after a failed write too.
    When the operation completes, the number of lines it reports is at
    least 1 and at most one more than the line feeds of the trimmed
    protocol. *)
Theorem executeWriteLineProtocol_runs (credentials : IInfluxDbCredentials)
  (lineProtocol bucketParam precision : string) (itemIndex : Z)
  (t : list Event) (o : Outcome (list INodeExecutionData)) :
  runs (executeWriteLineProtocol credentials lineProtocol bucketParam precision
          itemIndex) t o ->
  t <> [] ->
  accepts (validateBucketName
             (JsString (bucketOrDefault bucketParam credentials)))
  /\ trim lineProtocol <> EmptyString
  /\ (exists x t',
        t = event (writeRecord
                     (getWriteApi (organization credentials)
                        (bucketOrDefault bucketParam credentials) precision
                        None)
                     (trim lineProtocol)) x :: t'
        /\ closes (getWriteApi (organization credentials)
                     (bucketOrDefault bucketParam credentials) precision None)
             t')
  /\ forall items, o = Completed items ->
     exists json n,
       items = [mkItem json itemIndex]
       /\ getProp "linesWritten" json = Some (JsNum (num (Z.of_nat n)))
       /\ (1 <= n <= 1 + countChar LF (trim lineProtocol))%nat.
Proof.
  unfold executeWriteLineProtocol. intros H N.
  set (bucket := bucketOrDefault bucketParam credentials) in *.
  destruct (truthy (JsString bucket)); cbn [negb] in H;
    [|run_end H; now contradiction N].
  destruct (validateBucketName_returns bucket) as [B|[e B]]; rewrite B in H;
    cbn [lift bindP valid error failWith pass negb orElse] in H;
    [|run_end H; now contradiction N].
  destruct (truthy (JsString lineProtocol)); cbn [negb orb typeof] in H;
    [|run_end H; now contradiction N].
  rewrite String.eqb_refl in H. cbn [negb] in H.
  destruct (String.length (trim lineProtocol) =? 0)%nat eqn:L;
    [run_end H; now contradiction N|].
  assert (trim lineProtocol <> EmptyString) as T
    by (intros E; rewrite E in L; discriminate).
  split; [exact B|]. split; [exact T|].
  unfold getOrganization in H.
  set (writeApi := getWriteApi (organization credentials) bucket precision None)
    in *.
  run_step H. destruct x as [[]|e]; cbn [bindP tryCatch] in H.
  - run_step H. destruct x as [[]|e]; cbn [bindP tryCatch] in H.
    + run_end H. split.
      * do 2 eexists. split; [reflexivity|]. split; [discriminate|].
        repeat constructor.
      * intros items E. subst o. injection E as <-.
        do 2 eexists. split; [reflexivity|]. split; [reflexivity|].
        now apply linesOf_bounds.
    + apply closeAndRaise_runs in H as [[x ->] ->]. split.
      * do 2 eexists. split; [reflexivity|]. split; [discriminate|].
        repeat constructor.
      * intros items E. discriminate.
  - apply closeAndRaise_runs in H as [[x ->] ->]. split.
    + do 2 eexists. split; [reflexivity|]. split; [discriminate|].
      repeat constructor.
    + intros items E. discriminate.
Qed.

Lemma validateKeyName_returns (s : string) :
  validateKeyName (JsString s) = Returned pass
  \/ exists e, validateKeyName (JsString s) = Returned (failWith e).
Proof. apply wf_cases, validateKeyName_wf. Qed.

Lemma validateTag_cases (itemIndex : Z) (entry : string * JsValue) :
  (validateTag itemIndex entry = Return tt
   /\ accepts (validateKeyName (JsString (fst entry)))
   /\ typeof (snd entry) = "string")
  \/ exists message,
       validateTag itemIndex entry
       = Throw (NodeOperationError message itemIndex).
Proof.
  destruct entry as [key value]. unfold validateTag. cbn [fst snd].
  destruct (validateKeyName_returns key) as [K|[e K]]; rewrite K;
    cbn [lift bindP valid error failWith pass negb orElse shown];
    [|right; eauto].
  destruct (String.eqb_spec (typeof value) "string") as [T|T];
    cbn [negb]; [|right; eauto].
  left. split; [reflexivity|]. split; [reflexivity | exact T].
Qed.

Lemma validateField_cases (itemIndex : Z) (entry : string * JsValue) :
  (validateField itemIndex entry = Return tt
   /\ accepts (validateKeyName (JsString (fst entry)))
   /\ accepts (validateFieldValue (snd entry)))
  \/ exists message,
       validateField itemIndex entry
       = Throw (NodeOperationError message itemIndex).
Proof.
  destruct entry as [key value]. unfold validateField. cbn [fst snd].
  destruct (validateKeyName_returns key) as [K|[e K]]; rewrite K;
    cbn [lift bindP valid error failWith pass negb orElse shown];
    [|right; eauto].
  destruct (wf_cases (validateFieldValue_wf value)) as [V|[e V]]; rewrite V;
    cbn [lift bindP valid error failWith pass negb orElse shown];
    [|right; eauto].
  left. repeat split; reflexivity.
Qed.

(** A loop of checks goes through, or raises what a check raised. *)
Lemma forEach_cases {A : Type} (body : A -> Program unit) (P : A -> Prop)
  (itemIndex : Z) (l : list A) :
  (forall a,
     (body a = Return tt /\ P a)
     \/ exists message, body a = Throw (NodeOperationError message itemIndex)) ->
  (forEach body l = Return tt /\ Forall P l)
  \/ exists message,
       forEach body l = Throw (NodeOperationError message itemIndex).
Proof.
  intros B. induction l as [|a l IH]; cbn [forEach].
  - left. split; [reflexivity | constructor].
  - destruct (B a) as [[-> Pa]|[m ->]]; cbn [bindP]; [|right; eauto].
    destruct IH as [[-> F]|[m ->]]; [left | right; eauto].
    split; [reflexivity | now constructor].
Qed.

Lemma validateTags_cases (itemIndex : Z) (tags : Row) :
  (forEach (validateTag itemIndex) tags = Return tt
   /\ Forall (fun entry =>
                accepts (validateKeyName (JsString (fst entry)))
                /\ typeof (snd entry) = "string") tags)
  \/ exists message,
       forEach (validateTag itemIndex) tags
       = Throw (NodeOperationError message itemIndex).
Proof. apply forEach_cases. apply validateTag_cases. Qed.

Lemma validateFields_cases (itemIndex : Z) (fields : Row) :
  (forEach (validateField itemIndex) fields = Return tt
   /\ Forall (fun entry =>
                accepts (validateKeyName (JsString (fst entry)))
                /\ accepts (validateFieldValue (snd entry))) fields)
  \/ exists message,
       forEach (validateField itemIndex) fields
       = Throw (NodeOperationError message itemIndex).
Proof. apply forEach_cases. apply validateField_cases. Qed.

(** ** Runs of a sequence of calls *)

Lemma runs_bind {A B : Type} (p : Program A) (f : A -> Program B)
  (t : list Event) (o : Outcome B) :
  runs (bindP p f) t o ->
  (exists a t1 t2,
     t = (t1 ++ t2)%list /\ runs p t1 (Completed a) /\ runs (f a) t2 o)
  \/ (exists e, runs p t (Failed e) /\ o = Failed e).
Proof.
  revert t. induction p as [a|e|r k IH]; cbn [bindP runs]; intros t H.
  - left. exists a, [], t. auto.
  - destruct H as [-> ->]. right. exists e. auto.
  - destruct H as (x & t' & -> & H).
    apply IH in H as [(a & t1 & t2 & -> & H1 & H2)|(e & H1 & ->)].
    + left. exists a, (event r x :: t1), t2.
      split; [reflexivity|]. split; [|exact H2]. exists x, t1. auto.
    + right. exists e. split; [|reflexivity]. exists x, t'. auto.
Qed.

Lemma runs_try_bind {A B : Type} (p : Program A) (f : A -> Program B)
  (h : Exception -> Program B) (t : list Event) (o : Outcome B) :
  runs (tryCatch (bindP p f) h) t o ->
  (exists a t1 t2,
     t = (t1 ++ t2)%list /\ runs p t1 (Completed a)
     /\ runs (tryCatch (f a) h) t2 o)
  \/ (exists e t1 t2,
        t = (t1 ++ t2)%list /\ runs p t1 (Failed e) /\ runs (h e) t2 o).
Proof.
  revert t. induction p as [a|e|r k IH]; cbn [bindP tryCatch runs]; intros t H.
  - left. exists a, [], t. auto.
  - right. exists e, [], t. auto.
  - destruct H as (x & t' & -> & H).
    apply IH in H as [(a & t1 & t2 & -> & H1 & H2)|(e & t1 & t2 & -> & H1 & H2)].
    + left. exists a, (event r x :: t1), t2.
      split; [reflexivity|]. split; [|exact H2]. exists x, t1. auto.
    + right. exists e, (event r x :: t1), t2.
      split; [reflexivity|]. split; [|exact H2]. exists x, t1. auto.
Qed.

(** Sequencing is associative, also within a [try]. *)
Lemma runs_try_assoc {A B C : Type} (p : Program A) (f : A -> Program B)
  (g : B -> Program C) (h : Exception -> Program C) (t : list Event)
  (o : Outcome C) :
  runs (tryCatch (bindP p (fun a => bindP (f a) g)) h) t o <->
  runs (tryCatch (bindP (bindP p f) g) h) t o.
Proof.
  revert t. induction p as [a|e|r k IH]; cbn [bindP tryCatch runs]; intros t.
  - reflexivity.
  - reflexivity.
  - split; intros (x & t' & E & H); exists x, t'; (split; [exact E|]);
      now apply IH.
Qed.

Lemma runs_await (r : Request) (t : list Event) (o : Outcome (Response r)) :
  runs (await r) t o ->
  exists x,
    t = [event r x]
    /\ o = match x with
           | Returned a => Completed a
           | Thrown e => Failed (Js e)
           end.
Proof.
  unfold await. cbn [runs]. intros (x & t' & -> & H). exists x.
  destruct x as [a|e]; cbn [runs] in H; destruct H as [-> ->]; auto.
Qed.

Lemma accepted_app (t1 t2 : list Event) :
  accepted t1 -> accepted t2 -> accepted (t1 ++ t2).
Proof.
  unfold accepted. intros H1 H2. now rewrite forallb_app, H1, H2.
Qed.

Lemma rejected_app_l (t1 t2 : list Event) :
  rejected t1 -> rejected (t1 ++ t2).
Proof.
  intros (r & e & I). exists r, e. apply in_or_app. now left.
Qed.

Lemma rejected_app_r (t1 t2 : list Event) :
  rejected t2 -> rejected (t1 ++ t2).
Proof.
  intros (r & e & I). exists r, e. apply in_or_app. now right.
Qed.

Lemma performs_return {A : Type} (a : A) (Q : A -> Prop) :
  Q a -> performs (Return a) [] Q.
Proof.
  intros H t o [-> ->]. cbn. split; [exact H|]. split; reflexivity.
Qed.

Lemma performs_await (r : Request) :
  performs (await r) [r] (fun _ => True).
Proof.
  intros t o H. apply runs_await in H as (x & -> & ->).
  destruct x as [a|e]; cbn.
  - split; [exact I|]. split; reflexivity.
  - split; [now exists [] | exists r, e; now left].
Qed.

Lemma performs_bind {A B : Type} (p : Program A) (f : A -> Program B)
  (rs1 rs2 : list Request) (Q1 : A -> Prop) (Q2 : B -> Prop) :
  performs p rs1 Q1 -> (forall a, Q1 a -> performs (f a) rs2 Q2) ->
  performs (bindP p f) (rs1 ++ rs2) Q2.
Proof.
  intros P F t o H.
  apply runs_bind in H as [(a & t1 & t2 & -> & H1 & H2)|(e & H1 & ->)].
  - apply P in H1 as (Qa & E1 & A1). apply (F a Qa) in H2.
    destruct o as [b|e]; cbn in *.
    + destruct H2 as (Qb & E2 & A2). split; [exact Qb|].
      split; [now rewrite map_app, E1, E2 | now apply accepted_app].
    + destruct H2 as [[rest E2] R2]. split; [|now apply rejected_app_r].
      exists rest. now rewrite map_app, <- app_assoc, E1, E2.
  - apply P in H1 as [[rest E1] R1]. cbn. split; [|exact R1].
    exists (rest ++ rs2)%list. now rewrite app_assoc, E1.
Qed.

Lemma performs_forEach {A : Type} (body : A -> Program unit)
  (reqs : A -> list Request) (l : list A) :
  (forall a, performs (body a) (reqs a) (fun _ => True)) ->
  performs (forEach body l) (flat_map reqs l) (fun _ => True).
Proof.
  intros H. induction l as [|a l IH]; cbn [forEach flat_map].
  - now apply performs_return.
  - eapply performs_bind; [apply H | intros _ _; exact IH].
Qed.

Lemma performs_result {A : Type} (p : Program A) (rs : list Request)
  (Q Q' : A -> Prop) :
  (forall a, Q a -> Q' a) -> performs p rs Q -> performs p rs Q'.
Proof.
  intros I P t o H. apply P in H. destruct o; cbn in *; [|exact H].
  destruct H as (Qa & E). auto.
Qed.

(** A step of a [try] block: the calls of [p] are made and the block goes
    on, or one of them is rejected and the handler runs. *)
Lemma try_performs {A B : Type} (p : Program A) (f : A -> Program B)
  (h : Exception -> Program B) (rs : list Request) (Q : A -> Prop)
  (t : list Event) (o : Outcome B) :
  performs p rs Q ->
  runs (tryCatch (bindP p f) h) t o ->
  (exists a t1 t2,
     t = (t1 ++ t2)%list /\ Q a /\ map request t1 = rs /\ accepted t1
     /\ runs (tryCatch (f a) h) t2 o)
  \/ (exists e t1 t2 rest,
        t = (t1 ++ t2)%list /\ rs = (map request t1 ++ rest)%list
        /\ rejected t1 /\ runs (h e) t2 o).
Proof.
  intros P H.
  apply runs_try_bind in H
    as [(a & t1 & t2 & -> & H1 & H2)|(e & t1 & t2 & -> & H1 & H2)].
  - apply P in H1 as (Qa & E & Acc). left. exists a, t1, t2. auto.
  - apply P in H1 as [[rest E] R]. right. exists e, t1, t2, rest. auto.
Qed.

Lemma validateTimestampParam_cases (dateParse : string -> Date)
  (itemIndex : Z) (timestampParam : JsValue) :
  let check : Program unit :=
    match timestampParam with
    | JsUndefined => Return tt
    | _ =>
        timestampValidation <--
          lift (validateTimestamp dateParse timestampParam) ;;
        if negb (valid timestampValidation) then
          Throw (NodeOperationError
                   (orElse (error timestampValidation) "Invalid timestamp")
                   itemIndex)
        else Return tt
    end in
  (check = Return tt
   /\ (timestampParam = JsUndefined
       \/ accepts (validateTimestamp dateParse timestampParam)))
  \/ exists e, check = Throw e.
Proof.
  cbv zeta.
  assert (timestampParam = JsUndefined \/ timestampParam <> JsUndefined)
    as [->|U].
  { destruct timestampParam; (now left) || (right; discriminate). }
  { left. split; [reflexivity | now left]. }
  assert ((exists props, timestampParam = JsDateLike props)
          \/ forall props, timestampParam <> JsDateLike props) as [[props ->]|N].
  { destruct timestampParam; try (right; discriminate). left. eauto. }
  { right. eexists. reflexivity. }
  destruct (wf_cases (validateTimestamp_wf dateParse N)) as [V|[e V]].
  - left. split; [|right; exact V].
    destruct timestampParam; try contradiction; rewrite V; reflexivity.
  - right. eexists.
    destruct timestampParam; try contradiction; rewrite V; reflexivity.
Qed.

(** ** The calls that fill a point *)

Lemma flat_map_single {A B : Type} (f : A -> B) (l : list A) :
  flat_map (fun a => [f a]) l = map f l.
Proof.
  induction l as [|a l IH]; cbn [flat_map map app]; [reflexivity|].
  now rewrite IH.
Qed.

Lemma addTags_performs (point : Point) (tags : Row) :
  performs (forEach (addTag point) tags)
    (map (fun entry => tag point (fst entry) (snd entry)) tags)
    (fun _ => True).
Proof.
  rewrite <- flat_map_single. apply performs_forEach.
  intros [key value]. exact (@performs_await (tag point key value)).
Qed.

Lemma addFields_performs (point : Point) (fields : Row) :
  performs (forEach (addField point) fields)
    (flat_map (fieldRequests point) fields) (fun _ => True).
Proof.
  apply performs_forEach. intros [key value].
  unfold addField, fieldRequests. cbn [fst snd].
  destruct value as [| | b | n |z|s|d|dt|l|o|o'];
    try (now apply performs_return).
  - exact (@performs_await (booleanField point key b)).
  - destruct (isInteger n).
    + exact (@performs_await (intField point key n)).
    + exact (@performs_await (floatField point key n)).
  - exact (@performs_await (stringField point key s)).
Qed.

Lemma addTime_performs (point : Point) (time : option JsValue) :
  performs
    (match time with
     | Some value => await (timestamp point value)
     | None => Return tt
     end)
    (match time with
     | Some value => [timestamp point value]
     | None => []
     end) (fun _ => True).
Proof.
  destruct time as [value|]; [|now apply performs_return].
  exact (@performs_await (timestamp point value)).
Qed.

(** The calls that fill a point, in a row: the tags, the fields, the
    timestamp and the write. *)
Lemma fill_performs (writeApi : WriteApi) (point : Point) (tags fields : Row)
  (time : option JsValue) (addTime : Program unit) :
  performs addTime
    (match time with
     | Some value => [timestamp point value]
     | None => []
     end) (fun _ => True) ->
  performs
    (bindP (bindP (bindP (forEach (addTag point) tags)
                     (fun _ => forEach (addField point) fields))
              (fun _ => addTime))
       (fun _ => await (writePoint writeApi point)))
    (fillRequests writeApi point tags fields time) (fun _ => True).
Proof.
  intros T. unfold fillRequests. rewrite !app_assoc.
  eapply performs_bind;
    [|intros _ _; exact (@performs_await (writePoint writeApi point))].
  eapply performs_bind; [|intros _ _; exact T].
  eapply performs_bind; [apply addTags_performs|].
  intros _ _. apply addFields_performs.
Qed.

Lemma close_runs {A : Type} (writeApi : WriteApi) (a : A)
  (h : Exception -> Program A) (t : list Event) (o : Outcome A) :
  runs (tryCatch (_ <-- await (close writeApi) ;; Return a) h) t o ->
  (t = [event (close writeApi) (Returned tt)] /\ o = Completed a)
  \/ exists e t',
       t = event (close writeApi) (Thrown e) :: t' /\ runs (h (Js e)) t' o.
Proof.
  intros H. run_step H. destruct x as [[]|e]; cbn [bindP tryCatch] in H.
  - run_end H. now left.
  - right. eauto.
Qed.

Lemma pointTime_performs (dateParse : string -> Date) (point : Point)
  (timestampParam : JsValue) :
  performs
    (match timestampParam with
     | JsUndefined => Return tt
     | _ => await (timestamp point (timestampDate dateParse timestampParam))
     end)
    (match timeOf dateParse timestampParam with
     | Some value => [timestamp point value]
     | None => []
     end) (fun _ => True).
Proof.
  destruct timestampParam; cbn [timeOf timestampDate];
    (now apply performs_return)
    || exact (@performs_await (timestamp point _)).
Qed.

(** The runs of the [try] block of [executeWritePoint] and its [catch]. *)
Lemma executeWritePoint_try (dateParse : string -> Date)
  (writeApi : WriteApi) (measurement : string) (tags fields : Row)
  (timestampParam : JsValue) (items : list INodeExecutionData)
  (prefix : string) (itemIndex : Z) (t : list Event)
  (o : Outcome (list INodeExecutionData)) :
  runs (tryCatch
          (point <-- await (newPoint measurement) ;;
           _ <-- forEach (addTag point) tags ;;
           _ <-- forEach (addField point) fields ;;
           _ <-- (match timestampParam with
                  | JsUndefined => Return tt
                  | _ =>
                      await (timestamp point
                               (timestampDate dateParse timestampParam))
                  end) ;;
           _ <-- await (writePoint writeApi point) ;;
           _ <-- await (close writeApi) ;;
           Return items)
          (closeAndRaise writeApi prefix itemIndex)) t o ->
  exists (x : Completion Point) (calls closing : list Event),
    t = (event (newPoint measurement) x :: calls ++ closing)%list
    /\ closes writeApi closing
    /\ (forall e, x = Thrown e -> calls = [])
    /\ (forall point, x = Returned point ->
        exists rest,
          fillRequests writeApi point tags fields
            (timeOf dateParse timestampParam)
          = (map request calls ++ rest)%list)
    /\ (forall items', o = Completed items' ->
        items' = items /\ accepted t
        /\ closing = [event (close writeApi) (Returned tt)]
        /\ exists point,
             x = Returned point
             /\ map request calls
                = fillRequests writeApi point tags fields
                    (timeOf dateParse timestampParam))
    /\ (forall e, o = Failed e ->
        rejected t
        /\ exists message, e = NodeOperationError message itemIndex).
Proof.
  intros H.
  apply runs_try_bind in H
    as [(point & t1 & t2 & -> & H1 & H2)|(e & t1 & t2 & -> & H1 & H2)].
  - apply runs_await in H1 as (x & -> & E).
    destruct x as [p|e]; [injection E as <-|discriminate].
    apply (proj1 (runs_try_assoc _ _ _ _ _ _)) in H2.
    apply (proj1 (runs_try_assoc _ _ _ _ _ _)) in H2.
    apply (proj1 (runs_try_assoc _ _ _ _ _ _)) in H2.
    destruct (@try_performs _ _ _ _ _ _ _ _ _
                (@fill_performs writeApi point tags fields _ _
                   (pointTime_performs dateParse point timestampParam)) H2)
      as [(a & t3 & t4 & -> & _ & E & Acc & H3)
         |(e & t3 & t4 & rest & -> & E & R & H3)].
    + apply close_runs in H3 as [[-> ->]|(e & t' & -> & H3)].
      * exists (Returned point), t3, [event (close writeApi) (Returned tt)].
        split; [reflexivity|].
        split; [split; [discriminate | repeat constructor]|].
        split; [discriminate|].
        split; [intros p P; injection P as <-; exists [];
                now rewrite app_nil_r|].
        split; [|discriminate].
        intros items' I. injection I as <-. split; [reflexivity|].
        split; [|split; [reflexivity | eauto]].
        apply (@accepted_app [event (newPoint measurement) (Returned point)]);
          [reflexivity|].
        apply accepted_app; [exact Acc | reflexivity].
      * apply closeAndRaise_runs in H3 as [[x ->] ->].
        exists (Returned point), t3,
          [event (close writeApi) (Thrown e); event (close writeApi) x].
        split; [reflexivity|].
        split; [split; [discriminate | repeat constructor]|].
        split; [discriminate|].
        split; [intros p P; injection P as <-; exists [];
                now rewrite app_nil_r|].
        split; [discriminate|].
        intros e' I. injection I as <-. split; [|eauto].
        apply (@rejected_app_r [event (newPoint measurement) (Returned point)]),
          rejected_app_r.
        exists (close writeApi), e. now left.
    + apply closeAndRaise_runs in H3 as [[x ->] ->].
      exists (Returned point), t3, [event (close writeApi) x].
      split; [reflexivity|].
      split; [split; [discriminate | repeat constructor]|].
      split; [discriminate|].
      split; [intros p P; injection P as <-; now exists rest|].
      split; [discriminate|].
      intros e' I. injection I as <-. split; [|eauto].
      apply (@rejected_app_r [event (newPoint measurement) (Returned point)]),
        rejected_app_l, R.
  - apply runs_await in H1 as (x & -> & E).
    destruct x as [p|e']; [discriminate | injection E as ->].
    apply closeAndRaise_runs in H2 as [[x ->] ->].
    exists (Thrown e'), [], [event (close writeApi) x].
    split; [reflexivity|].
    split; [split; [discriminate | repeat constructor]|].
    split; [reflexivity|].
    split; [discriminate|].
    split; [discriminate|].
    intros e I. injection I as <-. split; [|eauto].
    exists (newPoint measurement), e'. now left.
Qed.

(** ** executeWritePoint *)

(** A run of [executeWritePoint] stops at a check, before any call, or
    every check passed and the [try] block runs. *)
Lemma executeWritePoint_analysis (dateParse : string -> Date) (now : Z)
  (credentials : IInfluxDbCredentials) (measurement : string)
  (tags fields : Row) (timestampParam : JsValue) (bucketParam : string)
  (itemIndex : Z) (t : list Event) (o : Outcome (list INodeExecutionData)) :
  runs (executeWritePoint dateParse now credentials measurement tags fields
          timestampParam bucketParam itemIndex) t o ->
  (t = [] /\ exists e, o = Failed e)
  \/ (accepts (validateBucketName
                 (JsString (bucketOrDefault bucketParam credentials)))
      /\ accepts (validateMeasurementName (JsString measurement))
      /\ Forall (fun entry =>
                   accepts (validateKeyName (JsString (fst entry)))
                   /\ typeof (snd entry) = "string") tags
      /\ fields <> []
      /\ Forall (fun entry =>
                   accepts (validateKeyName (JsString (fst entry)))
                   /\ accepts (validateFieldValue (snd entry))) fields
      /\ (timestampParam = JsUndefined
          \/ accepts (validateTimestamp dateParse timestampParam))
      /\ exists (x : Completion Point) (calls closing : list Event),
           t = (event (newPoint measurement) x :: calls ++ closing)%list
           /\ closes (getWriteApi (organization credentials)
                        (bucketOrDefault bucketParam credentials) "ns" None)
                closing
           /\ (forall e, x = Thrown e -> calls = [])
           /\ (forall point, x = Returned point ->
               exists rest,
                 fillRequests
                   (getWriteApi (organization credentials)
                      (bucketOrDefault bucketParam credentials) "ns" None)
                   point tags fields (timeOf dateParse timestampParam)
                 = (map request calls ++ rest)%list)
           /\ (forall items, o = Completed items ->
               (exists json,
                  items = [mkItem json itemIndex]
                  /\ getProp "pointsWritten" json = Some (JsNum (num 1))
                  /\ getProp "measurement" json = Some (JsString measurement))
               /\ accepted t
               /\ closing
                  = [event (close (getWriteApi (organization credentials)
                                     (bucketOrDefault bucketParam credentials)
                                     "ns" None)) (Returned tt)]
               /\ exists point,
                    x = Returned point
                    /\ map request calls
                       = fillRequests
                           (getWriteApi (organization credentials)
                              (bucketOrDefault bucketParam credentials) "ns"
                              None)
                           point tags fields
                           (timeOf dateParse timestampParam))
           /\ (forall e, o = Failed e ->
               rejected t
               /\ exists message, e = NodeOperationError message itemIndex)).
Proof.
  unfold executeWritePoint. intros H.
  set (bucket := bucketOrDefault bucketParam credentials) in *.
  destruct (truthy (JsString bucket)); cbn [negb] in H;
    [|run_end H; left; eauto].
  destruct (validateBucketName_returns bucket) as [B|[e B]]; rewrite B in H;
    cbn [lift bindP valid error failWith pass negb orElse] in H;
    [|run_end H; left; eauto].
  destruct (validateMeasurementName_returns measurement) as [M|[e M]];
    rewrite M in H;
    cbn [lift bindP valid error failWith pass negb orElse] in H;
    [|run_end H; left; eauto].
  destruct (validateTags_cases itemIndex tags) as [[T FT]|[m T]];
    rewrite T in H; cbn [bindP] in H; [|run_end H; left; eauto].
  destruct fields as [|f fields]; cbn [List.length Nat.eqb] in H;
    [run_end H; left; eauto|].
  destruct (validateFields_cases itemIndex (f :: fields)) as [[F FF]|[m F]];
    rewrite F in H; cbn [bindP] in H; [|run_end H; left; eauto].
  destruct (validateTimestampParam_cases dateParse itemIndex timestampParam)
    as [[S FS]|[m S]]; cbv zeta in S; rewrite S in H; cbn [bindP] in H;
    [|run_end H; left; eauto].
  right. repeat (split; [assumption || discriminate|]).
  unfold getOrganization in H. cbv zeta in H.
  apply (@executeWritePoint_try dateParse) in H
    as (x & calls & closing & E & C & X1 & X2 & X3 & X4).
  exists x, calls, closing. repeat (split; [assumption|]).
  split; [|exact X4].
  intros items I. destruct (X3 items I) as (-> & Acc & Cl & P).
  split; [|auto]. eexists. split; [reflexivity|]. split; reflexivity.
Qed.


Lemma accepted_field_value (v : JsValue) :
  accepts (validateFieldValue v) ->
  (exists n, v = JsNum n) \/ (exists s, v = JsString s)
  \/ (exists b, v = JsBoolean b).
Proof.
  unfold accepts, validateFieldValue.
  destruct v; cbn; try discriminate; eauto.
Qed.

(** Every field with a valid value is added by one call. *)
Lemma fieldRequests_valid (point : Point) (fields : Row) :
  Forall (fun entry => accepts (validateFieldValue (snd entry))) fields ->
  Forall2 (fun entry r => addedAs point (fst entry) (snd entry) r) fields
    (flat_map (fieldRequests point) fields).
Proof.
  induction 1 as [|[key value] fields V _ IH]; cbn [flat_map];
    [constructor|].
  cbn [snd] in V.
  destruct (accepted_field_value _ V) as [[n ->]|[[s ->]|[b ->]]];
    cbn [fieldRequests fst snd app]; (constructor; [reflexivity | exact IH]).
Qed.

(** X27. A run of [executeWritePoint] that completes made these calls, in
    this order, and each of them returned: the point is made with the
    measurement; every tag is added as given; every field is added by one
    call under its key, a number that is an integer as an integer field,
    any other number as a float field, a string as a string field, a
    boolean as a boolean field; the timestamp is set when the parameter is
    not undefined, to [new Date] of a number or a string; the point is
    written and the handle is closed. The result reports one point
    written and the measurement. *)
Theorem executeWritePoint_calls (dateParse : string -> Date) (now : Z)
  (credentials : IInfluxDbCredentials) (measurement : string)
  (tags fields : Row) (timestampParam : JsValue) (bucketParam : string)
  (itemIndex : Z) (t : list Event) (items : list INodeExecutionData) :
  runs (executeWritePoint dateParse now credentials measurement tags fields
          timestampParam bucketParam itemIndex) t (Completed items) ->
  exists (point : Point) (fieldCalls : list Request),
    requests t
    = (newPoint measurement
       :: map (fun entry => tag point (fst entry) (snd entry)) tags
       ++ fieldCalls
       ++ match timeOf dateParse timestampParam with
          | Some value => [timestamp point value]
          | None => []
          end
       ++ [writePoint
             (getWriteApi (organization credentials)
                (bucketOrDefault bucketParam credentials) "ns" None) point;
           close
             (getWriteApi (organization credentials)
                (bucketOrDefault bucketParam credentials) "ns" None)])%list
    /\ Forall2 (fun entry r => addedAs point (fst entry) (snd entry) r)
         fields fieldCalls
    /\ accepted t
    /\ exists json,
         items = [mkItem json itemIndex]
         /\ getProp "pointsWritten" json = Some (JsNum (num 1))
         /\ getProp "measurement" json = Some (JsString measurement).
Proof.
  intros H.
  apply executeWritePoint_analysis in H
    as [[_ [e E]]|(_ & _ & _ & _ & FF & _ & x & calls & closing & -> & _ & _
                   & _ & X3 & _)]; [discriminate|].
  destruct (X3 items eq_refl) as (J & Acc & -> & point & -> & E).
  exists point, (flat_map (fieldRequests point) fields).
  split; [|split; [|split; [exact Acc | exact J]]].
  - unfold requests. cbn [map request]. rewrite map_app, E.
    unfold fillRequests. cbn [map request]. f_equal.
    now rewrite <- !app_assoc.
  - apply fieldRequests_valid. revert FF. apply Forall_impl.
    intros entry [_ V]. exact V.
Qed.

(** ** The batch *)

Lemma optionalTags_performs (point : Point) (tags : option Row) :
  performs
    (match tags with
     | Some tags => forEach (addTag point) tags
     | None => Return tt
     end)
    (map (fun entry => tag point (fst entry) (snd entry)) (orElse tags []))
    (fun _ => True).
Proof.
  destruct tags as [tags|]; [apply addTags_performs|].
  now apply performs_return.
Qed.

Lemma batchTime_performs (dateParse : string -> Date) (point : Point)
  (value : JsValue) :
  performs
    (if truthy value
     then await (timestamp point (timestampDate dateParse value))
     else Return tt)
    (match batchTimeOf dateParse value with
     | Some value => [timestamp point value]
     | None => []
     end) (fun _ => True).
Proof.
  unfold batchTimeOf. destruct (truthy value) eqn:T;
    [|now apply performs_return].
  assert (timeOf dateParse value = Some (timestampDate dateParse value))
    as ->
    by (destruct value; try reflexivity; discriminate T).
  exact (@performs_await (timestamp point _)).
Qed.

(** One round of the loop of [executeWriteBatch]: the point is handed
    over and counted, or the round fails at a rejected call or at an
    element that has no valid measurement or no field. *)
Lemma writeBatchPoint_runs (dateParse : string -> Date) (writeApi : WriteApi)
  (itemIndex pointsWritten : Z) (pointData : IWritePointOptions)
  (t : list Event) (o : Outcome Z) :
  runs (writeBatchPoint dateParse writeApi itemIndex pointsWritten pointData)
    t o ->
  match o with
  | Completed n =>
      n = pointsWritten + 1 /\ batchValid pointData
      /\ handedOver dateParse writeApi pointData t
  | Failed e =>
      (rejected t \/ ~ batchValid pointData)
      /\ forall ev rest,
           t = ev :: rest -> request ev = newPoint (measurement pointData)
  end.
Proof.
  unfold writeBatchPoint. intros H.
  destruct (validateMeasurementName_returns (measurement pointData))
    as [M|[m M]]; rewrite M in H;
    cbn [lift bindP valid error failWith pass negb orElse shown] in H.
  2:{ run_end H. subst o. split; [|discriminate].
      right. intros [V _]. unfold accepts in V. rewrite M in V.
      discriminate. }
  apply runs_bind in H as [(point & t1 & t2 & -> & H1 & H2)|(e & H1 & ->)].
  2:{ apply runs_await in H1 as (x & -> & E).
      destruct x as [p|e']; [discriminate|]. split.
      - left. exists (newPoint (measurement pointData)), e'. now left.
      - intros ev rest I. now injection I as <- _. }
  apply runs_await in H1 as (x & -> & E).
  destruct x as [p|e']; [injection E as <-|discriminate].
  apply runs_bind in H2 as [(a & t3 & t4 & -> & H3 & H4)|(e & H3 & ->)].
  2:{ apply optionalTags_performs in H3 as [_ R]. split.
      - left. now apply (@rejected_app_r [_]).
      - intros ev rest I. now injection I as <- _. }
  apply optionalTags_performs in H3 as (_ & E3 & A3).
  destruct (fields pointData) as [[|f fs]|] eqn:F.
  1,3: run_end H4; subst o; split;
    [right; intros [_ (f' & fs' & V)]; congruence
    |intros ev rest I; now injection I as <- _].
  assert (performs
            (_ <-- forEach (addField point) (f :: fs) ;;
             _ <-- (if truthy (timestampOf pointData)
                    then await (timestamp point
                                  (timestampDate dateParse
                                     (timestampOf pointData)))
                    else Return tt) ;;
             _ <-- await (writePoint writeApi point) ;;
             Return (pointsWritten + 1))
            (flat_map (fieldRequests point) (f :: fs)
             ++ match batchTimeOf dateParse (timestampOf pointData) with
                | Some value => [timestamp point value]
                | None => []
                end
             ++ [writePoint writeApi point] ++ [])
            (fun n => n = pointsWritten + 1)) as P.
  { eapply performs_bind; [apply addFields_performs|]. intros _ _.
    eapply performs_bind; [apply batchTime_performs|]. intros _ _.
    eapply performs_bind;
      [exact (@performs_await (writePoint writeApi point))|]. intros _ _.
    now apply performs_return. }
  apply P in H4. destruct o as [n|e]; cbn [follows] in H4.
  - destruct H4 as (-> & E4 & A4). split; [reflexivity|].
    split; [split; [exact M | rewrite F; eauto]|]. split.
    + apply (@accepted_app [_]); [reflexivity|]. now apply accepted_app.
    + exists point. cbn [app map request]. f_equal.
      rewrite map_app, E3, E4, F. unfold fillRequests. cbn [orElse].
      now rewrite app_nil_r.
  - destruct H4 as [_ R]. split.
    + left. apply (@rejected_app_r [_]). now apply rejected_app_r.
    + intros ev rest I. now injection I as <- _.
Qed.

(** The loop of [executeWriteBatch] within its [try]: the points of a
    first part of the batch are handed over, block by block; then the
    rest of the [try] block runs, or the handler does. *)
Lemma batch_loop {B : Type} (dateParse : string -> Date)
  (writeApi : WriteApi) (itemIndex : Z) (K : Z -> Program B)
  (h : Exception -> Program B) (pointsData : list IWritePointOptions) :
  forall (k : Z) (t : list Event) (o : Outcome B),
  runs (tryCatch
          (pointsWritten <--
             foldP (writeBatchPoint dateParse writeApi itemIndex) pointsData k ;;
           K pointsWritten) h) t o ->
  exists (n : nat) (blocks : list (list Event)) (rest : list Event),
    t = (concat blocks ++ rest)%list
    /\ (n <= List.length pointsData)%nat
    /\ Forall2 (fun pointData block =>
                  batchValid pointData
                  /\ handedOver dateParse writeApi pointData block)
         (firstn n pointsData) blocks
    /\ ((n = List.length pointsData
         /\ runs (tryCatch (K (k + Z.of_nat n)) h) rest o)
        \/ exists e last closing,
             rest = (last ++ closing)%list
             /\ runs (h e) closing o
             /\ (rejected last
                 \/ exists pointData,
                      nth_error pointsData n = Some pointData
                      /\ ~ batchValid pointData)
             /\ forall ev rest',
                  last = ev :: rest' ->
                  exists pointData,
                    nth_error pointsData n = Some pointData
                    /\ request ev = newPoint (measurement pointData)).
Proof.
  induction pointsData as [|pointData pointsData IH]; intros k t o H.
  - cbn [foldP bindP] in H. exists 0%nat, [], t.
    split; [reflexivity|]. split; [cbn; lia|]. split; [constructor|].
    left. split; [reflexivity|]. now rewrite Z.add_0_r.
  - cbn [foldP] in H. apply (proj2 (runs_try_assoc _ _ _ _ _ _)) in H.
    apply runs_try_bind in H
      as [(a & t1 & t2 & -> & H1 & H2)|(e & t1 & t2 & -> & H1 & H2)].
    + apply writeBatchPoint_runs in H1 as (-> & V & HO).
      apply IH in H2 as (n & blocks & rest & -> & Ln & F2 & D).
      exists (S n), (t1 :: blocks), rest.
      split; [cbn [concat]; now rewrite app_assoc|].
      split; [cbn; lia|].
      split; [cbn [firstn]; constructor; [split; assumption | exact F2]|].
      destruct D as [[-> R]|(e & last & closing & -> & R & D1 & D2)].
      * left. split; [reflexivity|].
        replace (k + Z.of_nat (S (List.length pointsData)))
          with (k + 1 + Z.of_nat (List.length pointsData)) by lia.
        exact R.
      * right. exists e, last, closing. auto.
    + apply writeBatchPoint_runs in H1 as [D1 D2].
      exists 0%nat, [], (t1 ++ t2)%list.
      split; [reflexivity|]. split; [cbn; lia|]. split; [constructor|].
      right. exists e, t1, t2. split; [reflexivity|]. split; [exact H2|].
      split.
      * destruct D1 as [R|V]; [now left | right].
        exists pointData. now split.
      * intros ev rest' I. exists pointData. split; [reflexivity|].
        exact (D2 _ _ I).
Qed.

(** The runs of the [catch] block of [executeWriteBatch]. *)
Lemma batchCatch_runs {A : Type} (writeApi : WriteApi) (message : string)
  (itemIndex : Z) (t : list Event) (o : Outcome A) :
  runs (_ <-- tryCatch (await (close writeApi)) (fun _ => Return tt) ;;
        Throw (NodeOperationError message itemIndex)) t o ->
  (exists x, t = [event (close writeApi) x])
  /\ o = Failed (NodeOperationError message itemIndex).
Proof.
  intros H. run_step H.
  destruct x as [[]|e]; run_end H; split; eauto.
Qed.

(** A run of [executeWriteBatch] stops at a check, before any call, or
    the bucket is valid, the batch is not empty and the [try] block
    runs. *)
Lemma executeWriteBatch_analysis (dateParse : string -> Date)
  (descriptive : string -> string) (credentials : IInfluxDbCredentials)
  (pointsData : list IWritePointOptions) (batchSize : Z)
  (bucketParam : string) (itemIndex : Z)
  (t : list Event) (o : Outcome (list INodeExecutionData)) :
  runs (executeWriteBatch dateParse descriptive credentials pointsData
          batchSize bucketParam itemIndex) t o ->
  (t = [] /\ exists e, o = Failed e)
  \/ (accepts (validateBucketName
                 (JsString (bucketOrDefault bucketParam credentials)))
      /\ pointsData <> []
      /\ exists (n : nat) (blocks : list (list Event))
           (last closing : list Event),
           t = (concat blocks ++ last ++ closing)%list
           /\ closes (getWriteApi (organization credentials)
                        (bucketOrDefault bucketParam credentials) "ns"
                        (Some batchSize)) closing
           /\ (n <= List.length pointsData)%nat
           /\ Forall2 (fun pointData block =>
                         batchValid pointData
                         /\ handedOver dateParse
                              (getWriteApi (organization credentials)
                                 (bucketOrDefault bucketParam credentials)
                                 "ns" (Some batchSize))
                              pointData block)
                (firstn n pointsData) blocks
           /\ (forall items, o = Completed items ->
               n = List.length pointsData /\ last = []
               /\ exists json,
                    items = [mkItem json itemIndex]
                    /\ getProp "pointsWritten" json
                       = Some (JsNum (num (Z.of_nat n))))
           /\ (forall e, o = Failed e ->
               (exists message, e = NodeOperationError message itemIndex)
               /\ (rejected t
                   \/ exists pointData,
                        nth_error pointsData n = Some pointData
                        /\ ~ batchValid pointData))
           /\ (forall ev rest,
               last = ev :: rest ->
               exists pointData,
                 nth_error pointsData n = Some pointData
                 /\ request ev = newPoint (measurement pointData))).
Proof.
  unfold executeWriteBatch. intros H.
  set (bucket := bucketOrDefault bucketParam credentials) in *.
  destruct (truthy (JsString bucket)); cbn [negb] in H;
    [|run_end H; left; eauto].
  destruct (validateBucketName_returns bucket) as [B|[e B]]; rewrite B in H;
    cbn [lift bindP valid error failWith pass negb orElse] in H;
    [|run_end H; left; eauto].
  destruct pointsData as [|pointData pointsData'] eqn:E;
    cbn [List.length Nat.eqb] in H; [run_end H; left; eauto|].
  rewrite <- E in *. right.
  split; [exact B|]. split; [rewrite E; discriminate|].
  unfold getOrganization in H. cbv zeta in H.
  set (writeApi := getWriteApi (organization credentials) bucket "ns"
                     (Some batchSize)) in *.
  apply batch_loop in H as (n & blocks & rest & -> & Ln & F2 & D).
  destruct D as [[-> R]|(e & last & closing & -> & R & D1 & D2)].
  - apply close_runs in R as [[-> ->]|(e & t' & -> & R)].
    + exists (List.length pointsData), blocks, [],
        [event (close writeApi) (Returned tt)].
      split; [reflexivity|].
      split; [split; [discriminate | repeat constructor]|].
      split; [exact Ln|]. split; [exact F2|].
      split; [|split; [discriminate | discriminate]].
      intros items I. injection I as <-. split; [reflexivity|].
      split; [reflexivity|]. eexists. split; [reflexivity|]. reflexivity.
    + apply batchCatch_runs in R as [[x ->] ->].
      exists (List.length pointsData), blocks, [],
        [event (close writeApi) (Thrown e); event (close writeApi) x].
      split; [reflexivity|].
      split; [split; [discriminate | repeat constructor]|].
      split; [exact Ln|]. split; [exact F2|].
      split; [discriminate|]. split; [|discriminate].
      intros e' I. injection I as <-. split; [eauto|]. left.
      apply rejected_app_r. exists (close writeApi), e. now left.
  - apply batchCatch_runs in R as [[x ->] ->].
    exists n, blocks, last, [event (close writeApi) x].
    split; [reflexivity|].
    split; [split; [discriminate | repeat constructor]|].
    split; [exact Ln|]. split; [exact F2|].
    split; [discriminate|]. split; [|exact D2].
    intros e' I. injection I as <-. split; [eauto|].
    destruct D1 as [R|V]; [left | now right].
    now apply rejected_app_r, rejected_app_l.
Qed.

(** X28. In every run of [executeWriteBatch] that makes a call, the bucket
    is a valid name and the batch is not empty. The calls come in blocks,
    one for each point of a first part of the batch, in order: each of
    these points has a valid measurement and a field, and its block makes
    the point, adds its tags, its fields and its timestamp and writes it,
    every call returning. Then come the calls of the point at which the
    run failed, if any, the first of which makes that point, and the
    closing of the handle, at least once. Tag keys, field keys, field
    values and timestamps are not checked by the operation. When the
    operation completes, every point was handed over and their number is
    reported. When it fails, it fails with a [NodeOperationError] of the
    item, the points before the failure were handed over all the same,
    and a call was rejected or the next point has no valid measurement or
    no field. *)
Theorem executeWriteBatch_runs (dateParse : string -> Date)
  (descriptive : string -> string) (credentials : IInfluxDbCredentials)
  (pointsData : list IWritePointOptions) (batchSize : Z)
  (bucketParam : string) (itemIndex : Z)
  (t : list Event) (o : Outcome (list INodeExecutionData)) :
  runs (executeWriteBatch dateParse descriptive credentials pointsData
          batchSize bucketParam itemIndex) t o ->
  t <> [] ->
  accepts (validateBucketName
             (JsString (bucketOrDefault bucketParam credentials)))
  /\ pointsData <> []
  /\ exists (n : nat) (blocks : list (list Event))
       (last closing : list Event),
       t = (concat blocks ++ last ++ closing)%list
       /\ closes (getWriteApi (organization credentials)
                    (bucketOrDefault bucketParam credentials) "ns"
                    (Some batchSize)) closing
       /\ (n <= List.length pointsData)%nat
       /\ Forall2 (fun pointData block =>
                     batchValid pointData
                     /\ handedOver dateParse
                          (getWriteApi (organization credentials)
                             (bucketOrDefault bucketParam credentials)
                             "ns" (Some batchSize))
                          pointData block)
            (firstn n pointsData) blocks
       /\ (forall items, o = Completed items ->
           n = List.length pointsData /\ last = []
           /\ exists json,
                items = [mkItem json itemIndex]
                /\ getProp "pointsWritten" json
                   = Some (JsNum (num (Z.of_nat n))))
       /\ (forall e, o = Failed e ->
           (exists message, e = NodeOperationError message itemIndex)
           /\ (rejected t
               \/ exists pointData,
                    nth_error pointsData n = Some pointData
                    /\ ~ batchValid pointData))
       /\ (forall ev rest,
           last = ev :: rest ->
           exists pointData,
             nth_error pointsData n = Some pointData
             /\ request ev = newPoint (measurement pointData)).
Proof.
  intros H N.
  apply executeWriteBatch_analysis in H as [[E _]|H]; [contradiction|].
  exact H.
Qed.

Lemma tryCatch_closeAndRaise_raises {A : Type} (p : Program A)
  (writeApi : WriteApi) (prefix : string) (itemIndex : Z) :
  raisesNodeOperationError itemIndex
    (tryCatch p (closeAndRaise writeApi prefix itemIndex)).
Proof.
  unfold raisesNodeOperationError.
  induction p as [a|e'|r k IH]; cbn [tryCatch runs]; intros t e H.
  - destruct H as [_ H]. discriminate.
  - apply closeAndRaise_runs in H as [_ H]. injection H as ->. eauto.
  - destruct H as (x & t' & _ & H). eauto.
Qed.

(** X29. A run of a write operation in which the handle is closed fails
    only with a [NodeOperationError] that carries the index of the item:
    whatever is raised within the [try] block, be it a field that the
    library refuses, a rejected write or a rejected closing, reaches the
    caller in that form. The creation of the handle comes before the
    [try] block; a run that closes the handle has created it. *)
Theorem write_operations_raise_NodeOperationError
  (dateParse : string -> Date) (now : Z) (descriptive : string -> string)
  (credentials : IInfluxDbCredentials)
  (measurement : string) (tags fields : Row) (timestampParam : JsValue)
  (pointsData : list IWritePointOptions) (batchSize : Z)
  (lineProtocol bucketParam precision : string) (itemIndex : Z)
  (t : list Event) (e : Exception) :
  runs (executeWritePoint dateParse now credentials measurement tags fields
          timestampParam bucketParam itemIndex) t (Failed e)
  \/ runs (executeWriteBatch dateParse descriptive credentials pointsData
             batchSize bucketParam itemIndex) t (Failed e)
  \/ runs (executeWriteLineProtocol credentials lineProtocol bucketParam
             precision itemIndex) t (Failed e) ->
  (exists writeApi, In (close writeApi) (requests t)) ->
  exists message, e = NodeOperationError message itemIndex.
Proof.
  intros [H|[H|H]] [writeApi C].
  - apply executeWritePoint_analysis in H
      as [[-> _]|(_ & _ & _ & _ & _ & _ & x & calls & closing & _ & _ & _ & _
                  & _ & X4)]; [contradiction C|].
    now destruct (X4 e eq_refl).
  - apply executeWriteBatch_analysis in H
      as [[-> _]|(_ & _ & n & blocks & last & closing & _ & _ & _ & _ & _
                  & X & _)]; [contradiction C|].
    now destruct (X e eq_refl).
  - revert H. unfold executeWriteLineProtocol.
    pose proof (validateBucketName_returns
                  (bucketOrDefault bucketParam credentials)) as B.
    assert (forall message,
              @runs (list INodeExecutionData)
                (Throw (NodeOperationError message itemIndex)) t (Failed e)
              -> exists message', e = NodeOperationError message' itemIndex)
      as T.
    { intros message [_ E]. injection E as ->. eauto. }
    destruct (truthy _); cbn [negb]; [|apply T].
    validated B; [|apply T].
    destruct (_ || _); [apply T|].
    destruct (_ =? _)%nat; [apply T|].
    apply tryCatch_closeAndRaise_raises.
Qed.

Lemma simpleQuery_is_valid_flux_last_hour :
  accepts (validateFluxQuery
             (JsString (simpleQuery "sensors" "temperature" "-1h" "now()"
                          "value" 10))) <->
  countChar "(" ("-1h" ++ "now()" ++ "value")
  = countChar ")" ("-1h" ++ "now()" ++ "value")
  /\ countChar "[" ("-1h" ++ "now()" ++ "value")
     = countChar "]" ("-1h" ++ "now()" ++ "value").
Proof.
  apply (@simpleQuery_is_valid_flux "sensors" "temperature" "-1h" "now()"
           "value" 10).
  - vm_compute. reflexivity.
  - vm_compute. reflexivity.
Defined.

Lemma executeWriteLineProtocol_runs_two_lines :
  accepts (validateBucketName (JsString (bucketOrDefault "sensors" myOrg)))
  /\ trim ("cpu value=1" ++ nl ++ nl ++ "cpu value=2" ++ nl) <> EmptyString
  /\ (exists x t',
        traceOf writing
          (executeWriteLineProtocol myOrg
             ("cpu value=1" ++ nl ++ nl ++ "cpu value=2" ++ nl) "sensors"
             "ms" 0)
        = event (writeRecord
                   (getWriteApi (organization myOrg)
                      (bucketOrDefault "sensors" myOrg) "ms" None)
                   (trim ("cpu value=1" ++ nl ++ nl ++ "cpu value=2" ++ nl)))
            x :: t'
        /\ closes (getWriteApi (organization myOrg)
                     (bucketOrDefault "sensors" myOrg) "ms" None) t')
  /\ forall items,
     outcomeOf writing
       (executeWriteLineProtocol myOrg
          ("cpu value=1" ++ nl ++ nl ++ "cpu value=2" ++ nl) "sensors" "ms" 0)
     = Completed items ->
     exists json n,
       items = [mkItem json 0]
       /\ getProp "linesWritten" json = Some (JsNum (num (Z.of_nat n)))
       /\ (1 <= n
           <= 1 + countChar LF
                  (trim ("cpu value=1" ++ nl ++ nl ++ "cpu value=2" ++ nl)))%nat.
Proof.
  apply (@executeWriteLineProtocol_runs myOrg
           ("cpu value=1" ++ nl ++ nl ++ "cpu value=2" ++ nl) "sensors" "ms" 0).
  - apply traceOf_runs.
  - vm_compute. discriminate.
Defined.

Lemma library_runs {A : Type} (p : Program A) :
  runs p (libraryTrace p) (libraryOutcome p).
Proof. apply run_runs. Qed.


Lemma executeWritePoint_calls_office :
  exists (point : Point) (fieldCalls : list Request),
    requests
      (libraryTrace
         (executeWritePoint isoDateParse 0 myOrg "temperature"
            [("location", JsString "office")]
            [("value", JsNum (Finite (47 # 2))); ("count", JsNum (num 3))]
            (JsNum (num 1640000000000)) "sensors" 0))
    = (newPoint "temperature"
       :: map (fun entry => tag point (fst entry) (snd entry))
            [("location", JsString "office")]
       ++ fieldCalls
       ++ match timeOf isoDateParse (JsNum (num 1640000000000)) with
          | Some value => [timestamp point value]
          | None => []
          end
       ++ [writePoint
             (getWriteApi (organization myOrg)
                (bucketOrDefault "sensors" myOrg) "ns" None) point;
           close
             (getWriteApi (organization myOrg)
                (bucketOrDefault "sensors" myOrg) "ns" None)])%list
    /\ Forall2 (fun entry r => addedAs point (fst entry) (snd entry) r)
         [("value", JsNum (Finite (47 # 2))); ("count", JsNum (num 3))]
         fieldCalls
    /\ accepted
         (libraryTrace
            (executeWritePoint isoDateParse 0 myOrg "temperature"
               [("location", JsString "office")]
               [("value", JsNum (Finite (47 # 2))); ("count", JsNum (num 3))]
               (JsNum (num 1640000000000)) "sensors" 0))
    /\ exists json,
         [mkItem
            [("success", JsBoolean true); ("pointsWritten", JsNum (num 1));
             ("measurement", JsString "temperature");
             ("bucket", JsString "sensors");
             ("timestamp", JsNum (num 1640000000000))] 0]
         = [mkItem json 0]
         /\ getProp "pointsWritten" json = Some (JsNum (num 1))
         /\ getProp "measurement" json = Some (JsString "temperature").
Proof.
  apply (@executeWritePoint_calls isoDateParse 0 myOrg "temperature"
           [("location", JsString "office")]
           [("value", JsNum (Finite (47 # 2))); ("count", JsNum (num 3))]
           (JsNum (num 1640000000000)) "sensors" 0).
  assert (libraryOutcome
            (executeWritePoint isoDateParse 0 myOrg "temperature"
               [("location", JsString "office")]
               [("value", JsNum (Finite (47 # 2))); ("count", JsNum (num 3))]
               (JsNum (num 1640000000000)) "sensors" 0)
          = Completed
              [mkItem
                 [("success", JsBoolean true);
                  ("pointsWritten", JsNum (num 1));
                  ("measurement", JsString "temperature");
                  ("bucket", JsString "sensors");
                  ("timestamp", JsNum (num 1640000000000))] 0]) as <-
    by (vm_compute; reflexivity).
  apply library_runs.
Defined.

Lemma executeWriteBatch_runs_second_without_field :
  accepts (validateBucketName
             (JsString (bucketOrDefault EmptyString sensorsOrg)))
  /\ twoPoints <> []
  /\ exists (n : nat) (blocks : list (list Event))
       (last closing : list Event),
       libraryTrace
         (executeWriteBatch isoDateParse kept sensorsOrg twoPoints 5000
            EmptyString 0)
       = (concat blocks ++ last ++ closing)%list
       /\ closes (getWriteApi (organization sensorsOrg)
                    (bucketOrDefault EmptyString sensorsOrg) "ns"
                    (Some 5000)) closing
       /\ (n <= List.length twoPoints)%nat
       /\ Forall2 (fun pointData block =>
                     batchValid pointData
                     /\ handedOver isoDateParse
                          (getWriteApi (organization sensorsOrg)
                             (bucketOrDefault EmptyString sensorsOrg)
                             "ns" (Some 5000))
                          pointData block)
            (firstn n twoPoints) blocks
       /\ (forall items,
           libraryOutcome
             (executeWriteBatch isoDateParse kept sensorsOrg twoPoints 5000
                EmptyString 0) = Completed items ->
           n = List.length twoPoints /\ last = []
           /\ exists json,
                items = [mkItem json 0]
                /\ getProp "pointsWritten" json
                   = Some (JsNum (num (Z.of_nat n))))
       /\ (forall e,
           libraryOutcome
             (executeWriteBatch isoDateParse kept sensorsOrg twoPoints 5000
                EmptyString 0) = Failed e ->
           (exists message, e = NodeOperationError message 0)
           /\ (rejected
                 (libraryTrace
                    (executeWriteBatch isoDateParse kept sensorsOrg twoPoints
                       5000 EmptyString 0))
               \/ exists pointData,
                    nth_error twoPoints n = Some pointData
                    /\ ~ batchValid pointData))
       /\ (forall ev rest,
           last = ev :: rest ->
           exists pointData,
             nth_error twoPoints n = Some pointData
             /\ request ev = newPoint (measurement pointData)).
Proof.
  apply (@executeWriteBatch_runs isoDateParse kept sensorsOrg twoPoints 5000
           EmptyString 0).
  - apply library_runs.
  - vm_compute. discriminate.
Defined.

Lemma write_operations_raise_NodeOperationError_refused :
  exists message,
    NodeOperationError
      ("Failed to write point to InfluxDB: " ++ "invalid value for field") 0
    = NodeOperationError message 0.
Proof.
  apply (@write_operations_raise_NodeOperationError isoDateParse 0 kept myOrg
           "temperature" [("location", JsString "office")]
           [("count", JsNum (num (2 ^ 70)))] JsUndefined twoPoints 5000
           "cpu value=1" "sensors" "ns" 0 (libraryTrace writeHuge)).
  - left.
    assert (libraryOutcome writeHuge
            = Failed (NodeOperationError
                        ("Failed to write point to InfluxDB: "
                         ++ "invalid value for field") 0)) as <-
      by (vm_compute; reflexivity).
    apply library_runs.
  - exists (getWriteApi "my-org" "sensors" "ns" None).
    vm_compute. auto.
Defined.

(** ** The organization operations *)

(** X30. The operations that get, create, update and delete an
    organization send a request only for a name that is not empty, a
    deletion only when it was confirmed too, and they fail only with a
    [NodeOperationError] for the item. The name is not checked against
    any pattern. In every run of [executeDeleteOrganization] that sends a
    delete request, the server was first asked for the organizations of
    that name and answered with at least one, and the delete request, the
    second and last of the run, is for the id of the first of them. *)
Theorem organization_operations_guarded
  (orgName newName description : string) (confirm : bool) (itemIndex : Z) :
  (requestsOnlyWhen (orgName <> EmptyString)
     (executeGetOrganization orgName itemIndex)
   /\ requestsOnlyWhen (orgName <> EmptyString)
        (executeCreateOrganization orgName description itemIndex)
   /\ requestsOnlyWhen (orgName <> EmptyString)
        (executeUpdateOrganization orgName newName description itemIndex)
   /\ requestsOnlyWhen (confirm = true /\ orgName <> EmptyString)
        (executeDeleteOrganization orgName confirm itemIndex))
  /\ (raisesNodeOperationError itemIndex
        (executeGetOrganization orgName itemIndex)
      /\ raisesNodeOperationError itemIndex
           (executeCreateOrganization orgName description itemIndex)
      /\ raisesNodeOperationError itemIndex
           (executeUpdateOrganization orgName newName description itemIndex)
      /\ raisesNodeOperationError itemIndex
           (executeDeleteOrganization orgName confirm itemIndex))
  /\ forall t o orgID,
     runs (executeDeleteOrganization orgName confirm itemIndex) t o ->
     In (deleteOrgsID orgID) (requests t) ->
     exists org orgs x,
       orgID = Organization.id org
       /\ t = [event (getOrgs orgName) (Returned (Some (org :: orgs)));
               event (deleteOrgsID orgID) x].
Proof.
  assert ((truthy (JsString orgName) = true /\ orgName <> EmptyString)
          \/ truthy (JsString orgName) = false) as T.
  { destruct (truthy (JsString orgName)) eqn:E; [left | now right].
    split; [reflexivity | now apply truthy_string]. }
  unfold executeGetOrganization, executeCreateOrganization,
    executeUpdateOrganization, executeDeleteOrganization.
  cbn [typeof]. rewrite String.eqb_refl. cbn [negb].
  destruct T as [[-> N]| ->]; cbn [negb orb].
  - split; [|split].
    + repeat apply conj; try (now apply requestsOnlyWhen_holds).
      destruct confirm; cbn [negb];
        [now apply requestsOnlyWhen_holds | apply Throw_requests_nothing].
    + repeat apply conj; try apply tryCatch_raises.
      destruct confirm; cbn [negb];
        [apply tryCatch_raises | apply Throw_raises].
    + intros t o orgID H I. unfold requests in I.
      destruct confirm; cbn [negb] in H; [|run_end H; destruct I].
      run_step H.
      destruct x as [[[|org orgs]|]|e]; cbn [bindP tryCatch] in H;
        try (run_end H; destruct I as [I|[]]; discriminate).
      run_step H. destruct x as [[]|e]; run_end H;
        (destruct I as [I|[I|[]]]; [discriminate|]); injection I as <-;
        do 3 eexists; split; reflexivity.
  - split; [|split].
    + repeat apply conj; try apply Throw_requests_nothing.
      destruct confirm; apply Throw_requests_nothing.
    + repeat apply conj; try apply Throw_raises.
      destruct confirm; apply Throw_raises.
    + intros t o orgID H I. unfold requests in I.
      destruct confirm; cbn [negb] in H; run_end H; destruct I.
Qed.

Lemma organization_operations_guarded_acme :
  exists org orgs x,
    Some "o1" = Organization.id org
    /\ deleteAcme
       = [event (getOrgs "acme") (Returned (Some (org :: orgs)));
          event (deleteOrgsID (Some "o1")) x].
Proof.
  apply (proj2 (proj2 (@organization_operations_guarded "acme" EmptyString
                         EmptyString true 0))
           deleteAcme
           (Completed [mkItem [("success", JsBoolean true);
                               ("deleted", JsBoolean true);
                               ("organizationName", JsString "acme");
                               ("organizationID", JsString "o1")] 0])
           (Some "o1")).
  - run_here.
  - cbv. tauto.
Defined.

(** ** The operations on examples *)

Example test_operations :
  outcomeOf writing (executeDeleteBucket "sensors" false 2)
  = Failed (NodeOperationError
              ("Delete bucket operation requires confirmation. "
               ++ "Please check the confirm checkbox.") 2)
  /\ requests (libraryTrace
                 (executeWritePoint isoDateParse 0 myOrg "temperature"
                    [("location", JsString "office")]
                    [("value", JsNum (Finite (47 # 2))); ("n", JsNum (num 3))]
                    (JsNum (num 1640000000000)) "sensors" 0))
     = [newPoint "temperature";
        tag (pointRef 0) "location" (JsString "office");
        floatField (pointRef 0) "value" (Finite (47 # 2));
        intField (pointRef 0) "n" (num 3);
        timestamp (pointRef 0) (JsDate (ValidDate 1640000000000));
        writePoint (getWriteApi "my-org" "sensors" "ns" None) (pointRef 0);
        close (getWriteApi "my-org" "sensors" "ns" None)]
  /\ requests (libraryTrace writeHuge)
     = [newPoint "temperature";
        tag (pointRef 0) "location" (JsString "office");
        intField (pointRef 0) "count" (num (2 ^ 70));
        close (getWriteApi "my-org" "sensors" "ns" None)]
  /\ libraryOutcome writeHuge
     = Failed (NodeOperationError
                 ("Failed to write point to InfluxDB: "
                  ++ "invalid value for field") 0)
  /\ requests (libraryTrace
                 (executeWriteBatch isoDateParse kept sensorsOrg twoPoints
                    5000 EmptyString 0))
     = [newPoint "temperature";
        tag (pointRef 0) "_room" (JsString "office");
        floatField (pointRef 0) "_value" (Finite (47 # 2));
        writePoint (getWriteApi "my-org" "sensors" "ns" (Some 5000))
          (pointRef 0);
        newPoint "humidity";
        close (getWriteApi "my-org" "sensors" "ns" (Some 5000))]
  /\ libraryOutcome
       (executeWriteBatch isoDateParse kept sensorsOrg twoPoints 5000
          EmptyString 0)
     = Failed (NodeOperationError
                 ("Failed to write batch to InfluxDB: "
                  ++ "Point 1: At least one field is required") 0)
  /\ requests (traceOf (answering twoQueryRows)
                 (executeSimpleQuery isoDateParse 0 myOrg "sensors"
                    "temperature" "-1h" "now()" EmptyString unix 0 7))
     = [queryRows "my-org"
          ("from(bucket: " ++ dq ++ "sensors" ++ dq ++ ")" ++ nl
           ++ "  |> range(start: -1h, stop: now())" ++ nl
           ++ "  |> filter(fn: (r) => r._measurement == " ++ dq
           ++ "temperature" ++ dq ++ ")")].
Proof. repeat split; vm_compute; reflexivity. Qed.
